(** * RideWise: the reservation page and the latest-reservation store

    A shallow embedding of the client code of the RideWise front end:

    - [calculatePrice]                      (src/pages/Reservation.tsx)
    - [ReservationProvider] and its store   (contexts/ReservationContext)
    - [fetchUserReservations], [loadStations], [handleReserve] and the two
      effects that seed and follow the station selection
                                            (src/pages/Reservation.tsx)
    - [handleCancelReservation], [openEditDialog], [handleEditReservation]
      and the effect of the edit dialog     (src/pages/Reservation.tsx)
    - [fetchStations], the map's [handleReserve] and [getIconForDemand]
                                            (components/dashboard/LeafletMap)
    - [isValidEmail], [validate] and [handleSubmit]
                                            (src/pages/Contact.tsx)

    The PDF receipt, the routes and everything that only draws are left
    out.

    How the program is modelled:

    - TypeScript types are erased when the program runs, and a cast checks
      nothing.  Whatever reaches the program from the server, from
      [localStorage] or from the router is an untyped JavaScript [value];
      the typed views of the interfaces ([LatestReservation], [Station],
      [DemandLevel], [TimeSlot]) are records and enumerations with an
      injection into [value].
    - [JSON.stringify], [JSON.parse], [ToString] and [ToBoolean] follow
      ECMA-262 on these values.
    - A [useState] cell holds the value the next render will show.  A
      handler or effect is a function in a state and error monad over the
      cells of its component and the [world]; what it reads from the render
      it was created in is an argument.  The parts of an [async] function
      run in order and without another handler in between.
    - The server, the network and the failures of [localStorage] are
      parameters, collected in a [browser]. *)

From Stdlib Require Import String Ascii List ZArith NArith Bool Lia.
Import ListNotations.

Set Implicit Arguments.
Set Warnings "-register-all,-notation-for-abbreviation".

Local Open Scope Z_scope.

(** ** JavaScript strings

    A string is a sequence of UTF-16 code units. *)

Notation code_unit := N (only parsing).
Notation jsstring := (list N) (only parsing).

Definition str (s : string) : jsstring :=
  map N_of_ascii (list_ascii_of_string s).

Arguments str : simpl never.

Fixpoint jsstring_eqb (a b : jsstring) : bool :=
  match a, b with
  | [], [] => true
  | x :: a', y :: b' => N.eqb x y && jsstring_eqb a' b'
  | _, _ => false
  end.

(** ** JavaScript values

    [VNum m e] is the number m * 10^e.  The program never computes with the
    numbers it receives; it copies them, tests them for truthiness and prints
    them.  The rounding of a decimal literal to binary64 is not modelled: the
    model is exact on the integers of magnitude at most 2^53 and on every
    number whose shortest decimal form is the literal it was read from. *)

Inductive value : Type :=
| VUndefined
| VNull
| VBool (b : bool)
| VNum (m e : Z)
| VStr (s : jsstring)
| VArr (items : list value)
| VObj (fields : list (jsstring * value)).

Definition VInt (n : Z) : value := VNum n 0.

(** [x === "literal"]: strict equality against a string literal. *)
Definition is_str (v : value) (lit : jsstring) : bool :=
  match v with
  | VStr s => jsstring_eqb s lit
  | _ => false
  end.

(** ** The typed views *)

Inductive DemandLevel := High | Medium | Low.
Inductive TimeSlot := Morning | Afternoon | Evening | Night.

Definition demand_name (d : DemandLevel) : jsstring :=
  match d with
  | High => str "High"
  | Medium => str "Medium"
  | Low => str "Low"
  end.

Definition slot_name (t : TimeSlot) : jsstring :=
  match t with
  | Morning => str "Morning"
  | Afternoon => str "Afternoon"
  | Evening => str "Evening"
  | Night => str "Night"
  end.

Definition demand_value (d : DemandLevel) : value := VStr (demand_name d).
Definition slot_value (t : TimeSlot) : value := VStr (slot_name t).

(** ** Pricing

    [[
    function calculatePrice(demand: DemandLevel, timeSlot: TimeSlot): number {
      const demandPrice = demand === "High" ? 400 : demand === "Medium" ? 300 : 200;
      const nightSurcharge = timeSlot === "Night" ? 100 : 0;
      return demandPrice + nightSurcharge;
    }
    ]] *)

Definition calculatePrice (demand timeSlot : value) : Z :=
  let demandPrice :=
    if is_str demand (str "High") then 400
    else if is_str demand (str "Medium") then 300
    else 200 in
  let nightSurcharge := if is_str timeSlot (str "Night") then 100 else 0 in
  demandPrice + nightSurcharge.

(** The spec's table of base prices and its surcharge. *)
Definition base_price (d : DemandLevel) : Z :=
  match d with
  | Low => 200
  | Medium => 300
  | High => 400
  end.

Definition is_night (t : TimeSlot) : bool :=
  match t with
  | Night => true
  | _ => false
  end.


(** ** Truthiness and conversion to string *)

(** [ToBoolean]: undefined, null, false, zero and the empty string are falsy. *)
Definition truthy (v : value) : bool :=
  match v with
  | VUndefined | VNull => false
  | VBool b => b
  | VNum m _ => negb (m =? 0)
  | VStr s => match s with [] => false | _ => true end
  | VArr _ | VObj _ => true
  end.

(** Decimal digits of a natural number, most significant first. *)
Fixpoint digits_fuel (fuel : nat) (n : N) (acc : jsstring) : jsstring :=
  match fuel with
  | O => acc
  | S fuel' =>
      let acc' := (48 + n mod 10)%N :: acc in
      if (n / 10 =? 0)%N then acc' else digits_fuel fuel' (n / 10)%N acc'
  end.

Definition digits_of_N (n : N) : jsstring :=
  digits_fuel (S (N.to_nat (N.log2 n))) n [].

Definition digits_of_Z (n : Z) : jsstring :=
  (if n <? 0 then str "-" else []) ++ digits_of_N (Z.abs_N n).

(** Drops the trailing zeros of a mantissa into the exponent. *)
Fixpoint strip_zeros (fuel : nat) (s : N) (e : Z) : N * Z :=
  match fuel with
  | O => (s, e)
  | S fuel' =>
      if (s mod 10 =? 0)%N then strip_zeros fuel' (s / 10)%N (e + 1)
      else (s, e)
  end.

(** [Number::toString] (radix 10) on the decimal m * 10^e: with [ds] the
    [k] significant digits and [n] the position of the decimal point,
    integers below 10^21 are written out, small fractions get a leading
    [0.], and everything else is in exponent form. *)
Definition number_to_string (m e : Z) : jsstring :=
  if m =? 0 then str "0"
  else
    let '(s, e') := strip_zeros (S (N.to_nat (N.log2 (Z.abs_N m)))) (Z.abs_N m) e in
    let ds := digits_of_N s in
    let k := Z.of_nat (length ds) in
    let n := e' + k in
    (if m <? 0 then str "-" else []) ++
    (if (k <=? n) && (n <=? 21) then
       ds ++ repeat 48%N (Z.to_nat (n - k))
     else if (0 <? n) && (n <=? 21) then
       firstn (Z.to_nat n) ds ++ str "." ++ skipn (Z.to_nat n) ds
     else if (-6 <? n) && (n <=? 0) then
       str "0." ++ repeat 48%N (Z.to_nat (- n)) ++ ds
     else
       let x := n - 1 in
       let es := (if x <? 0 then str "-" else str "+")
                 ++ digits_of_N (Z.abs_N x) in
       match ds with
       | [] => []
       | [d] => d :: str "e" ++ es
       | d :: rest => d :: str "." ++ rest ++ str "e" ++ es
       end).

Fixpoint join (sep : jsstring) (parts : list jsstring) : jsstring :=
  match parts with
  | [] => []
  | [p] => p
  | p :: rest => p ++ sep ++ join sep rest
  end.

(** [ToString].  An array is its elements joined by commas, with undefined
    and null elements empty; any other object is [[object Object]]. *)
Fixpoint to_string (v : value) : jsstring :=
  match v with
  | VUndefined => str "undefined"
  | VNull => str "null"
  | VBool true => str "true"
  | VBool false => str "false"
  | VNum m e => number_to_string m e
  | VStr s => s
  | VArr items =>
      join (str ",")
        (map (fun x => match x with
                       | VUndefined | VNull => []
                       | _ => to_string x
                       end) items)
  | VObj _ => str "[object Object]"
  end.

(** ** JSON text: [JSON.stringify] *)

Definition hex_digit (d : N) : code_unit :=
  (if d <? 10 then 48 + d else 87 + d)%N.

(** [UnicodeEscape]: backslash, u and four lower-case hexadecimal digits. *)
Definition unicode_escape (c : code_unit) : jsstring :=
  [92; 117;
   hex_digit ((c / 4096) mod 16); hex_digit ((c / 256) mod 16);
   hex_digit ((c / 16) mod 16); hex_digit (c mod 16)]%N.

Definition is_high_surrogate (c : code_unit) : bool :=
  ((55296 <=? c) && (c <=? 56319))%N.

Definition is_low_surrogate (c : code_unit) : bool :=
  ((56320 <=? c) && (c <=? 57343))%N.

(** The escape of one code unit that is not part of a surrogate pair. *)
Definition quote_unit (c : code_unit) : jsstring :=
  (if c =? 8 then [92; 98]
   else if c =? 9 then [92; 116]
   else if c =? 10 then [92; 110]
   else if c =? 12 then [92; 102]
   else if c =? 13 then [92; 114]
   else if c =? 34 then [92; 34]
   else if c =? 92 then [92; 92]
   else if (c <? 32) || is_high_surrogate c || is_low_surrogate c
        then unicode_escape c
   else [c])%N.

(** The body of [QuoteJSONString]: a high surrogate followed by a low one is
    a code point and is copied; a lone surrogate is escaped. *)
Fixpoint quote_body (s : jsstring) : jsstring :=
  match s with
  | [] => []
  | c :: rest =>
      if is_high_surrogate c then
        match rest with
        | d :: rest' =>
            if is_low_surrogate d then c :: d :: quote_body rest'
            else quote_unit c ++ quote_body rest
        | [] => quote_unit c
        end
      else quote_unit c ++ quote_body rest
  end.

Definition quote (s : jsstring) : jsstring :=
  34%N :: quote_body s ++ [34%N].

(** [SerializeJSONProperty] without replacer and indentation.  [None] is
    JavaScript's undefined: a property whose value is undefined is left out
    of an object and written [null] in an array. *)
Fixpoint serialize (v : value) : option jsstring :=
  match v with
  | VUndefined => None
  | VNull => Some (str "null")
  | VBool true => Some (str "true")
  | VBool false => Some (str "false")
  | VNum m e => Some (number_to_string m e)
  | VStr s => Some (quote s)
  | VArr items =>
      Some (str "[" ++
            join (str ",")
              (map (fun x => match serialize x with
                             | Some t => t
                             | None => str "null"
                             end) items)
            ++ str "]")
  | VObj fields =>
      Some (str "{" ++
            join (str ",")
              (flat_map (fun kx => match serialize (snd kx) with
                                   | Some t => [quote (fst kx) ++ str ":" ++ t]
                                   | None => []
                                   end) fields)
            ++ str "}")
  end.

Definition JSON_stringify (v : value) : option jsstring := serialize v.

(** ** JSON text: [JSON.parse]

    A recursive-descent reader of the JSON grammar (ECMA-404).  A syntax
    error is [Fail]; in JavaScript it is a thrown SyntaxError. *)

Inductive presult (A : Type) : Type :=
| Parsed (a : A) (rest : jsstring)
| Fail
| OutOfFuel.

Arguments Fail {A}.
Arguments OutOfFuel {A}.

Definition is_ws (c : code_unit) : bool :=
  ((c =? 9) || (c =? 10) || (c =? 13) || (c =? 32))%N.

Fixpoint skip_ws (s : jsstring) : jsstring :=
  match s with
  | c :: rest => if is_ws c then skip_ws rest else s
  | [] => []
  end.

Definition is_digit (c : code_unit) : bool :=
  ((48 <=? c) && (c <=? 57))%N.

(** The longest prefix of digits, and what follows it. *)
Fixpoint span_digits (s : jsstring) : jsstring * jsstring :=
  match s with
  | c :: rest =>
      if is_digit c then
        let '(ds, r) := span_digits rest in (c :: ds, r)
      else ([], s)
  | [] => ([], [])
  end.

Definition digits_value (ds : jsstring) : N :=
  fold_left (fun acc c => (10 * acc + (c - 48))%N) ds 0%N.

Definition hex_value (c : code_unit) : option N :=
  (if (48 <=? c) && (c <=? 57) then Some (c - 48)
   else if (97 <=? c) && (c <=? 102) then Some (c - 87)
   else if (65 <=? c) && (c <=? 70) then Some (c - 55)
   else None)%N.

Definition hex4 (a b c d : code_unit) : option code_unit :=
  match hex_value a, hex_value b, hex_value c, hex_value d with
  | Some x, Some y, Some z, Some w => Some (((x * 16 + y) * 16 + z) * 16 + w)%N
  | _, _, _, _ => None
  end.

(** The character after a backslash, other than u. *)
Definition simple_escape (c : code_unit) : option code_unit :=
  (if c =? 34 then Some 34
   else if c =? 92 then Some 92
   else if c =? 47 then Some 47
   else if c =? 98 then Some 8
   else if c =? 102 then Some 12
   else if c =? 110 then Some 10
   else if c =? 114 then Some 13
   else if c =? 116 then Some 9
   else None)%N.

(** A string after its opening quote, up to and including the closing one. *)
Fixpoint parse_string_body (s : jsstring) : option (jsstring * jsstring) :=
  match s with
  | [] => None
  | c :: r =>
      if (c =? 34)%N then Some ([], r)
      else if (c =? 92)%N then
        match r with
        | [] => None
        | x :: r' =>
            if (x =? 117)%N then
              match r' with
              | h1 :: h2 :: h3 :: h4 :: r'' =>
                  match hex4 h1 h2 h3 h4 with
                  | Some u =>
                      match parse_string_body r'' with
                      | Some (t, rest) => Some (u :: t, rest)
                      | None => None
                      end
                  | None => None
                  end
              | _ => None
              end
            else
              match simple_escape x with
              | Some u =>
                  match parse_string_body r' with
                  | Some (t, rest) => Some (u :: t, rest)
                  | None => None
                  end
              | None => None
              end
        end
      else if (c <? 32)%N then None
      else
        match parse_string_body r with
        | Some (t, rest) => Some (c :: t, rest)
        | None => None
        end
  end.

(** The fraction of a number: a point and at least one digit, or nothing. *)
Definition parse_fraction (s : jsstring) : option (jsstring * jsstring) :=
  match s with
  | c :: r =>
      if (c =? 46)%N then
        match span_digits r with
        | ([], _) => None
        | (fs, r') => Some (fs, r')
        end
      else Some ([], s)
  | [] => Some ([], s)
  end.

(** An optional sign. *)
Definition parse_sign (s : jsstring) : bool * jsstring :=
  match s with
  | c :: r =>
      if (c =? 45)%N then (true, r)
      else if (c =? 43)%N then (false, r)
      else (false, s)
  | [] => (false, s)
  end.

(** The exponent of a number: e or E, a sign and at least one digit, or
    nothing. *)
Definition parse_exponent (s : jsstring) : option (Z * jsstring) :=
  match s with
  | c :: r =>
      if ((c =? 101) || (c =? 69))%N then
        let '(neg, r1) := parse_sign r in
        match span_digits r1 with
        | ([], _) => None
        | (es, r2) =>
            let x := Z.of_N (digits_value es) in
            Some (if neg then - x else x, r2)
        end
      else Some (0, s)
  | [] => Some (0, s)
  end.

(** A number: an optional minus, an integer part without a leading zero,
    an optional fraction and an optional exponent. *)
Definition parse_number (s : jsstring) : option (value * jsstring) :=
  let '(neg, s1) :=
    match s with
    | c :: r => if (c =? 45)%N then (true, r) else (false, s)
    | [] => (false, s)
    end in
  match span_digits s1 with
  | ([], _) => None
  | (d :: ds, s2) =>
      if (d =? 48)%N && (match ds with [] => false | _ => true end) then None
      else
        match parse_fraction s2 with
        | None => None
        | Some (fs, s3) =>
            match parse_exponent s3 with
            | None => None
            | Some (x, s4) =>
                let m := Z.of_N (digits_value ((d :: ds) ++ fs)) in
                Some (VNum (if neg then - m else m)
                           (x - Z.of_nat (length fs)), s4)
            end
        end
  end.

(** [strip_prefix p s] is what follows [p] in [s]. *)
Fixpoint strip_prefix (p s : jsstring) : option jsstring :=
  match p, s with
  | [], _ => Some s
  | x :: p', y :: s' => if (x =? y)%N then strip_prefix p' s' else None
  | _ :: _, [] => None
  end.

(** ** Property order of parsed objects

    An array index is the canonical decimal form of an integer below
    2^32 - 1.  The properties of an object are enumerated with the array
    indices first, in ascending order, then the other keys in the order
    they were created; defining a key that exists replaces its value. *)

Definition array_index (k : jsstring) : option N :=
  match k with
  | [] => None
  | d :: ds =>
      if forallb is_digit k
         && negb ((d =? 48)%N && (match ds with [] => false | _ => true end))
         && (digits_value k <? 4294967295)%N
      then Some (digits_value k)
      else None
  end.

Fixpoint define_index (i : N) (k : jsstring) (v : value)
         (fields : list (jsstring * value)) : list (jsstring * value) :=
  match fields with
  | [] => [(k, v)]
  | (k', v') :: rest =>
      match array_index k' with
      | Some j => if (j <? i)%N then (k', v') :: define_index i k v rest
                  else (k, v) :: fields
      | None => (k, v) :: fields
      end
  end.

Fixpoint replace_field (k : jsstring) (v : value)
         (fields : list (jsstring * value)) : option (list (jsstring * value)) :=
  match fields with
  | [] => None
  | (k', v') :: rest =>
      if jsstring_eqb k' k then Some ((k', v) :: rest)
      else match replace_field k v rest with
           | Some rest' => Some ((k', v') :: rest')
           | None => None
           end
  end.

(** [CreateDataProperty] on an object built by the parser. *)
Definition define_property (fields : list (jsstring * value))
           (k : jsstring) (v : value) : list (jsstring * value) :=
  match replace_field k v fields with
  | Some fields' => fields'
  | None =>
      match array_index k with
      | Some i => define_index i k v fields
      | None => fields ++ [(k, v)]
      end
  end.

(** The three mutually recursive readers.  Every call uses one unit of
    fuel; [JSON_parse] supplies enough of it. *)
Fixpoint parse_value (fuel : nat) (s : jsstring) {struct fuel}
  : presult value :=
  match fuel with
  | O => OutOfFuel
  | S fuel' =>
      match skip_ws s with
      | [] => Fail
      | c :: r =>
          if (c =? 123)%N then
            match skip_ws r with
            | [] => Fail
            | c' :: r' =>
                if (c' =? 125)%N then Parsed (VObj []) r'
                else parse_members fuel' [] (c' :: r')
            end
          else if (c =? 91)%N then
            match skip_ws r with
            | [] => Fail
            | c' :: r' =>
                if (c' =? 93)%N then Parsed (VArr []) r'
                else parse_elements fuel' [] (c' :: r')
            end
          else if (c =? 34)%N then
            match parse_string_body r with
            | Some (t, rest) => Parsed (VStr t) rest
            | None => Fail
            end
          else if (c =? 116)%N then
            match strip_prefix (str "rue") r with
            | Some rest => Parsed (VBool true) rest
            | None => Fail
            end
          else if (c =? 102)%N then
            match strip_prefix (str "alse") r with
            | Some rest => Parsed (VBool false) rest
            | None => Fail
            end
          else if (c =? 110)%N then
            match strip_prefix (str "ull") r with
            | Some rest => Parsed VNull rest
            | None => Fail
            end
          else
            match parse_number (c :: r) with
            | Some (v, rest) => Parsed v rest
            | None => Fail
            end
      end
  end

with parse_members (fuel : nat) (acc : list (jsstring * value))
       (s : jsstring) {struct fuel} : presult value :=
  match fuel with
  | O => OutOfFuel
  | S fuel' =>
      match skip_ws s with
      | [] => Fail
      | q :: r =>
          if negb (q =? 34)%N then Fail
          else
            match parse_string_body r with
            | None => Fail
            | Some (k, r1) =>
                match skip_ws r1 with
                | [] => Fail
                | colon :: r2 =>
                    if negb (colon =? 58)%N then Fail
                    else
                      match parse_value fuel' r2 with
                      | Parsed v r3 =>
                          let acc' := define_property acc k v in
                          match skip_ws r3 with
                          | [] => Fail
                          | c :: r4 =>
                              if (c =? 44)%N then parse_members fuel' acc' r4
                              else if (c =? 125)%N then Parsed (VObj acc') r4
                              else Fail
                          end
                      | Fail => Fail
                      | OutOfFuel => OutOfFuel
                      end
                end
            end
      end
  end

with parse_elements (fuel : nat) (acc : list value)
       (s : jsstring) {struct fuel} : presult value :=
  match fuel with
  | O => OutOfFuel
  | S fuel' =>
      match parse_value fuel' s with
      | Parsed v r =>
          match skip_ws r with
          | [] => Fail
          | c :: r' =>
              if (c =? 44)%N then parse_elements fuel' (acc ++ [v]) r'
              else if (c =? 93)%N then Parsed (VArr (acc ++ [v])) r'
              else Fail
          end
      | Fail => Fail
      | OutOfFuel => OutOfFuel
      end
  end.

(** [JSON.parse(text)]: one value, surrounded by optional white space, and
    nothing else.  [None] is a thrown SyntaxError. *)
Definition JSON_parse (text : jsstring) : option value :=
  match parse_value (2 * length text + 2) text with
  | Parsed v rest =>
      match skip_ws rest with
      | [] => Some v
      | _ => None
      end
  | _ => None
  end.

(** ** Equality of values *)




(** ** Exceptions, the environment and the monad of handlers *)

(** What a [catch] clause can receive: an instance of Error with its
    message, or some other thrown value. *)
Inductive exn : Type :=
| ErrorExn (message : jsstring)
| OtherExn (v : value).

Inductive outcome (A : Type) : Type :=
| Done (a : A)
| Thrown (e : exn).

Arguments Thrown {A}.

(** [e instanceof Error ? e.message : fallback] *)
Definition message_or (e : exn) (fallback : jsstring) : jsstring :=
  match e with
  | ErrorExn m => m
  | OtherExn _ => fallback
  end.

Record request : Type := {
  method : jsstring;
  url : jsstring;
  req_body : option jsstring
}.

Record response : Type := {
  status : Z;
  body : jsstring
}.

(** [res.ok]: the status is in the range 200 to 299. *)
Definition ok (r : response) : bool :=
  (200 <=? status r) && (status r <=? 299).

Inductive fetch_result : Type :=
| Responded (r : response)
| Rejected (e : exn).

Inductive storage_op : Type :=
| GetItem
| SetItem (text : jsstring)
| RemoveItem.

(** What the program does to the outside, in the order it happens. *)
Inductive event : Type :=
| Fetch (r : request)
| ConsoleError (label : jsstring) (e : exn).

(** The browser and the server behind it.  [net] answers a request given
    everything that happened before; [storage_fault] says which accesses to
    [localStorage] throw (storage disabled, quota exceeded); [uri_encode] is
    [encodeURIComponent], which throws on a string that is not well-formed
    UTF-16; [syntax_error] is what [JSON.parse] throws on a text and
    [type_error] what reading a property of undefined or null throws, with
    messages that differ between engines. *)
Record browser : Type := {
  net : list event -> request -> fetch_result;
  storage_fault : storage_op -> option exn;
  uri_encode : jsstring -> outcome jsstring;
  syntax_error : jsstring -> exn;
  type_error : jsstring -> exn
}.

(** The state outside the components: the trace, the one slot of
    [localStorage] the program uses, and the state cell of the
    [ReservationProvider], which is mounted above every page. *)
Record world : Type := {
  trace : list event;
  slot : option jsstring;
  latestReservation : value
}.

(** A handler or an effect of a component with state [S]: it may change the
    component's state and the world, and it returns or throws.  A state cell
    holds the value the next render will show; a handler reads cells through
    the record it closed over when it was created, passed as an argument.
    Each handler runs to its end before the next one starts. *)
Definition M (S A : Type) : Type := S -> world -> outcome A * S * world.

Definition ret {S A : Type} (a : A) : M S A :=
  fun s w => (Done a, s, w).

Definition bind {S A B : Type} (m : M S A) (k : A -> M S B) : M S B :=
  fun s w =>
    match m s w with
    | (Done a, s', w') => k a s' w'
    | (Thrown e, s', w') => (Thrown e, s', w')
    end.

Definition throw {S A : Type} (e : exn) : M S A :=
  fun s w => (Thrown e, s, w).

(** [try { body } catch (e) { handler e }] *)
Definition try_catch {S A : Type} (body : M S A) (handler : exn -> M S A)
  : M S A :=
  fun s w =>
    match body s w with
    | (Done a, s', w') => (Done a, s', w')
    | (Thrown e, s', w') => handler e s' w'
    end.

(** [try { body } finally { fin }] *)
Definition try_finally {S A : Type} (body : M S A) (fin : M S unit) : M S A :=
  fun s w =>
    match body s w with
    | (r, s', w') =>
        match fin s' w' with
        | (Done _, s'', w'') => (r, s'', w'')
        | (Thrown e, s'', w'') => (Thrown e, s'', w'')
        end
    end.

Declare Scope handler_scope.
Delimit Scope handler_scope with handler.

Notation "x <- m ;; k" := (bind m (fun x => k))
  (at level 61, m at next level, right associativity) : handler_scope.
Notation "m ;; k" := (bind m (fun _ => k))
  (at level 61, right associativity) : handler_scope.

Local Open Scope handler_scope.

Definition modify {S : Type} (f : S -> S) : M S unit :=
  fun s w => (Done tt, f s, w).

Definition of_outcome {S A : Type} (o : outcome A) : M S A :=
  fun s w => (o, s, w).

Definition when {S : Type} (b : bool) (m : M S unit) : M S unit :=
  if b then m else ret tt.

(** The world after one more event. *)
Definition after (w : world) (ev : event) : world :=
  {| trace := trace w ++ [ev];
     slot := slot w;
     latestReservation := latestReservation w |}.

Definition log_event {S : Type} (ev : event) : M S unit :=
  fun s w => (Done tt, s, after w ev).

Section Runtime.

Variable B : browser.

(** [await fetch(url, init)] *)
Definition fetch {S : Type} (r : request) : M S response :=
  fun s w =>
    match net B (trace w) r with
    | Responded res => (Done res, s, after w (Fetch r))
    | Rejected e => (Thrown e, s, after w (Fetch r))
    end.

(** [JSON.parse(text)], throwing a SyntaxError on text that is not JSON. *)
Definition parse_json {S : Type} (text : jsstring) : M S value :=
  match JSON_parse text with
  | Some v => ret v
  | None => throw (syntax_error B text)
  end.

(** [await res.json()] *)
Definition json {S : Type} (res : response) : M S value :=
  parse_json (body res).

(** [console.error(label, e)] *)
Definition console_error {S : Type} (label : jsstring) (e : exn) : M S unit :=
  log_event (ConsoleError label e).

(** [o.k] for the property names the program reads: [email],
    [reservations], [error], [station_id], [demand_level],
    [reservation_id], [station], [date], [time_slot], [price] and
    [status].  None of them is an array index or the name of a built-in
    property, so only an object can have one; reading from undefined or
    null throws a TypeError. *)
Definition lookup (fields : list (jsstring * value)) (k : jsstring) : value :=
  match find (fun kv => jsstring_eqb (fst kv) k) fields with
  | Some kv => snd kv
  | None => VUndefined
  end.

Definition get_field (o : value) (k : jsstring) : outcome value :=
  match o with
  | VUndefined | VNull => Thrown (type_error B k)
  | VObj fields => Done (lookup fields k)
  | _ => Done VUndefined
  end.

(** [o?.k] *)
Definition opt_field (o : value) (k : jsstring) : value :=
  match o with
  | VObj fields => lookup fields k
  | _ => VUndefined
  end.

(** [localStorage.getItem(key)], [setItem] and [removeItem] on the slot. *)
Definition localStorage_getItem {S : Type} : M S (option jsstring) :=
  fun s w =>
    match storage_fault B GetItem with
    | Some e => (Thrown e, s, w)
    | None => (Done (slot w), s, w)
    end.

Definition localStorage_setItem {S : Type} (text : jsstring) : M S unit :=
  fun s w =>
    match storage_fault B (SetItem text) with
    | Some e => (Thrown e, s, w)
    | None =>
        (Done tt, s,
         {| trace := trace w;
            slot := Some text;
            latestReservation := latestReservation w |})
    end.

Definition localStorage_removeItem {S : Type} : M S unit :=
  fun s w =>
    match storage_fault B RemoveItem with
    | Some e => (Thrown e, s, w)
    | None =>
        (Done tt, s,
         {| trace := trace w;
            slot := None;
            latestReservation := latestReservation w |})
    end.

End Runtime.

(** The request both station lists are loaded with:
    [fetch("http://localhost:5000/api/stations")]. *)
Definition stations_request : request :=
  {| method := str "GET";
     url := str "http://localhost:5000/api/stations";
     req_body := None |}.

(** The request for the reservations of a user, with the encoded email:
    [fetch(`http://localhost:5000/api/reservations?user_email=${...}`)]. *)
Definition reservations_request (email : jsstring) : request :=
  {| method := str "GET";
     url := str "http://localhost:5000/api/reservations?user_email=" ++ email;
     req_body := None |}.

(** ** The latest-reservation store (contexts/ReservationContext) *)

Module ReservationContext.

(** [[
    export interface LatestReservation {
      reservation_id: string;
      station: string;
      date: string; // YYYY-MM-DD
      time_slot: "Morning" | "Afternoon" | "Evening" | "Night";
      price: number;
      status: "Confirmed";
      predicted_demand?: "High" | "Medium" | "Low";
      station_id?: string;
    }
    ]]
    The type of [status] has one inhabitant, so the record has no field
    for it.  The price is in whole units. *)
Record LatestReservation : Type := {
  reservation_id : jsstring;
  station : jsstring;
  date : jsstring;
  time_slot : TimeSlot;
  price : Z;
  predicted_demand : option DemandLevel;
  station_id : option jsstring
}.

(** The object a [LatestReservation] is when the program runs. *)
Definition to_value (r : LatestReservation) : value :=
  VObj ([(str "reservation_id", VStr (reservation_id r));
         (str "station", VStr (station r));
         (str "date", VStr (date r));
         (str "time_slot", slot_value (time_slot r));
         (str "price", VInt (price r));
         (str "status", VStr (str "Confirmed"))]
        ++ match predicted_demand r with
           | Some d => [(str "predicted_demand", demand_value d)]
           | None => []
           end
        ++ match station_id r with
           | Some i => [(str "station_id", VStr i)]
           | None => []
           end).

(** The key of the entry of [localStorage] that [slot] stands for. *)
Definition STORAGE_KEY : jsstring := str "ridewise_latest_reservation".

Section Provider.

Variable B : browser.
Variable S : Type.

(** The setter of the [useState] cell of the provider. *)
Definition setLatestReservationState (r : value) : M S unit :=
  fun s w =>
    (Done tt, s,
     {| trace := trace w; slot := slot w; latestReservation := r |}).

(** The effect that runs once when the provider mounts.
    [[
    try {
      const raw = localStorage.getItem(STORAGE_KEY);
      if (raw) setLatestReservationState(JSON.parse(raw));
    } catch {
      // ignore corrupt storage
    }
    ]] *)
Definition hydrate : M S unit :=
  try_catch
    (raw <- localStorage_getItem B ;;
     match raw with
     | Some (c :: t) =>
         v <- parse_json B (c :: t) ;;
         setLatestReservationState v
     | _ => ret tt
     end)
    (fun _ => ret tt).

(** [[
    const setLatestReservation = (r: LatestReservation | null) => {
      setLatestReservationState(r);
      try {
        if (r) localStorage.setItem(STORAGE_KEY, JSON.stringify(r));
        else localStorage.removeItem(STORAGE_KEY);
      } catch {
        // ignore storage failures
      }
    };
    ]]
    [setItem] converts its argument to a string, so a value without a
    JSON text would be stored as the word undefined. *)
Definition setLatestReservation (r : value) : M S unit :=
  setLatestReservationState r ;;
  try_catch
    (if truthy r then
       localStorage_setItem B
         (match JSON_stringify r with
          | Some text => text
          | None => str "undefined"
          end)
     else localStorage_removeItem B)
    (fun _ => ret tt).

End Provider.

(** What [useReservation().latestReservation] is for every component that
    renders under the provider: the one state cell of the provider. *)
Definition useReservation (w : world) : value := latestReservation w.

(** The state of a process that has just started: nothing has happened,
    the provider's cell is null, and the slot holds what an earlier
    process left in it. *)
Definition startup (stored : option jsstring) : world :=
  {| trace := []; slot := stored; latestReservation := VNull |}.

End ReservationContext.

(** ** The station map (components/dashboard/LeafletMap) *)

Module LeafletMap.

Record state : Type := {
  stations : list value;
  isLoading : bool;
  error : option jsstring
}.

Definition setStations (x : list value) : M state unit :=
  modify (fun p =>
    {| stations := x; isLoading := isLoading p; error := error p |}).

Definition setIsLoading (x : bool) : M state unit :=
  modify (fun p =>
    {| stations := stations p; isLoading := x; error := error p |}).

Definition setError (x : option jsstring) : M state unit :=
  modify (fun p =>
    {| stations := stations p; isLoading := isLoading p; error := x |}).

Section Component.

Variable B : browser.

(** [[
    try {
      setIsLoading(true);
      setError(null);
      const response = await fetch("http://localhost:5000/api/stations");
      if (!response.ok) {
        throw new Error(`Failed to load stations (status ${response.status})`);
      }
      const data = await response.json();
      if (!Array.isArray(data)) {
        throw new Error("Invalid stations response format");
      }
      setStations(data);
    } catch (err) {
      console.error("[Map] Error fetching stations:", err);
      setError(err instanceof Error ? err.message : "Failed to load bike stations");
    } finally {
      setIsLoading(false);
    }
    ]] *)
Definition fetchStations : M state unit :=
  try_finally
    (try_catch
       (setIsLoading true ;;
        setError None ;;
        response <- fetch B stations_request ;;
        if negb (ok response) then
          throw (ErrorExn (str "Failed to load stations (status "
                           ++ digits_of_Z (status response) ++ str ")"))
        else
          data <- json B response ;;
          match data with
          | VArr items => setStations items
          | _ => throw (ErrorExn (str "Invalid stations response format"))
          end)
       (fun err =>
          console_error (str "[Map] Error fetching stations:") err ;;
          setError (Some (message_or err (str "Failed to load bike stations")))))
    (setIsLoading false).

(** The state the map attaches to its navigation to the reservation page.
    [[
    navigate("/reservation", {
      state: { station_id: station.station_id, demand_level: station.demand_level },
    });
    ]] *)
Definition handleReserve (station : value) : outcome value :=
  match get_field B station (str "station_id") with
  | Thrown e => Thrown e
  | Done sid =>
      match get_field B station (str "demand_level") with
      | Thrown e => Thrown e
      | Done dl =>
          Done (VObj [(str "station_id", sid); (str "demand_level", dl)])
      end
  end.

End Component.

End LeafletMap.

(** ** The reservation page (src/pages/Reservation.tsx)

    The cells of the page that the functions below read or write.  The edit
    dialog has cells of its own, which none of them touches.  [stationsRef]
    is not a cell: it stands for the identity of the array in [stations],
    which [setStations] replaces by a new one. *)

Module ReservationPage.

Record page : Type := {
  stations : list value;
  stationsRef : nat;
  stationsLoading : bool;
  stationsError : option jsstring;
  date : jsstring;
  timeSlot : jsstring;
  stationId : value;
  predictedDemand : value;
  isSubmitting : bool;
  submitError : option jsstring;
  receiptOpen : bool;
  lastResponse : value;
  userReservations : value;
  loadingReservations : bool
}.

(** The setters of the cells. *)

Definition with_stations (x : list value) (p : page) : page :=
  {| stations := x; stationsRef := S (stationsRef p);
     stationsLoading := stationsLoading p; stationsError := stationsError p;
     date := date p; timeSlot := timeSlot p; stationId := stationId p;
     predictedDemand := predictedDemand p; isSubmitting := isSubmitting p;
     submitError := submitError p; receiptOpen := receiptOpen p;
     lastResponse := lastResponse p; userReservations := userReservations p;
     loadingReservations := loadingReservations p |}.

Definition setStations (x : list value) : M page unit :=
  modify (with_stations x).

Definition with_stationsLoading (x : bool) (p : page) : page :=
  {| stations := stations p; stationsRef := stationsRef p;
     stationsLoading := x; stationsError := stationsError p; date := date p;
     timeSlot := timeSlot p; stationId := stationId p;
     predictedDemand := predictedDemand p; isSubmitting := isSubmitting p;
     submitError := submitError p; receiptOpen := receiptOpen p;
     lastResponse := lastResponse p; userReservations := userReservations p;
     loadingReservations := loadingReservations p |}.

Definition setStationsLoading (x : bool) : M page unit :=
  modify (with_stationsLoading x).

Definition with_stationsError (x : option jsstring) (p : page) : page :=
  {| stations := stations p; stationsRef := stationsRef p;
     stationsLoading := stationsLoading p; stationsError := x;
     date := date p; timeSlot := timeSlot p; stationId := stationId p;
     predictedDemand := predictedDemand p; isSubmitting := isSubmitting p;
     submitError := submitError p; receiptOpen := receiptOpen p;
     lastResponse := lastResponse p; userReservations := userReservations p;
     loadingReservations := loadingReservations p |}.

Definition setStationsError (x : option jsstring) : M page unit :=
  modify (with_stationsError x).

Definition with_date (x : jsstring) (p : page) : page :=
  {| stations := stations p; stationsRef := stationsRef p;
     stationsLoading := stationsLoading p; stationsError := stationsError p;
     date := x; timeSlot := timeSlot p; stationId := stationId p;
     predictedDemand := predictedDemand p; isSubmitting := isSubmitting p;
     submitError := submitError p; receiptOpen := receiptOpen p;
     lastResponse := lastResponse p; userReservations := userReservations p;
     loadingReservations := loadingReservations p |}.

Definition setDate (x : jsstring) : M page unit :=
  modify (with_date x).

Definition with_timeSlot (x : jsstring) (p : page) : page :=
  {| stations := stations p; stationsRef := stationsRef p;
     stationsLoading := stationsLoading p; stationsError := stationsError p;
     date := date p; timeSlot := x; stationId := stationId p;
     predictedDemand := predictedDemand p; isSubmitting := isSubmitting p;
     submitError := submitError p; receiptOpen := receiptOpen p;
     lastResponse := lastResponse p; userReservations := userReservations p;
     loadingReservations := loadingReservations p |}.

Definition setTimeSlot (x : jsstring) : M page unit :=
  modify (with_timeSlot x).

Definition with_stationId (x : value) (p : page) : page :=
  {| stations := stations p; stationsRef := stationsRef p;
     stationsLoading := stationsLoading p; stationsError := stationsError p;
     date := date p; timeSlot := timeSlot p; stationId := x;
     predictedDemand := predictedDemand p; isSubmitting := isSubmitting p;
     submitError := submitError p; receiptOpen := receiptOpen p;
     lastResponse := lastResponse p; userReservations := userReservations p;
     loadingReservations := loadingReservations p |}.

Definition setStationId (x : value) : M page unit :=
  modify (with_stationId x).



Definition with_isSubmitting (x : bool) (p : page) : page :=
  {| stations := stations p; stationsRef := stationsRef p;
     stationsLoading := stationsLoading p; stationsError := stationsError p;
     date := date p; timeSlot := timeSlot p; stationId := stationId p;
     predictedDemand := predictedDemand p; isSubmitting := x;
     submitError := submitError p; receiptOpen := receiptOpen p;
     lastResponse := lastResponse p; userReservations := userReservations p;
     loadingReservations := loadingReservations p |}.

Definition setIsSubmitting (x : bool) : M page unit :=
  modify (with_isSubmitting x).

Definition with_submitError (x : option jsstring) (p : page) : page :=
  {| stations := stations p; stationsRef := stationsRef p;
     stationsLoading := stationsLoading p; stationsError := stationsError p;
     date := date p; timeSlot := timeSlot p; stationId := stationId p;
     predictedDemand := predictedDemand p; isSubmitting := isSubmitting p;
     submitError := x; receiptOpen := receiptOpen p;
     lastResponse := lastResponse p; userReservations := userReservations p;
     loadingReservations := loadingReservations p |}.

Definition setSubmitError (x : option jsstring) : M page unit :=
  modify (with_submitError x).

Definition with_receiptOpen (x : bool) (p : page) : page :=
  {| stations := stations p; stationsRef := stationsRef p;
     stationsLoading := stationsLoading p; stationsError := stationsError p;
     date := date p; timeSlot := timeSlot p; stationId := stationId p;
     predictedDemand := predictedDemand p; isSubmitting := isSubmitting p;
     submitError := submitError p; receiptOpen := x;
     lastResponse := lastResponse p; userReservations := userReservations p;
     loadingReservations := loadingReservations p |}.

Definition setReceiptOpen (x : bool) : M page unit :=
  modify (with_receiptOpen x).

Definition with_lastResponse (x : value) (p : page) : page :=
  {| stations := stations p; stationsRef := stationsRef p;
     stationsLoading := stationsLoading p; stationsError := stationsError p;
     date := date p; timeSlot := timeSlot p; stationId := stationId p;
     predictedDemand := predictedDemand p; isSubmitting := isSubmitting p;
     submitError := submitError p; receiptOpen := receiptOpen p;
     lastResponse := x; userReservations := userReservations p;
     loadingReservations := loadingReservations p |}.

Definition setLastResponse (x : value) : M page unit :=
  modify (with_lastResponse x).

Definition with_userReservations (x : value) (p : page) : page :=
  {| stations := stations p; stationsRef := stationsRef p;
     stationsLoading := stationsLoading p; stationsError := stationsError p;
     date := date p; timeSlot := timeSlot p; stationId := stationId p;
     predictedDemand := predictedDemand p; isSubmitting := isSubmitting p;
     submitError := submitError p; receiptOpen := receiptOpen p;
     lastResponse := lastResponse p; userReservations := x;
     loadingReservations := loadingReservations p |}.

Definition setUserReservations (x : value) : M page unit :=
  modify (with_userReservations x).

Definition with_loadingReservations (x : bool) (p : page) : page :=
  {| stations := stations p; stationsRef := stationsRef p;
     stationsLoading := stationsLoading p; stationsError := stationsError p;
     date := date p; timeSlot := timeSlot p; stationId := stationId p;
     predictedDemand := predictedDemand p; isSubmitting := isSubmitting p;
     submitError := submitError p; receiptOpen := receiptOpen p;
     lastResponse := lastResponse p; userReservations := userReservations p;
     loadingReservations := x |}.

Definition setLoadingReservations (x : bool) : M page unit :=
  modify (with_loadingReservations x).

Definition initial (today : jsstring) : page :=
  {| stations := []; stationsRef := O; stationsLoading := false;
     stationsError := None; date := today; timeSlot := str "Morning";
     stationId := VStr []; predictedDemand := VStr (str "Low");
     isSubmitting := false; submitError := None; receiptOpen := false;
     lastResponse := VNull; userReservations := VArr [];
     loadingReservations := false |}.


Section Component.

Variable B : browser.

(** [user] of [useAuth()]: an object with an [email], or null. *)
Variable user : value.

(** [[
    const fetchUserReservations = async () => {
      if (!user?.email) return;
      try {
        setLoadingReservations(true);
        const res = await fetch(`http://localhost:5000/api/reservations?user_email=${encodeURIComponent(user.email)}`);
        if (!res.ok) throw new Error(`Failed to fetch reservations (status ${res.status})`);
        const data = await res.json();
        setUserReservations(data.reservations || []);
      } catch (e) {
        console.error("Failed to fetch reservations:", e);
      } finally {
        setLoadingReservations(false);
      }
    };
    ]] *)
Definition fetchUserReservations : M page unit :=
  if negb (truthy (opt_field user (str "email"))) then ret tt
  else
    try_finally
      (try_catch
         (setLoadingReservations true ;;
          email <- of_outcome
                     (uri_encode B (to_string (opt_field user (str "email")))) ;;
          res <- fetch B (reservations_request email) ;;
          if negb (ok res) then
            throw (ErrorExn (str "Failed to fetch reservations (status "
                             ++ digits_of_Z (status res) ++ str ")"))
          else
            data <- json B res ;;
            reservations <- of_outcome (get_field B data (str "reservations")) ;;
            setUserReservations
              (if truthy reservations then reservations else VArr []))
         (fun e => console_error (str "Failed to fetch reservations:") e))
      (setLoadingReservations false).

(** [[
    const loadStations = async () => {
      try {
        setStationsLoading(true);
        setStationsError(null);
        const res = await fetch("http://localhost:5000/api/stations");
        if (!res.ok) throw new Error(`Failed to load stations (status ${res.status})`);
        const data = await res.json();
        if (!Array.isArray(data)) throw new Error("Invalid stations response format");
        setStations(data);
      } catch (e) {
        setStationsError(e instanceof Error ? e.message : "Failed to load stations");
      } finally {
        setStationsLoading(false);
      }
    };
    ]] *)
Definition loadStations : M page unit :=
  try_finally
    (try_catch
       (setStationsLoading true ;;
        setStationsError None ;;
        res <- fetch B stations_request ;;
        if negb (ok res) then
          throw (ErrorExn (str "Failed to load stations (status "
                           ++ digits_of_Z (status res) ++ str ")"))
        else
          data <- json B res ;;
          match data with
          | VArr items => setStations items
          | _ => throw (ErrorExn (str "Invalid stations response format"))
          end)
       (fun e =>
          setStationsError (Some (message_or e (str "Failed to load stations")))))
    (setStationsLoading false).



(** The object [handleReserve] hands to the store. *)
Definition latest_of (confirmed predictedDemand stationId : value)
  : outcome value :=
  match confirmed with
  | VUndefined | VNull => Thrown (type_error B (str "reservation_id"))
  | _ =>
      Done (VObj [(str "reservation_id", opt_field confirmed (str "reservation_id"));
                  (str "station", opt_field confirmed (str "station"));
                  (str "date", opt_field confirmed (str "date"));
                  (str "time_slot", opt_field confirmed (str "time_slot"));
                  (str "price", opt_field confirmed (str "price"));
                  (str "status", opt_field confirmed (str "status"));
                  (str "predicted_demand", predictedDemand);
                  (str "station_id", stationId)])
  end.

(** The body of the POST request of [handleReserve]. *)
Definition reserve_body (c : page) : jsstring :=
  match JSON_stringify
          (VObj [(str "date", VStr (date c));
                 (str "time_slot", VStr (timeSlot c));
                 (str "station_id", stationId c);
                 (str "predicted_demand", predictedDemand c);
                 (str "user_email", opt_field user (str "email"))]) with
  | Some text => text
  | None => []
  end.

(** The request of [handleReserve]; its one header is left out. *)
Definition reserve_request (c : page) : request :=
  {| method := str "POST";
     url := str "http://localhost:5000/api/reserve";
     req_body := Some (reserve_body c) |}.

(** [[
    const handleReserve = async () => {
      setSubmitError(null);
      if (!date) { setSubmitError("Please select a date."); return; }
      if (!timeSlot) { setSubmitError("Please select a time slot."); return; }
      if (!stationId) { setSubmitError("Please select a pickup station."); return; }
      try {
        setIsSubmitting(true);
        const res = await fetch("http://localhost:5000/api/reserve", {
          method: "POST",
          headers: { "Content-Type": "application/json" },
          body: JSON.stringify({ date, time_slot: timeSlot, station_id: stationId,
                                 predicted_demand: predictedDemand, user_email: user?.email }),
        });
        const data = (await res.json().catch(() => ({})));
        if (!res.ok) {
          throw new Error(data.error || `Reservation failed (status ${res.status})`);
        }
        const confirmed = data as ReserveResponse;
        setLastResponse(confirmed);
        setReceiptOpen(true);
        const latest: LatestReservation = { ... };
        setLatestReservation(latest);
        await fetchUserReservations();
      } catch (e) {
        setSubmitError(e instanceof Error ? e.message : "Failed to reserve bike");
      } finally {
        setIsSubmitting(false);
      }
    };
    ]]
    [c] is the render the handler belongs to.  [ReserveResponse] is
    declared elsewhere in the project; the cast to it leaves [data] as it
    is. *)
Definition handleReserve (c : page) : M page unit :=
  setSubmitError None ;;
  if negb (truthy (VStr (date c))) then
    setSubmitError (Some (str "Please select a date."))
  else if negb (truthy (VStr (timeSlot c))) then
    setSubmitError (Some (str "Please select a time slot."))
  else if negb (truthy (stationId c)) then
    setSubmitError (Some (str "Please select a pickup station."))
  else
    try_finally
      (try_catch
         (setIsSubmitting true ;;
          res <- fetch B (reserve_request c) ;;
          data <- try_catch (json B res) (fun _ => ret (VObj [])) ;;
          if negb (ok res) then
            error <- of_outcome (get_field B data (str "error")) ;;
            throw (ErrorExn
                     (if truthy error then to_string error
                      else str "Reservation failed (status "
                           ++ digits_of_Z (status res) ++ str ")"))
          else
            setLastResponse data ;;
            setReceiptOpen true ;;
            latest <- of_outcome
                        (latest_of data (predictedDemand c) (stationId c)) ;;
            ReservationContext.setLatestReservation B latest ;;
            fetchUserReservations)
         (fun e =>
            setSubmitError (Some (message_or e (str "Failed to reserve bike")))))
      (setIsSubmitting false).

(** *** Renders and effects

    [location.state] with the identity of the object it holds: the
    router keeps one state per navigation, and an effect compares its
    dependencies with [Object.is]. *)
Record location : Type := {
  key : nat;
  state : value
}.


(** A mounted page: its cells, the dependencies of the two effects at
    the last commit (none before the first), and how often the effect
    that reads the navigation state has run. *)
Record view : Type := {
  cells : page;
  prefill_dep : option location;
  autofill_dep : option (value * nat);
  prefill_runs : nat
}.



Definition remember (loc : location) (c : page) : M view unit :=
  modify (fun v =>
    {| cells := cells v; prefill_dep := Some loc;
       autofill_dep := Some (stationId c, stationsRef c);
       prefill_runs := prefill_runs v |}).



(** The page before its first render. *)
Definition fresh (today : jsstring) : view :=
  {| cells := initial today; prefill_dep := None; autofill_dep := None;
     prefill_runs := O |}.

(** What can happen to a mounted page while the location stays the
    same: the user edits the form or presses the button, a request that
    an effect started completes, or the page renders again. *)
Inductive action : Type :=
| Render
| ChangeDate (d : jsstring)
| ChangeTimeSlot (t : jsstring)
| SelectStation (id : jsstring)
| StationsLoad
| ReservationsFetch
| Reserve.

Definition handler (a : action) (c : page) : M page unit :=
  match a with
  | Render => ret tt
  | ChangeDate d => setDate d
  | ChangeTimeSlot t => setTimeSlot t
  | SelectStation id => setStationId (VStr id)
  | StationsLoad => loadStations
  | ReservationsFetch => fetchUserReservations
  | Reserve => handleReserve c
  end.




End Component.

(** *** The typed view of a station
    [[
    interface Station {
      station_id: string; station_name: string; lat: number; lng: number;
      available_bikes: number; demand_level: DemandLevel;
    }
    ]]
    A coordinate is a decimal, mantissa and exponent. *)
Record Station : Type := {
  station_id : jsstring;
  station_name : jsstring;
  lat : Z * Z;
  lng : Z * Z;
  available_bikes : Z;
  demand_level : DemandLevel
}.

Definition station_value (s : Station) : value :=
  VObj [(str "station_id", VStr (station_id s));
        (str "station_name", VStr (station_name s));
        (str "lat", VNum (fst (lat s)) (snd (lat s)));
        (str "lng", VNum (fst (lng s)) (snd (lng s)));
        (str "available_bikes", VInt (available_bikes s));
        (str "demand_level", demand_value (demand_level s))].


End ReservationPage.


(** ** The reservation page, continued: the list of reservations and the
    edit dialog (src/pages/Reservation.tsx)

    The six cells of the edit dialog, and the page as a whole: the cells
    of the form and the list, and those of the dialog. *)

Module ReservationManage.

Import ReservationPage.

Record dialog : Type := {
  editDialogOpen : bool;
  editingReservation : value;
  editDate : value;
  editTimeSlot : value;
  editStationId : value;
  editPredictedDemand : value
}.

Record component : Type := {
  cells_of : page;
  dialog_of : dialog
}.

(** A handler of the form or the list, run in the whole page. *)
Definition on_page {A : Type} (m : M page A) : M component A :=
  fun s w =>
    match m (cells_of s) w with
    | (r, p, w') => (r, {| cells_of := p; dialog_of := dialog_of s |}, w')
    end.

Definition on_dialog (f : dialog -> dialog) : M component unit :=
  modify (fun s => {| cells_of := cells_of s; dialog_of := f (dialog_of s) |}).

(** The setters of the dialog's cells. *)

Definition with_editDialogOpen (x : bool) (d : dialog) : dialog :=
  {| editDialogOpen := x; editingReservation := editingReservation d;
     editDate := editDate d; editTimeSlot := editTimeSlot d;
     editStationId := editStationId d;
     editPredictedDemand := editPredictedDemand d |}.

Definition setEditDialogOpen (x : bool) : M component unit :=
  on_dialog (with_editDialogOpen x).

Definition with_editingReservation (x : value) (d : dialog) : dialog :=
  {| editDialogOpen := editDialogOpen d; editingReservation := x;
     editDate := editDate d; editTimeSlot := editTimeSlot d;
     editStationId := editStationId d;
     editPredictedDemand := editPredictedDemand d |}.

Definition setEditingReservation (x : value) : M component unit :=
  on_dialog (with_editingReservation x).





Definition with_editStationId (x : value) (d : dialog) : dialog :=
  {| editDialogOpen := editDialogOpen d;
     editingReservation := editingReservation d;
     editDate := editDate d; editTimeSlot := editTimeSlot d;
     editStationId := x;
     editPredictedDemand := editPredictedDemand d |}.




(** The dialog before it is first opened. *)
Definition closed (today : jsstring) : dialog :=
  {| editDialogOpen := false; editingReservation := VNull;
     editDate := VStr today; editTimeSlot := VStr (str "Morning");
     editStationId := VStr []; editPredictedDemand := VStr (str "Low") |}.

(** The request that cancels a reservation, with the id as the template
    literal prints it and the encoded email. *)
Definition cancel_request (id email : jsstring) : request :=
  {| method := str "DELETE";
     url := str "http://localhost:5000/api/reservations/" ++ id
            ++ str "?user_email=" ++ email;
     req_body := None |}.

Section Component.

Variable B : browser.

(** [user] of [useAuth()]: an object with an [email], or null. *)
Variable user : value.

(** The effect with dependency [user].
    [[
    useEffect(() => {
      if (user) {
        fetchUserReservations();
      }
    }, [user]);
    ]] *)
Definition reservations_effect : M page unit :=
  when (truthy user) (fetchUserReservations B user).

(** [[
    const handleCancelReservation = async (reservationId: string) => {
      if (!user?.email) return;
      try {
        const res = await fetch(`http://localhost:5000/api/reservations/${reservationId}?user_email=${encodeURIComponent(user.email)}`, {
          method: "DELETE",
        });
        if (!res.ok) throw new Error(`Failed to cancel reservation (status ${res.status})`);
        await fetchUserReservations(); // Refresh list
      } catch (e) {
        console.error("Failed to cancel reservation:", e);
      }
    };
    ]] *)
Definition handleCancelReservation (reservationId : value) : M page unit :=
  if negb (truthy (opt_field user (str "email"))) then ret tt
  else
    try_catch
      (email <- of_outcome
                  (uri_encode B (to_string (opt_field user (str "email")))) ;;
       res <- fetch B (cancel_request (to_string reservationId) email) ;;
       if negb (ok res) then
         throw (ErrorExn (str "Failed to cancel reservation (status "
                          ++ digits_of_Z (status res) ++ str ")"))
       else fetchUserReservations B user)
      (fun e => console_error (str "Failed to cancel reservation:") e).


(** The body of the PUT request of [handleEditReservation].  Where it is
    built [user?.email] is truthy, so [user.email] is what [user?.email]
    is. *)
Definition update_body (d : dialog) : jsstring :=
  match JSON_stringify
          (VObj [(str "user_email", opt_field user (str "email"));
                 (str "date", editDate d);
                 (str "time_slot", editTimeSlot d);
                 (str "station_id", editStationId d)]) with
  | Some text => text
  | None => []
  end.

(** The request of [handleEditReservation] for the reservation with id
    [id]; its one header is left out. *)
Definition update_request (id : jsstring) (d : dialog) : request :=
  {| method := str "PUT";
     url := str "http://localhost:5000/api/reservations/" ++ id;
     req_body := Some (update_body d) |}.

(** [[
    const handleEditReservation = async () => {
      if (!user?.email || !editingReservation) return;
      if (!editDate) { setSubmitError("Please select a date."); return; }
      if (!editTimeSlot) { setSubmitError("Please select a time slot."); return; }
      if (!editStationId) { setSubmitError("Please select a pickup station."); return; }
      try {
        setIsSubmitting(true);
        setSubmitError(null);
        const res = await fetch(`http://localhost:5000/api/reservations/${editingReservation.reservation_id}`, {
          method: "PUT",
          headers: { "Content-Type": "application/json" },
          body: JSON.stringify({ user_email: user.email, date: editDate,
                                 time_slot: editTimeSlot, station_id: editStationId }),
        });
        if (!res.ok) {
          const data = await res.json().catch(() => ({}));
          throw new Error(data.error || `Failed to update reservation (status ${res.status})`);
        }
        setEditDialogOpen(false);
        setEditingReservation(null);
        await fetchUserReservations(); // Refresh list
      } catch (e) {
        setSubmitError(e instanceof Error ? e.message : "Failed to update reservation");
      } finally {
        setIsSubmitting(false);
      }
    };
    ]]
    [d] holds the cells of the dialog as the render the handler belongs to
    saw them. *)
Definition handleEditReservation (d : dialog) : M component unit :=
  if negb (truthy (opt_field user (str "email")))
     || negb (truthy (editingReservation d)) then ret tt
  else if negb (truthy (editDate d)) then
    on_page (setSubmitError (Some (str "Please select a date.")))
  else if negb (truthy (editTimeSlot d)) then
    on_page (setSubmitError (Some (str "Please select a time slot.")))
  else if negb (truthy (editStationId d)) then
    on_page (setSubmitError (Some (str "Please select a pickup station.")))
  else
    try_finally
      (try_catch
         (on_page (setIsSubmitting true) ;;
          on_page (setSubmitError None) ;;
          id <- of_outcome
                  (get_field B (editingReservation d) (str "reservation_id")) ;;
          res <- fetch B (update_request (to_string id) d) ;;
          (if negb (ok res) then
             data <- try_catch (json B res) (fun _ => ret (VObj [])) ;;
             error <- of_outcome (get_field B data (str "error")) ;;
             throw (ErrorExn
                      (if truthy error then to_string error
                       else str "Failed to update reservation (status "
                            ++ digits_of_Z (status res) ++ str ")"))
           else ret tt) ;;
          setEditDialogOpen false ;;
          setEditingReservation VNull ;;
          on_page (fetchUserReservations B user))
         (fun e =>
            on_page (setSubmitError
                       (Some (message_or e (str "Failed to update reservation"))))))
      (on_page (setIsSubmitting false)).

(** The Cancel button of the dialog.
    [[
    onClick={() => {
      setEditDialogOpen(false);
      setEditingReservation(null);
      setSubmitError(null);
    }}
    ]] *)
Definition dismiss : M component unit :=
  setEditDialogOpen false ;;
  setEditingReservation VNull ;;
  on_page (setSubmitError None).



(** [[
    const price = useMemo(() => calculatePrice(predictedDemand, timeSlot),
                          [predictedDemand, timeSlot]);
    ]] *)
Definition price (c : page) : Z :=
  calculatePrice (predictedDemand c) (VStr (timeSlot c)).

End Component.

(** *** The typed view of a reservation of the list
    [[
    interface Reservation {
      reservation_id: string; station_id: string; station: string;
      date: string; time_slot: TimeSlot; predicted_demand: DemandLevel;
      price: number; status: string;
    }
    ]]
    The price is in whole units. *)
Record Reservation : Type := {
  reservation_id : jsstring;
  station_id : jsstring;
  station : jsstring;
  date : jsstring;
  time_slot : TimeSlot;
  predicted_demand : DemandLevel;
  price_paid : Z;
  status_text : jsstring
}.

Definition reservation_value (r : Reservation) : value :=
  VObj [(str "reservation_id", VStr (reservation_id r));
        (str "station_id", VStr (station_id r));
        (str "station", VStr (station r));
        (str "date", VStr (date r));
        (str "time_slot", slot_value (time_slot r));
        (str "predicted_demand", demand_value (predicted_demand r));
        (str "price", VInt (price_paid r));
        (str "status", VStr (status_text r))].

End ReservationManage.


(** ** Regular expressions and [String.prototype.trim]

    The one regular expression of the program is built from classes of
    code units, sequence and [+].  The matcher is the backtracking matcher
    of ECMA-262 in continuation-passing style: [k] is what has to match
    the rest of the input.  [+] is greedy; each further round of a [+]
    costs one unit of fuel, and every round consumes input, so the length
    of the input bounds the rounds. *)

Module RegExp.

Inductive pattern : Type :=
| Unit (p : code_unit -> bool)
| Then (a b : pattern)
| Plus (a : pattern).

Fixpoint step_match
         (again : pattern -> jsstring -> (jsstring -> bool) -> bool)
         (r : pattern) (s : jsstring) (k : jsstring -> bool) : bool :=
  match r with
  | Unit p =>
      match s with
      | c :: t => p c && k t
      | [] => false
      end
  | Then a b => step_match again a s (fun t => step_match again b t k)
  | Plus a => step_match again a s (fun t => again (Plus a) t k || k t)
  end.

Fixpoint attempt (fuel : nat) (r : pattern) (s : jsstring) (k : jsstring -> bool)
  : bool :=
  match fuel with
  | O => false
  | S fuel' => step_match (attempt fuel') r s k
  end.

(** A match that starts at the first code unit of [s]. *)
Definition match_at (r : pattern) (s : jsstring) : bool :=
  attempt (S (length s)) r s (fun _ => true).

(** [r.test(s)] for a pattern without flags: a match that starts at some
    index of [s]. *)
Fixpoint test (r : pattern) (s : jsstring) : bool :=
  match_at r s
  || match s with
     | [] => false
     | _ :: t => test r t
     end.

(** [\s]: WhiteSpace and LineTerminator of ECMA-262. *)
Definition is_space (c : code_unit) : bool :=
  ((c =? 9) || (c =? 10) || (c =? 11) || (c =? 12) || (c =? 13)
   || (c =? 32) || (c =? 160) || (c =? 5760)
   || ((8192 <=? c) && (c <=? 8202))
   || (c =? 8232) || (c =? 8233) || (c =? 8239) || (c =? 8287)
   || (c =? 12288) || (c =? 65279))%N.

(** [\S] *)
Definition not_space (c : code_unit) : bool := negb (is_space c).

(** A literal code unit. *)
Definition lit (c : code_unit) : pattern := Unit (N.eqb c).

End RegExp.

(** [s.trim()]: without the white space and line terminators at both
    ends. *)
Fixpoint trimStart (s : jsstring) : jsstring :=
  match s with
  | [] => []
  | c :: t => if RegExp.is_space c then trimStart t else s
  end.

Definition trimEnd (s : jsstring) : jsstring := rev (trimStart (rev s)).

Definition trim (s : jsstring) : jsstring := trimEnd (trimStart s).

(** ** The contact form (src/pages/Contact.tsx) *)

Module ContactPage.

Definition SUBJECT_OPTIONS : list jsstring :=
  [str "General Query"; str "Reservation Issue"; str "Payment Issue";
   str "Technical Issue"; str "Feedback"].

(** [/\S+@\S+\.\S+/] *)
Definition email_pattern : RegExp.pattern :=
  RegExp.Then (RegExp.Plus (RegExp.Unit RegExp.not_space))
    (RegExp.Then (RegExp.lit 64)
       (RegExp.Then (RegExp.Plus (RegExp.Unit RegExp.not_space))
          (RegExp.Then (RegExp.lit 46)
             (RegExp.Plus (RegExp.Unit RegExp.not_space))))).

(** [[
    function isValidEmail(email: string) {
      return /\S+@\S+\.\S+/.test(email);
    }
    ]]
    [test] converts its argument to a string. *)
Definition isValidEmail (email : value) : bool :=
  RegExp.test email_pattern (to_string email).

(** What the page hands to [toast]. *)
Record Toast : Type := {
  title : jsstring;
  description : value
}.

(** The cells of the form, and the toasts the page has asked for, oldest
    first.  [name] and [email] are also written from the user of
    [useAuth()], [subject] and [message] only from their inputs. *)
Record form : Type := {
  name : value;
  email : value;
  subject : jsstring;
  message : jsstring;
  loading : bool;
  toasts : list Toast
}.

Definition setName (x : value) : M form unit :=
  modify (fun p =>
    {| name := x; email := email p; subject := subject p;
       message := message p; loading := loading p; toasts := toasts p |}).

Definition setEmail (x : value) : M form unit :=
  modify (fun p =>
    {| name := name p; email := x; subject := subject p;
       message := message p; loading := loading p; toasts := toasts p |}).

Definition setSubject (x : jsstring) : M form unit :=
  modify (fun p =>
    {| name := name p; email := email p; subject := x;
       message := message p; loading := loading p; toasts := toasts p |}).

Definition setMessage (x : jsstring) : M form unit :=
  modify (fun p =>
    {| name := name p; email := email p; subject := subject p;
       message := x; loading := loading p; toasts := toasts p |}).

Definition setLoading (x : bool) : M form unit :=
  modify (fun p =>
    {| name := name p; email := email p; subject := subject p;
       message := message p; loading := x; toasts := toasts p |}).

(** [toast({ title, description })] *)
Definition toast (t : jsstring) (d : value) : M form unit :=
  modify (fun p =>
    {| name := name p; email := email p; subject := subject p;
       message := message p; loading := loading p;
       toasts := toasts p ++ [{| title := t; description := d |}] |}).

Definition blank : form :=
  {| name := VStr []; email := VStr [];
     subject := nth 0 SUBJECT_OPTIONS []; message := [];
     loading := false; toasts := [] |}.

(** The request of [handleSubmit]; its one header is left out. *)
Definition contact_request (c : form) : request :=
  {| method := str "POST";
     url := str "http://127.0.0.1:5000/api/contact";
     req_body :=
       Some (match JSON_stringify
                     (VObj [(str "name", name c);
                            (str "email", email c);
                            (str "subject", VStr (subject c));
                            (str "message", VStr (message c))]) with
             | Some text => text
             | None => []
             end) |}.

(** The description of the toast after a request that did not succeed. *)
Definition failure_text : jsstring :=
  str "Failed to send your query. Please try again later.".

(** The description of the toast after a request that succeeded; its
    apostrophe is the code unit U+2019. *)
Definition success_text : jsstring :=
  str "Your query has been sent successfully. We" ++ [8217%N]
  ++ str "ll get back to you soon.".

Section Component.

Variable B : browser.

(** [user] of [useAuth()]: an object with an [email] and a [name], or
    null. *)
Variable user : value.

(** The effect with dependency [user].
    [[
    if (user?.email) { setEmail(user.email); }
    if (user?.name) { setName(user.name); }
    ]] *)
Definition autofill_user : M form unit :=
  when (truthy (opt_field user (str "email")))
       (setEmail (opt_field user (str "email"))) ;;
  when (truthy (opt_field user (str "name")))
       (setName (opt_field user (str "name"))).

(** [v.trim()]: only a string has the method. *)
Definition trim_of (v : value) : outcome jsstring :=
  match v with
  | VStr s => Done (trim s)
  | _ => Thrown (type_error B (str "trim"))
  end.

(** [[
    const validate = () => {
      if (!name.trim()) return "Please enter your name.";
      if (!email.trim()) return "Please enter your email.";
      if (!isValidEmail(email)) return "Please enter a valid email address.";
      if (!subject) return "Please select a subject.";
      if (!message.trim() || message.trim().length < 10) return "Message must be at least 10 characters.";
      return null;
    };
    ]]
    [c] is the render the function belongs to; [None] is null. *)
Definition validate (c : form) : outcome (option jsstring) :=
  match trim_of (name c) with
  | Thrown e => Thrown e
  | Done n =>
      if negb (truthy (VStr n)) then
        Done (Some (str "Please enter your name."))
      else
        match trim_of (email c) with
        | Thrown e => Thrown e
        | Done m =>
            if negb (truthy (VStr m)) then
              Done (Some (str "Please enter your email."))
            else if negb (isValidEmail (email c)) then
              Done (Some (str "Please enter a valid email address."))
            else if negb (truthy (VStr (subject c))) then
              Done (Some (str "Please select a subject."))
            else if negb (truthy (VStr (trim (message c))))
                    || (length (trim (message c)) <? 10)%nat then
              Done (Some (str "Message must be at least 10 characters."))
            else Done None
        end
  end.

(** [[
    const handleSubmit = async (e: React.FormEvent) => {
      e.preventDefault();
      const err = validate();
      if (err) {
        toast({ title: "Validation Error", description: err });
        return;
      }
      setLoading(true);
      try {
        const res = await fetch("http://127.0.0.1:5000/api/contact", {
          method: "POST",
          headers: { "Content-Type": "application/json" },
          body: JSON.stringify({ name, email, subject, message }),
        });
        if (res.ok) {
          setName(""); setEmail(""); setSubject(SUBJECT_OPTIONS[0]); setMessage("");
          toast({ title: "Success", description: "Your query has been sent successfully. ..." });
        } else {
          const body = await res.json().catch(() => ({}));
          const msg = body && body.error ? body.error : "Failed to send your query. Please try again later.";
          toast({ title: "Error", description: msg });
        }
      } catch (e) {
        toast({ title: "Error", description: "Failed to send your query. Please try again later." });
      } finally {
        setLoading(false);
      }
    };
    ]]
    [c] is the render the handler belongs to.  [preventDefault] only stops
    the browser from submitting the form itself. *)
Definition handleSubmit (c : form) : M form unit :=
  err <- of_outcome (validate c) ;;
  match err with
  | Some (u :: text) =>
      (* [if (err)]: a message that is not the empty string *)
      toast (str "Validation Error") (VStr (u :: text))
  | _ =>
      setLoading true ;;
      try_finally
        (try_catch
           (res <- fetch B (contact_request c) ;;
            if ok res then
              setName (VStr []) ;;
              setEmail (VStr []) ;;
              setSubject (nth 0 SUBJECT_OPTIONS []) ;;
              setMessage [] ;;
              toast (str "Success") (VStr success_text)
            else
              body <- try_catch (json B res) (fun _ => ret (VObj [])) ;;
              let error :=
                if truthy body then opt_field body (str "error") else body in
              toast (str "Error")
                   (if truthy error then opt_field body (str "error")
                    else VStr failure_text))
           (fun _ => toast (str "Error") (VStr failure_text)))
        (setLoading false)
  end.

End Component.

End ContactPage.

(** ** The markers of the map (components/dashboard/LeafletMap)

    [createDemandIcon(color)] builds a Leaflet icon whose options are
    constants but for the colour in its markup; an icon is modelled by
    that colour. *)

Module MapMarkers.

Record Icon : Type := {
  color : jsstring
}.

Definition createDemandIcon (color : jsstring) : Icon := {| color := color |}.

Definition highDemandIcon : Icon := createDemandIcon (str "#dc2626").
Definition mediumDemandIcon : Icon := createDemandIcon (str "#eab308").
Definition lowDemandIcon : Icon := createDemandIcon (str "#16a34a").

(** [[
    function getIconForDemand(demand: BikeStation["demand_level"]): Icon {
      switch (demand) {
        case "High": return highDemandIcon;
        case "Medium": return mediumDemandIcon;
        case "Low":
        default: return lowDemandIcon;
      }
    }
    ]] *)
Definition getIconForDemand (demand : value) : Icon :=
  if is_str demand (str "High") then highDemandIcon
  else if is_str demand (str "Medium") then mediumDemandIcon
  else lowDemandIcon.

End MapMarkers.

(** ** Vocabulary of the statements *)

(** The three selections [handleReserve] requires. *)
Inductive selection : Type :=
| TheDate
| TheTimeSlot
| TheStation.

Definition unset (f : selection) (c : ReservationPage.page) : Prop :=
  match f with
  | TheDate => ReservationPage.date c = []
  | TheTimeSlot => ReservationPage.timeSlot c = []
  | TheStation => truthy (ReservationPage.stationId c) = false
  end.

(** The message shown for a missing selection; each names its field. *)
Definition validation_message (f : selection) : jsstring :=
  match f with
  | TheDate => str "Please select a date."
  | TheTimeSlot => str "Please select a time slot."
  | TheStation => str "Please select a pickup station."
  end.

(** What [await res.json().catch(() => ({}))] gives: the parsed body, or the
    empty object when the body is not JSON. *)
Definition answer_of (res : response) : value :=
  match JSON_parse (body res) with
  | Some v => v
  | None => VObj []
  end.

(** The message of a station load that the server refused. *)
Definition refusal (res : response) : jsstring :=
  str "Failed to load stations (status " ++ digits_of_Z (status res) ++ str ")".

(** A payload that is a sequence of station records. *)
Definition station_records (data : value) : Prop :=
  exists catalog : list ReservationPage.Station,
    data = VArr (map ReservationPage.station_value catalog).

(** ** Environments for the examples *)

(** A browser whose storage works and whose server answers by [answer]. *)
Definition browser_of (answer : request -> fetch_result) : browser :=
  {| net := fun _ r => answer r;
     storage_fault := fun _ => None;
     uri_encode := fun s => Done s;
     syntax_error := fun _ => ErrorExn (str "Unexpected token in JSON");
     type_error := fun _ => ErrorExn (str "Cannot read properties of null") |}.

(** The server answers every request with the same status and body. *)
Definition replying (code : Z) (text : jsstring) : browser :=
  browser_of (fun _ => Responded {| status := code; body := text |}).

(** No request gets through. *)
Definition offline : browser :=
  browser_of (fun _ => Rejected (ErrorExn (str "Failed to fetch"))).

(** The JSON text of a value, for the bodies of the examples. *)
Definition text_of (v : value) : jsstring :=
  match JSON_stringify v with
  | Some text => text
  | None => []
  end.

(** A page whose form is filled in for station [id]. *)
Definition filled (id : jsstring) : ReservationPage.page :=
  ReservationPage.with_stationId (VStr id)
    (ReservationPage.initial (str "2025-01-01")).

(** An answer of the server to a reservation, with a status of its choice. *)
Definition reservation_answer (state : jsstring) : value :=
  VObj [(str "reservation_id", VStr (str "R-1"));
        (str "station", VStr (str "Central"));
        (str "date", VStr (str "2025-01-01"));
        (str "time_slot", VStr (str "Morning"));
        (str "price", VInt 200);
        (str "status", VStr state)].



(** A snapshot for the examples. *)
Definition sample_snapshot : ReservationContext.LatestReservation :=
  {| ReservationContext.reservation_id := str "R-1";
     ReservationContext.station := str "Central";
     ReservationContext.date := str "2025-01-01";
     ReservationContext.time_slot := Night;
     ReservationContext.price := 500;
     ReservationContext.predicted_demand := Some High;
     ReservationContext.station_id := Some (str "S1") |}.

(** [preserves f m]: running [m] does not change the observation [f] of the
    component and the world, however [m] ends. *)
Definition preserves {S A X : Type} (f : S -> world -> X) (m : M S A) : Prop :=
  forall (s : S) (w : world),
    match m s w with
    | (_, s', w') => f s' w' = f s w
    end.

(** ** Vocabulary of the lemmas on JSON text *)

Local Open Scope N_scope.

Definition digits_step (acc c : N) : N := 10 * acc + (c - 48).

(** [canonical ds n]: [ds] is the decimal numeral of [n], without a leading
    zero. *)
Definition canonical (ds : jsstring) (n : N) : Prop :=
  digits_value ds = n
  /\ forallb is_digit ds = true
  /\ (exists d rest, ds = d :: rest /\ is_digit d = true
                     /\ (n <> 0 -> d <> 48) /\ (n = 0 -> rest = []))
  /\ (n <> 0 -> 10 ^ (N.of_nat (length ds) - 1) <= n).

(** What may follow a number without being read as part of it. *)
Definition ends_number (rest : jsstring) : bool :=
  match rest with
  | [] => true
  | c :: _ => negb (is_digit c || (c =? 46) || (c =? 101) || (c =? 69))
  end.

(** The result of the string reader with one more code unit in front. *)
Definition cons_unit (c : code_unit) (r : option (jsstring * jsstring))
  : option (jsstring * jsstring) :=
  match r with
  | Some (t, rest) => Some (c :: t, rest)
  | None => None
  end.

Local Close Scope N_scope.

(** ** A visit to the reservation page, for the examples

    The map showed station S1 with a high demand and handed that over; the
    server now has S1 at a low demand and S2 at a medium one. *)


Definition live_catalog : list ReservationPage.Station :=
  [ {| ReservationPage.station_id := str "S1";
       ReservationPage.station_name := str "Central";
       ReservationPage.lat := (185204, -4);
       ReservationPage.lng := (738567, -4);
       ReservationPage.available_bikes := 3;
       ReservationPage.demand_level := Low |};
    {| ReservationPage.station_id := str "S2";
       ReservationPage.station_name := str "Harbour";
       ReservationPage.lat := (1907, -2);
       ReservationPage.lng := (7287, -2);
       ReservationPage.available_bikes := 0;
       ReservationPage.demand_level := Medium |} ].




(** ** Vocabulary of the statements on the handlers *)

(** [returns m]: [m] ends without an exception, whatever it starts from. *)
Definition returns {S : Type} (m : M S unit) : Prop :=
  forall (s : S) (w : world),
    exists (s' : S) (w' : world), m s w = (Done tt, s', w').

(** [keeps P m]: when [P] holds of the cells before [m], it holds after,
    however [m] ends. *)
Definition keeps {S A : Type} (P : S -> Prop) (m : M S A) : Prop :=
  forall (s : S) (w : world),
    P s ->
    match m s w with
    | (_, s', _) => P s'
    end.

(** No request of the page is under way: the three flags that disable its
    controls are off. *)
Definition idle (p : ReservationPage.page) : Prop :=
  ReservationPage.stationsLoading p = false
  /\ ReservationPage.isSubmitting p = false
  /\ ReservationPage.loadingReservations p = false.


Definition full_storage : browser :=
  {| net := fun _ _ => Rejected (ErrorExn (str "Failed to fetch"));
     storage_fault :=
       fun op =>
         match op with
         | GetItem => None
         | _ => Some (ErrorExn (str "QuotaExceededError"))
         end;
     uri_encode := fun s => Done s;
     syntax_error := fun _ => ErrorExn (str "Unexpected token in JSON");
     type_error := fun _ => ErrorExn (str "Cannot read properties of null") |}.

(** A user with an email, for the examples. *)
Definition a_user : value := VObj [(str "email", VStr (str "a@b.c"))].

(** The server answers the requests in [answers] as listed there and
    every other request with the status 404. *)
Definition server (answers : list (request -> option response)) : browser :=
  browser_of (fun r =>
    match flat_map (fun f => match f r with
                             | Some res => [res]
                             | None => []
                             end) answers with
    | res :: _ => Responded res
    | [] => Responded {| status := 404; body := [] |}
    end).

(** An answer to the requests with a given method. *)
Definition on_method (m : jsstring) (code : Z) (text : jsstring)
  : request -> option response :=
  fun r =>
    if jsstring_eqb (method r) m
    then Some {| status := code; body := text |}
    else None.

(** ** Vocabulary of the statements on the regular expression *)

(** [matches r s]: the whole of [s] is a match of [r]. *)
Inductive matches : RegExp.pattern -> jsstring -> Prop :=
| matches_unit (p : code_unit -> bool) (c : code_unit) :
    p c = true -> matches (RegExp.Unit p) [c]
| matches_then (a b : RegExp.pattern) (s t : jsstring) :
    matches a s -> matches b t -> matches (RegExp.Then a b) (s ++ t)
| matches_once (a : RegExp.pattern) (s : jsstring) :
    matches a s -> matches (RegExp.Plus a) s
| matches_more (a : RegExp.pattern) (s t : jsstring) :
    matches a s -> matches (RegExp.Plus a) t ->
    matches (RegExp.Plus a) (s ++ t).

(** A string without white space. *)
Definition dense (s : jsstring) : bool := forallb RegExp.not_space s.

(** ** Vocabulary of the statements on the edit dialog *)

(** A selection the dialog lacks. *)
Definition missing (f : selection) (d : ReservationManage.dialog) : Prop :=
  match f with
  | TheDate => truthy (ReservationManage.editDate d) = false
  | TheTimeSlot => truthy (ReservationManage.editTimeSlot d) = false
  | TheStation => truthy (ReservationManage.editStationId d) = false
  end.

(** The page with the cell of the error replaced. *)
Definition with_error (x : option jsstring) (s : ReservationManage.component)
  : ReservationManage.component :=
  {| ReservationManage.cells_of :=
       ReservationPage.with_submitError x (ReservationManage.cells_of s);
     ReservationManage.dialog_of := ReservationManage.dialog_of s |}.

(** A reservation of the list and the page that shows it, for the
    examples. *)
Definition a_reservation : ReservationManage.Reservation :=
  {| ReservationManage.reservation_id := str "R-1";
     ReservationManage.station_id := str "S1";
     ReservationManage.station := str "Central";
     ReservationManage.date := str "2025-01-01";
     ReservationManage.time_slot := Morning;
     ReservationManage.predicted_demand := High;
     ReservationManage.price_paid := 400;
     ReservationManage.status_text := str "Confirmed" |}.

Definition listing : ReservationManage.component :=
  {| ReservationManage.cells_of :=
       ReservationPage.with_stations
         (map ReservationPage.station_value live_catalog)
         (ReservationPage.initial (str "2025-01-01"));
     ReservationManage.dialog_of :=
       ReservationManage.closed (str "2025-01-01") |}.

(** The dialog open on that reservation. *)
Definition editing : ReservationManage.dialog :=
  {| ReservationManage.editDialogOpen := true;
     ReservationManage.editingReservation :=
       ReservationManage.reservation_value a_reservation;
     ReservationManage.editDate := VStr (str "2025-02-02");
     ReservationManage.editTimeSlot := VStr (str "Night");
     ReservationManage.editStationId := VStr (str "S2");
     ReservationManage.editPredictedDemand := VStr (str "Medium") |}.

(** ** Vocabulary of the statements on the contact form *)

(** [has_address s]: somewhere in [s] there is a code unit that is not
    white space, an at sign, one or more code units without white space,
    a full stop, and a code unit that is not white space. *)
Definition has_address (s : jsstring) : Prop :=
  exists (pre : jsstring) (x : code_unit) (mid : jsstring) (z : code_unit)
         (post : jsstring),
    s = pre ++ x :: 64%N :: mid ++ 46%N :: z :: post
    /\ RegExp.is_space x = false
    /\ mid <> []
    /\ dense mid = true
    /\ RegExp.is_space z = false.

(** A form the page sends: a name that is not blank, an email with an
    address in it, a subject, and a message of ten or more code units
    between its first and its last that are not white space. *)
Definition acceptable (c : ContactPage.form) : Prop :=
  (exists n : jsstring,
      ContactPage.name c = VStr n /\ forallb RegExp.is_space n = false)
  /\ (exists e : jsstring, ContactPage.email c = VStr e /\ has_address e)
  /\ ContactPage.subject c <> []
  /\ (10 <= length (trim (ContactPage.message c)))%nat.

(** The form with one more toast. *)
Definition with_toast (t : jsstring) (d : value) (p : ContactPage.form)
  : ContactPage.form :=
  {| ContactPage.name := ContactPage.name p;
     ContactPage.email := ContactPage.email p;
     ContactPage.subject := ContactPage.subject p;
     ContactPage.message := ContactPage.message p;
     ContactPage.loading := ContactPage.loading p;
     ContactPage.toasts :=
       ContactPage.toasts p
       ++ [{| ContactPage.title := t; ContactPage.description := d |}] |}.

(** A form filled in, for the examples. *)
Definition a_query : ContactPage.form :=
  {| ContactPage.name := VStr (str "Asha");
     ContactPage.email := VStr (str "asha@example.org");
     ContactPage.subject := str "Payment Issue";
     ContactPage.message := str "  I was charged twice.  ";
     ContactPage.loading := false;
     ContactPage.toasts := [] |}.

(** ** Vocabulary of the statements on the map *)

(** The marker of a demand level. *)
Definition icon_of (d : DemandLevel) : MapMarkers.Icon :=
  match d with
  | High => MapMarkers.highDemandIcon
  | Medium => MapMarkers.mediumDemandIcon
  | Low => MapMarkers.lowDemandIcon
  end.

(** The level a value is taken for: its own when it names one, and Low
    otherwise. *)
Definition tier (demand : value) : DemandLevel :=
  if is_str demand (str "High") then High
  else if is_str demand (str "Medium") then Medium
  else Low.



(** * Properties *)

Unset Implicit Arguments.

(** ** What a handler leaves alone *)

Section Frames.

Context {S X : Type} (f : S -> world -> X).

Lemma preserves_ret {A : Type} (a : A) : preserves f (ret a).
Proof. intros s w. reflexivity. Qed.

Lemma preserves_throw {A : Type} (e : exn) : preserves f (@throw S A e).
Proof. intros s w. reflexivity. Qed.

Lemma preserves_of_outcome {A : Type} (o : outcome A) :
  preserves f (of_outcome o).
Proof. intros s w. reflexivity. Qed.

Lemma preserves_bind {A C : Type} (m : M S A) (k : A -> M S C) :
  preserves f m -> (forall a, preserves f (k a)) -> preserves f (bind m k).
Proof.
  intros Hm Hk s w. unfold bind. specialize (Hm s w).
  destruct (m s w) as [[[a|e] s1] w1]; [|exact Hm].
  specialize (Hk a s1 w1). destruct (k a s1 w1) as [[r s2] w2]. congruence.
Qed.

Lemma preserves_try_catch {A : Type} (m : M S A) (h : exn -> M S A) :
  preserves f m -> (forall e, preserves f (h e)) ->
  preserves f (try_catch m h).
Proof.
  intros Hm Hh s w. unfold try_catch. specialize (Hm s w).
  destruct (m s w) as [[[a|e] s1] w1]; [exact Hm|].
  specialize (Hh e s1 w1). destruct (h e s1 w1) as [[r s2] w2]. congruence.
Qed.

Lemma preserves_try_finally {A : Type} (m : M S A) (fin : M S unit) :
  preserves f m -> preserves f fin -> preserves f (try_finally m fin).
Proof.
  intros Hm Hfin s w. unfold try_finally. specialize (Hm s w).
  destruct (m s w) as [[r s1] w1].
  specialize (Hfin s1 w1). destruct (fin s1 w1) as [[[u|e] s2] w2]; congruence.
Qed.

Lemma preserves_when (b : bool) (m : M S unit) :
  preserves f m -> preserves f (when b m).
Proof. destruct b; [trivial|]. intros _. apply preserves_ret. Qed.

Lemma preserves_modify (g : S -> S) :
  (forall s w, f (g s) w = f s w) -> preserves f (modify g).
Proof. intros Hg s w. apply Hg. Qed.

(** An observation that does not look at the trace. *)
Hypothesis f_after : forall s w ev, f s (after w ev) = f s w.

Lemma preserves_log_event (ev : event) : preserves f (log_event ev).
Proof. intros s w. apply f_after. Qed.

Lemma preserves_fetch (B : browser) (r : request) : preserves f (fetch B r).
Proof.
  intros s w. unfold fetch. destruct (net B (trace w) r); apply f_after.
Qed.

Lemma preserves_json (B : browser) (res : response) :
  preserves f (json B res).
Proof.
  unfold json, parse_json.
  destruct (JSON_parse _); [apply preserves_ret | apply preserves_throw].
Qed.

End Frames.

(** Splits a handler into its parts, down to the setters and the calls of
    other handlers. *)
Ltac frame_step :=
  first
    [ apply preserves_ret
    | apply preserves_throw
    | apply preserves_of_outcome
    | apply preserves_json
    | apply preserves_fetch; [now intros]
    | apply preserves_log_event; [now intros]
    | apply preserves_bind; [|intros]
    | apply preserves_try_catch; [|intros]
    | apply preserves_try_finally
    | apply preserves_when
    | match goal with
      | |- preserves _ (if ?b then _ else _) => destruct b
      | |- preserves _ (match ?x with _ => _ end) => destruct x
      end ].

Ltac frame := repeat frame_step.

(** ** Strings and pricing *)

Lemma jsstring_eqb_eq (a b : jsstring) : jsstring_eqb a b = true <-> a = b.
Proof.
  revert b; induction a as [|x a IH]; intros [|y b]; simpl; split;
    try congruence; try reflexivity.
  - intros H. apply andb_true_iff in H as [Hx Hab].
    apply N.eqb_eq in Hx. apply IH in Hab. congruence.
  - intros H. injection H as -> ->. rewrite N.eqb_refl. simpl. now apply IH.
Qed.


Lemma jsstring_eqb_neq (a b : jsstring) : jsstring_eqb a b = false <-> a <> b.
Proof.
  rewrite <- jsstring_eqb_eq. destruct (jsstring_eqb a b); split; congruence.
Qed.

Lemma is_str_false (v : value) (lit : jsstring) :
  v <> VStr lit -> is_str v lit = false.
Proof.
  destruct v; simpl; auto. intros H. apply jsstring_eqb_neq. congruence.
Qed.

(** C1.  On the three demand levels and the four time slots the price is the
    base price of the tier, and 100 more exactly when the slot is Night. *)
Theorem calculatePrice_table :
  (forall (d : DemandLevel) (t : TimeSlot),
      calculatePrice (demand_value d) (slot_value t)
      = base_price d + (if is_night t then 100 else 0))
  /\ (forall (d : DemandLevel) (t : TimeSlot),
         calculatePrice (demand_value d) (slot_value t) = base_price d + 100
         <-> t = Night)
  /\ calculatePrice (demand_value Low) (slot_value Morning) = 200
  /\ calculatePrice (demand_value High) (slot_value Night) = 500
  /\ calculatePrice (demand_value Medium) (slot_value Evening) = 300.
Proof.
  repeat split; try reflexivity.
  - destruct d, t; reflexivity.
  - destruct d, t; vm_compute; congruence.
  - intros ->. destruct d; reflexivity.
Qed.

(** C10.  Any demand value other than the strings High and Medium, a string
    or not, is priced as the Low tier, at every time slot and at any other
    value in its place; the function has a result on every input. *)
Theorem calculatePrice_default_low (demand : value) :
  demand <> VStr (str "High") ->
  demand <> VStr (str "Medium") ->
  (forall t : TimeSlot,
      calculatePrice demand (slot_value t)
      = 200 + (if is_night t then 100 else 0))
  /\ (forall timeSlot : value,
         calculatePrice demand timeSlot
         = 200 + (if is_str timeSlot (str "Night") then 100 else 0)).
Proof.
  intros HH HM.
  assert (Hany : forall timeSlot : value,
             calculatePrice demand timeSlot
             = 200 + (if is_str timeSlot (str "Night") then 100 else 0)).
  { intros timeSlot. unfold calculatePrice.
    now rewrite (is_str_false _ _ HH), (is_str_false _ _ HM). }
  split; [|exact Hany].
  intros t. rewrite Hany. now destruct t.
Qed.

Lemma calculatePrice_default_low_witness :
  calculatePrice (VStr (str "Extreme")) (slot_value Night) = 300
  /\ calculatePrice VUndefined (slot_value Morning) = 200.
Proof.
  split.
  - apply (proj1 (calculatePrice_default_low (VStr (str "Extreme"))
                    ltac:(vm_compute; congruence)
                    ltac:(vm_compute; congruence)) Night).
  - apply (proj1 (calculatePrice_default_low VUndefined
                    ltac:(congruence) ltac:(congruence)) Morning).
Defined.

(** ** The reservation form *)

Section Validation.

Import ReservationPage.

Variable B : browser.
Variable user : value.

(** C6.  When the date, the time slot or the station is unset,
    [handleReserve] returns without a request: the world, and with it the
    trace of requests, is as before, and the only cell that changes is the
    error, which becomes the message of a selection that is missing. *)
Theorem handleReserve_validates_locally (c p : page) (w : world) :
  unset TheDate c \/ unset TheTimeSlot c \/ unset TheStation c ->
  exists f : selection,
    unset f c
    /\ handleReserve B user c p w
       = (Done tt, with_submitError (Some (validation_message f)) p, w).
Proof.
  intros H. unfold handleReserve.
  destruct (date c) as [|d ds] eqn:Hd.
  { exists TheDate. split; [exact Hd|]. destruct p; reflexivity. }
  destruct (timeSlot c) as [|t ts] eqn:Ht.
  { exists TheTimeSlot. split; [exact Ht|]. destruct p; reflexivity. }
  destruct (truthy (stationId c)) eqn:Hs.
  { exfalso. unfold unset in H. rewrite Hd, Ht, Hs in H.
    destruct H as [H|[H|H]]; discriminate. }
  exists TheStation. split; [exact Hs|]. destruct p; reflexivity.
Qed.

End Validation.

Lemma handleReserve_validates_locally_witness :
  exists f : selection,
    unset f (ReservationPage.initial (str "2025-01-01"))
    /\ ReservationPage.handleReserve offline VNull
         (ReservationPage.initial (str "2025-01-01"))
         (ReservationPage.initial (str "2025-01-01"))
         (ReservationContext.startup None)
       = (Done tt,
          ReservationPage.with_submitError (Some (validation_message f))
            (ReservationPage.initial (str "2025-01-01")),
          ReservationContext.startup None).
Proof.
  apply (handleReserve_validates_locally offline VNull
           (ReservationPage.initial (str "2025-01-01"))
           (ReservationPage.initial (str "2025-01-01"))
           (ReservationContext.startup None)).
  right; right. reflexivity.
Defined.

(** ** The station catalog *)

Section Catalog.

Variable B : browser.

(** C7, as amended.  Once the server has answered, a load of either
    station list ends in one of four ways.  A status outside 200..299, a
    body that is not JSON and a body that is JSON but not an array each
    leave the held list as it was and set the error to a message.  A
    success status with an array replaces the held list by the elements of
    the array and leaves no error; the elements are not inspected. *)
Theorem catalog_load_outcomes (res : response) :
  (forall (p : ReservationPage.page) (w : world),
      net B (trace w) stations_request = Responded res ->
      (ok res = false ->
       ReservationPage.loadStations B p w
       = (Done tt,
          ReservationPage.with_stationsLoading false
            (ReservationPage.with_stationsError (Some (refusal res)) p),
          after w (Fetch stations_request)))
      /\ (ok res = true -> JSON_parse (body res) = None ->
          ReservationPage.loadStations B p w
          = (Done tt,
             ReservationPage.with_stationsLoading false
               (ReservationPage.with_stationsError
                  (Some (message_or (syntax_error B (body res))
                                    (str "Failed to load stations"))) p),
             after w (Fetch stations_request)))
      /\ (forall data : value,
             ok res = true -> JSON_parse (body res) = Some data ->
             (forall items, data <> VArr items) ->
             ReservationPage.loadStations B p w
             = (Done tt,
                ReservationPage.with_stationsLoading false
                  (ReservationPage.with_stationsError
                     (Some (str "Invalid stations response format")) p),
                after w (Fetch stations_request)))
      /\ (forall items : list value,
             ok res = true -> JSON_parse (body res) = Some (VArr items) ->
             ReservationPage.loadStations B p w
             = (Done tt,
                ReservationPage.with_stationsLoading false
                  (ReservationPage.with_stations items
                     (ReservationPage.with_stationsError None p)),
                after w (Fetch stations_request))))
  /\ (forall (m : LeafletMap.state) (w : world),
         net B (trace w) stations_request = Responded res ->
         (ok res = false ->
          LeafletMap.fetchStations B m w
          = (Done tt,
             {| LeafletMap.stations := LeafletMap.stations m;
                LeafletMap.isLoading := false;
                LeafletMap.error := Some (refusal res) |},
             after (after w (Fetch stations_request))
                   (ConsoleError (str "[Map] Error fetching stations:")
                      (ErrorExn (refusal res)))))
         /\ (ok res = true -> JSON_parse (body res) = None ->
             LeafletMap.fetchStations B m w
             = (Done tt,
                {| LeafletMap.stations := LeafletMap.stations m;
                   LeafletMap.isLoading := false;
                   LeafletMap.error :=
                     Some (message_or (syntax_error B (body res))
                                      (str "Failed to load bike stations")) |},
                after (after w (Fetch stations_request))
                      (ConsoleError (str "[Map] Error fetching stations:")
                         (syntax_error B (body res)))))
         /\ (forall data : value,
                ok res = true -> JSON_parse (body res) = Some data ->
                (forall items, data <> VArr items) ->
                LeafletMap.fetchStations B m w
                = (Done tt,
                   {| LeafletMap.stations := LeafletMap.stations m;
                      LeafletMap.isLoading := false;
                      LeafletMap.error :=
                        Some (str "Invalid stations response format") |},
                   after (after w (Fetch stations_request))
                         (ConsoleError (str "[Map] Error fetching stations:")
                            (ErrorExn (str "Invalid stations response format")))))
         /\ (forall items : list value,
                ok res = true -> JSON_parse (body res) = Some (VArr items) ->
                LeafletMap.fetchStations B m w
                = (Done tt,
                   {| LeafletMap.stations := items;
                      LeafletMap.isLoading := false;
                      LeafletMap.error := None |},
                   after w (Fetch stations_request)))).
Proof.
  split.
  - intros p w Hnet.
    unfold ReservationPage.loadStations, try_finally, try_catch, bind,
      fetch, json, parse_json.
    cbn. rewrite Hnet. cbn.
    repeat split.
    + intros ->. reflexivity.
    + intros -> ->. reflexivity.
    + intros data -> -> Hdata. cbn.
      destruct data; try reflexivity. now elim (Hdata items).
    + intros items -> ->. reflexivity.
  - intros m w Hnet.
    unfold LeafletMap.fetchStations, try_finally, try_catch, bind,
      fetch, json, parse_json.
    cbn. rewrite Hnet. cbn.
    repeat split.
    + intros ->. reflexivity.
    + intros -> ->. reflexivity.
    + intros data -> -> Hdata. cbn.
      destruct data; try reflexivity. now elim (Hdata items).
    + intros items -> ->. reflexivity.
Qed.

End Catalog.

Lemma catalog_load_outcomes_witness :
  ReservationPage.loadStations (replying 503 (str "busy"))
    (ReservationPage.initial (str "2025-01-01")) (ReservationContext.startup None)
  = (Done tt,
     ReservationPage.with_stationsLoading false
       (ReservationPage.with_stationsError
          (Some (str "Failed to load stations (status 503)"))
          (ReservationPage.initial (str "2025-01-01"))),
     after (ReservationContext.startup None) (Fetch stations_request))
  /\ ReservationPage.loadStations (replying 200 (str "{}"))
       (ReservationPage.initial (str "2025-01-01")) (ReservationContext.startup None)
     = (Done tt,
        ReservationPage.with_stationsLoading false
          (ReservationPage.with_stationsError
             (Some (str "Invalid stations response format"))
             (ReservationPage.initial (str "2025-01-01"))),
        after (ReservationContext.startup None) (Fetch stations_request))
  /\ ReservationPage.loadStations (replying 200 (str "[]"))
       (ReservationPage.initial (str "2025-01-01")) (ReservationContext.startup None)
     = (Done tt,
        ReservationPage.with_stationsLoading false
          (ReservationPage.with_stations []
             (ReservationPage.with_stationsError None
                (ReservationPage.initial (str "2025-01-01")))),
        after (ReservationContext.startup None) (Fetch stations_request)).
Proof.
  pose proof (catalog_load_outcomes (replying 503 (str "busy"))
                {| status := 503; body := str "busy" |}) as [H503 _].
  pose proof (catalog_load_outcomes (replying 200 (str "{}"))
                {| status := 200; body := str "{}" |}) as [Hobj _].
  pose proof (catalog_load_outcomes (replying 200 (str "[]"))
                {| status := 200; body := str "[]" |}) as [Harr _].
  split; [|split].
  - apply (H503 _ _ eq_refl). reflexivity.
  - apply (Hobj _ _ eq_refl) with (data := VObj []);
      [reflexivity | vm_compute; reflexivity | intros items; discriminate].
  - apply (Harr _ _ eq_refl); [reflexivity | vm_compute; reflexivity].
Defined.

(** C7, as the claim states it, fails: a success response whose payload is
    an array of something other than station records is taken as the new
    list, and no error is set. *)
Lemma catalog_load_accepts_any_sequence :
  JSON_parse (str "[42]") = Some (VArr [VInt 42])
  /\ ~ station_records (VArr [VInt 42])
  /\ ReservationPage.loadStations (replying 200 (str "[42]"))
       (ReservationPage.initial (str "2025-01-01")) (ReservationContext.startup None)
     = (Done tt,
        ReservationPage.with_stationsLoading false
          (ReservationPage.with_stations [VInt 42]
             (ReservationPage.with_stationsError None
                (ReservationPage.initial (str "2025-01-01")))),
        after (ReservationContext.startup None) (Fetch stations_request))
  /\ LeafletMap.fetchStations (replying 200 (str "[42]"))
       {| LeafletMap.stations := []; LeafletMap.isLoading := false;
          LeafletMap.error := None |}
       (ReservationContext.startup None)
     = (Done tt,
        {| LeafletMap.stations := [VInt 42]; LeafletMap.isLoading := false;
           LeafletMap.error := None |},
        after (ReservationContext.startup None) (Fetch stations_request)).
Proof.
  split; [vm_compute; reflexivity|].
  split.
  { intros [[|s catalog] H]; simpl in H; [discriminate|].
    injection H as H _. discriminate. }
  split; vm_compute; reflexivity.
Qed.

(** ** The list of the user's reservations *)

Section ReservationList.

Import ReservationPage.

Variable B : browser.
Variable user : value.

(** C9.  Without a user email [fetchUserReservations] returns at once:
    no request, no change of any cell.  With one, a fetch that is
    rejected, answered with a status outside 200..299 or answered with a
    body that is not JSON or is null is reported to the console and nowhere
    else:
    the list of reservations and the two error cells are as before, and
    the loading flag is off again. *)
Theorem fetchUserReservations_quiet :
  (forall (p : page) (w : world),
      truthy (opt_field user (str "email")) = false ->
      fetchUserReservations B user p w = (Done tt, p, w))
  /\ (forall (p : page) (w : world) (email : jsstring) (e : exn),
         truthy (opt_field user (str "email")) = true ->
         uri_encode B (to_string (opt_field user (str "email"))) = Done email ->
         net B (trace w) (reservations_request email) = Rejected e
         \/ (exists res,
                net B (trace w) (reservations_request email) = Responded res
                /\ ok res = false
                /\ e = ErrorExn (str "Failed to fetch reservations (status "
                                 ++ digits_of_Z (status res) ++ str ")"))
         \/ (exists res,
                net B (trace w) (reservations_request email) = Responded res
                /\ ok res = true
                /\ JSON_parse (body res) = None
                /\ e = syntax_error B (body res))
         \/ (exists res,
                net B (trace w) (reservations_request email) = Responded res
                /\ ok res = true
                /\ JSON_parse (body res) = Some VNull
                /\ Thrown e = get_field B VNull (str "reservations")) ->
         fetchUserReservations B user p w
         = (Done tt,
            with_loadingReservations false p,
            after (after w (Fetch (reservations_request email)))
                  (ConsoleError (str "Failed to fetch reservations:") e))
         /\ userReservations (with_loadingReservations false p)
            = userReservations p
         /\ submitError (with_loadingReservations false p) = submitError p
         /\ stationsError (with_loadingReservations false p)
            = stationsError p).
Proof.
  split.
  - intros p w Hno. unfold fetchUserReservations. now rewrite Hno.
  - intros p w email e Hid Henc Hfail.
    split; [|repeat split].
    unfold fetchUserReservations. rewrite Hid. cbn.
    unfold try_finally, try_catch, bind, of_outcome, fetch, json, parse_json.
    cbn. rewrite Henc.
    destruct Hfail
      as [Hnet|[(res & Hnet & Hok & ->)|[(res & Hnet & Hok & Hbody & ->)
                                        |(res & Hnet & Hok & Hbody & He)]]];
      rewrite Hnet; cbn.
    + reflexivity.
    + rewrite Hok. reflexivity.
    + rewrite Hok, Hbody. reflexivity.
    + rewrite Hok, Hbody. cbn. injection He as ->. reflexivity.
Qed.

End ReservationList.

Lemma fetchUserReservations_quiet_witness :
  ReservationPage.fetchUserReservations offline VNull
    (ReservationPage.initial (str "2025-01-01")) (ReservationContext.startup None)
  = (Done tt, ReservationPage.initial (str "2025-01-01"),
     ReservationContext.startup None)
  /\ ReservationPage.fetchUserReservations (replying 500 (str "down"))
       (VObj [(str "email", VStr (str "a@b.c"))])
       (ReservationPage.initial (str "2025-01-01")) (ReservationContext.startup None)
     = (Done tt,
        ReservationPage.with_loadingReservations false
          (ReservationPage.initial (str "2025-01-01")),
        after (after (ReservationContext.startup None)
                     (Fetch (reservations_request (str "a@b.c"))))
              (ConsoleError (str "Failed to fetch reservations:")
                 (ErrorExn (str "Failed to fetch reservations (status 500)")))).
Proof.
  split.
  - apply (proj1 (fetchUserReservations_quiet offline VNull)). reflexivity.
  - apply (proj2 (fetchUserReservations_quiet (replying 500 (str "down"))
                    (VObj [(str "email", VStr (str "a@b.c"))]))
             (ReservationPage.initial (str "2025-01-01"))
             (ReservationContext.startup None)
             (str "a@b.c")
             (ErrorExn (str "Failed to fetch reservations (status 500)"))).
    + reflexivity.
    + reflexivity.
    + right; left. exists {| status := 500; body := str "down" |}.
      repeat split.
  Defined.

(** ** The latest-reservation store *)

Section Store.

Import ReservationContext.

Variable B : browser.
Variable S : Type.

Lemma setLatestReservation_cell (r : value) (s : S) (w : world) :
  exists w' : world,
    setLatestReservation B r s w = (Done tt, s, w')
    /\ latestReservation w' = r
    /\ trace w' = trace w.
Proof.
  unfold setLatestReservation, setLatestReservationState, try_catch, bind,
    localStorage_setItem, localStorage_removeItem.
  destruct (truthy r).
  - destruct (storage_fault B (SetItem _)); eexists; repeat split.
  - destruct (storage_fault B RemoveItem); eexists; repeat split.
Qed.

(** C3.  After [setLatestReservation] has returned, with a snapshot or
    with null, every reader of the context gets that value at its next
    render, whether or not the write to [localStorage] went through; the
    call itself throws nothing. *)
Theorem set_then_get :
  (forall (snap : LatestReservation) (s : S) (w : world),
      exists w' : world,
        setLatestReservation B (to_value snap) s w = (Done tt, s, w')
        /\ useReservation w' = to_value snap)
  /\ (forall (s : S) (w : world),
         exists w' : world,
           setLatestReservation B VNull s w = (Done tt, s, w')
           /\ useReservation w' = VNull).
Proof.
  split.
  - intros snap s w.
    destruct (setLatestReservation_cell (to_value snap) s w) as (w' & H & Hc & _).
    now exists w'.
  - intros s w.
    destruct (setLatestReservation_cell VNull s w) as (w' & H & Hc & _).
    now exists w'.
Qed.

(** C5, as amended.  The effect that restores the snapshot when the
    provider mounts never throws and never writes: it returns, the slot is
    as the earlier process left it and nothing is reported.  A slot that
    is missing, or whose string [JSON.parse] rejects, is ignored and the
    cell stays null.  A string that [JSON.parse] accepts is not checked
    any further: when the slot can be read, the cell becomes the value
    the string denotes, whether or not that is a snapshot. *)
Theorem hydrate_outcomes (stored : option jsstring) (s : S) :
  exists w' : world,
    hydrate B s (startup stored) = (Done tt, s, w')
    /\ slot w' = stored
    /\ trace w' = []
    /\ (stored = None -> useReservation w' = VNull)
    /\ (forall raw : jsstring,
           stored = Some raw -> JSON_parse raw = None ->
           useReservation w' = VNull)
    /\ (forall (raw : jsstring) (v : value),
           storage_fault B GetItem = None ->
           stored = Some raw -> raw <> [] -> JSON_parse raw = Some v ->
           useReservation w' = v).
Proof.
  unfold hydrate, try_catch, bind, localStorage_getItem, parse_json.
  destruct (storage_fault B GetItem) as [e|] eqn:Hget.
  { exists (startup stored). repeat split; auto. discriminate. }
  cbn [slot startup].
  destruct stored as [[|c t]|].
  - exists (startup (Some [])). repeat split; auto.
    intros raw v _ [= <-] H. now elim H.
  - destruct (JSON_parse (c :: t)) as [v|] eqn:Hparse.
    + eexists. split; [reflexivity|]. cbn.
      split; [reflexivity|]. split; [reflexivity|].
      split; [discriminate|]. split.
      * intros raw [= <-] H. congruence.
      * intros raw v' _ [= <-] _ H. congruence.
    + exists (startup (Some (c :: t))). repeat split; auto.
      intros raw v _ [= <-] _ H. congruence.
  - exists (startup None). repeat split; auto. discriminate.
Qed.

End Store.

Lemma hydrate_outcomes_witness :
  (exists w' : world,
      ReservationContext.hydrate offline tt
        (ReservationContext.startup (Some (str "{status:")))
      = (Done tt, tt, w')
      /\ ReservationContext.useReservation w' = VNull)
  /\ (exists w' : world,
         ReservationContext.hydrate offline tt
           (ReservationContext.startup
              (JSON_stringify (ReservationContext.to_value sample_snapshot)))
         = (Done tt, tt, w')
         /\ ReservationContext.useReservation w'
            = ReservationContext.to_value sample_snapshot).
Proof.
  split.
  - destruct (hydrate_outcomes offline unit (Some (str "{status:")) tt)
      as (w' & Hrun & _ & _ & _ & Hbad & _).
    exists w'. split; [exact Hrun|].
    apply (Hbad (str "{status:")); [reflexivity|vm_compute; reflexivity].
  - destruct (hydrate_outcomes offline unit
                (JSON_stringify (ReservationContext.to_value sample_snapshot))
                tt)
      as (w' & Hrun & _ & _ & _ & _ & Hgood).
    exists w'. split; [exact Hrun|].
    apply (Hgood (text_of (ReservationContext.to_value sample_snapshot)));
      [reflexivity|reflexivity|discriminate|vm_compute; reflexivity].
Defined.

(** C5, as the claim states it, fails: the stored string 42 is not the
    text of a snapshot and does not denote one, yet the effect takes it:
    the cell, and with it what every reader of the store shows, is the
    number 42.  The same happens with the empty object. *)
Lemma hydrate_surfaces_what_is_no_snapshot :
  (forall snap : ReservationContext.LatestReservation,
      JSON_parse (str "42") <> Some (ReservationContext.to_value snap)
      /\ JSON_parse (str "{}") <> Some (ReservationContext.to_value snap))
  /\ (exists w' : world,
         ReservationContext.hydrate offline tt
           (ReservationContext.startup (Some (str "42")))
         = (Done tt, tt, w')
         /\ ReservationContext.useReservation w' = VInt 42
         /\ ReservationContext.useReservation w' <> VNull)
  /\ (exists w' : world,
         ReservationContext.hydrate offline tt
           (ReservationContext.startup (Some (str "{}")))
         = (Done tt, tt, w')
         /\ ReservationContext.useReservation w' = VObj []
         /\ ReservationContext.useReservation w' <> VNull).
Proof.
  split; [|split].
  - intros snap.
    replace (JSON_parse (str "42")) with (Some (VInt 42))
      by (vm_compute; reflexivity).
    replace (JSON_parse (str "{}")) with (Some (VObj []))
      by (vm_compute; reflexivity).
    unfold ReservationContext.to_value. split; discriminate.
  - eexists. split; [vm_compute; reflexivity|].
    split; [reflexivity|discriminate].
  - eexists. split; [vm_compute; reflexivity|].
    split; [reflexivity|discriminate].
Qed.

(** ** The status of the stored snapshot *)

Section SnapshotStatus.

Import ReservationPage.

Variable B : browser.
Variable user : value.

Lemma fetchUserReservations_keeps_cell :
  preserves (fun (_ : page) w => latestReservation w)
            (fetchUserReservations B user).
Proof. unfold fetchUserReservations. frame; now apply preserves_modify. Qed.

Lemma persist_returns (latest : value) (s : page) (w : world) :
  exists w' : world,
    try_catch
      (if truthy latest
       then localStorage_setItem B
              (match JSON_stringify latest with
               | Some text => text
               | None => str "undefined"
               end)
       else localStorage_removeItem B)
      (fun _ => ret tt) s w
    = (Done tt, s, w')
    /\ latestReservation w' = latestReservation w
    /\ trace w' = trace w.
Proof.
  unfold try_catch, localStorage_setItem, localStorage_removeItem.
  destruct (truthy latest).
  - destruct (storage_fault B (SetItem _)); eexists; repeat split.
  - destruct (storage_fault B RemoveItem); eexists; repeat split.
Qed.

(** Whatever happens, [handleReserve] leaves the provider's cell alone or
    fills it from a successful answer. *)
Lemma handleReserve_cell_cases (c p : page) (w : world) :
  match handleReserve B user c p w with
  | (_, _, w') =>
      latestReservation w' = latestReservation w
      \/ exists (res : response) (data : value),
           net B (trace w) (reserve_request user c) = Responded res
           /\ ok res = true
           /\ data = answer_of res
           /\ latest_of B data (predictedDemand c) (stationId c)
              = Done (latestReservation w')
           /\ opt_field (latestReservation w') (str "status")
              = opt_field data (str "status")
  end.
Proof.
  unfold handleReserve.
  destruct (date c); [now left|].
  destruct (timeSlot c); [now left|].
  destruct (truthy (stationId c)) eqn:Hs; [|now left].
  unfold try_finally, try_catch, bind, fetch, json, parse_json.
  cbn -[fetchUserReservations latest_of reserve_request get_field].
  destruct (net B (trace w) (reserve_request user c)) as [res|e] eqn:Hnet;
    [|now left].
  assert (Hstatus :
            forall data latest,
              latest_of B data (predictedDemand c) (stationId c) = Done latest ->
              opt_field latest (str "status") = opt_field data (str "status")).
  { intros data latest H. unfold latest_of in H.
    destruct data; inversion H; reflexivity. }
  destruct (JSON_parse (body res)) as [data|] eqn:Hbody;
    cbn -[fetchUserReservations latest_of reserve_request get_field];
    (destruct (ok res) eqn:Hok;
     cbn -[fetchUserReservations latest_of reserve_request get_field];
     [|match goal with
       | |- context [get_field B ?d ?k] => destruct (get_field B d k)
       end; now left]).
  all: match goal with
    | |- context [latest_of B ?d ?a ?b] =>
        destruct (latest_of B d a b) as [latest|e] eqn:Hlatest
    end; try (now left).
  all: match goal with
    | |- context [try_catch ?m ?h ?s ?w1] =>
        destruct (persist_returns latest s w1) as (w2 & Hp & Hcell & _);
        cbn in Hp; rewrite Hp; clear Hp
    end.
  all: match goal with
    | |- context [fetchUserReservations B user ?q ?w1] =>
        pose proof (fetchUserReservations_keeps_cell q w1) as Hf;
        destruct (fetchUserReservations B user q w1) as [[[u|e] q2] w3]
    end; cbn in Hf, Hcell |- *.
  all: right; exists res; eexists;
    (split; [reflexivity|]); (split; [exact Hok|]);
    (split; [unfold answer_of; rewrite Hbody; reflexivity|]);
    rewrite Hf, Hcell; (split; [exact Hlatest | now apply Hstatus]).
Qed.

(** With the form filled in and a successful answer that is not null, the
    cell holds the object built from the answer. *)
Lemma handleReserve_cell_success (c p : page) (w : world)
      (res : response) (latest : value) :
  date c <> [] -> timeSlot c <> [] -> truthy (stationId c) = true ->
  net B (trace w) (reserve_request user c) = Responded res ->
  ok res = true ->
  latest_of B (answer_of res) (predictedDemand c) (stationId c) = Done latest ->
  match handleReserve B user c p w with
  | (_, _, w') => latestReservation w' = latest
  end.
Proof.
  intros Hd Ht Hs Hnet Hok Hlatest.
  unfold handleReserve.
  destruct (date c); [contradiction|].
  destruct (timeSlot c); [contradiction|].
  rewrite Hs.
  unfold try_finally, try_catch, bind, fetch, json, parse_json.
  cbn -[fetchUserReservations latest_of reserve_request get_field].
  rewrite Hnet. unfold answer_of in Hlatest.
  destruct (JSON_parse (body res)) as [data|];
    cbn -[fetchUserReservations latest_of reserve_request get_field];
    rewrite Hok;
    cbn -[fetchUserReservations latest_of reserve_request get_field];
    rewrite Hlatest.
  all: match goal with
    | |- context [try_catch ?m ?h ?s ?w1] =>
        destruct (persist_returns latest s w1) as (w2 & Hp & Hcell & _);
        cbn in Hp; rewrite Hp; clear Hp
    end.
  all: match goal with
    | |- context [fetchUserReservations B user ?q ?w1] =>
        pose proof (fetchUserReservations_keeps_cell q w1) as Hf;
        destruct (fetchUserReservations B user q w1) as [[[u|e] q2] w3]
    end; cbn in Hf, Hcell |- *.
  all: congruence.
Qed.

(** C2, as amended.  [handleReserve] either leaves the provider's cell as
    it was, or the server answered the reserve request with a success
    status and the cell holds the object built from that answer (from the
    empty object, when the body is not JSON), whose status is the status
    property of the answer, whatever that is.  The second happens whenever
    the form is filled in and the answer is a success and not null. *)
Theorem snapshot_status_is_the_answers (c p : page) (w : world) :
  match handleReserve B user c p w with
  | (_, _, w') =>
      (latestReservation w' = latestReservation w
       \/ exists (res : response) (data : value),
            net B (trace w) (reserve_request user c) = Responded res
            /\ ok res = true
            /\ data = answer_of res
            /\ latest_of B data (predictedDemand c) (stationId c)
               = Done (latestReservation w')
            /\ opt_field (latestReservation w') (str "status")
               = opt_field data (str "status"))
      /\ (forall (res : response) (latest : value),
             date c <> [] -> timeSlot c <> [] ->
             truthy (stationId c) = true ->
             net B (trace w) (reserve_request user c) = Responded res ->
             ok res = true ->
             latest_of B (answer_of res) (predictedDemand c) (stationId c)
             = Done latest ->
             latestReservation w' = latest
             /\ opt_field latest (str "status")
                = opt_field (answer_of res) (str "status"))
  end.
Proof.
  pose proof (handleReserve_cell_cases c p w) as Hcases.
  pose proof (handleReserve_cell_success c p w) as Hsuccess.
  destruct (handleReserve B user c p w) as [[r p'] w'].
  split; [exact Hcases|].
  intros res latest Hd Ht Hs Hnet Hok Hlatest.
  split; [exact (Hsuccess res latest Hd Ht Hs Hnet Hok Hlatest)|].
  unfold latest_of in Hlatest.
  destruct (answer_of res); inversion Hlatest; reflexivity.
Qed.

End SnapshotStatus.

Lemma snapshot_status_is_the_answers_witness :
  match ReservationPage.handleReserve
          (replying 200 (text_of (reservation_answer (str "Confirmed"))))
          VNull (filled (str "S1")) (filled (str "S1"))
          (ReservationContext.startup None) with
  | (_, _, w') =>
      opt_field (latestReservation w') (str "status") = VStr (str "Confirmed")
  end.
Proof.
  pose proof (snapshot_status_is_the_answers
                (replying 200 (text_of (reservation_answer (str "Confirmed"))))
                VNull (filled (str "S1")) (filled (str "S1"))
                (ReservationContext.startup None)) as H.
  destruct (ReservationPage.handleReserve _ _ _ _ _) as [[r p'] w'].
  destruct H as [_ H].
  destruct (H {| status := 200;
                 body := text_of (reservation_answer (str "Confirmed")) |}
              (VObj [(str "reservation_id", VStr (str "R-1"));
                     (str "station", VStr (str "Central"));
                     (str "date", VStr (str "2025-01-01"));
                     (str "time_slot", VStr (str "Morning"));
                     (str "price", VInt 200);
                     (str "status", VStr (str "Confirmed"));
                     (str "predicted_demand", VStr (str "Low"));
                     (str "station_id", VStr (str "S1"))]))
    as [Hcell _]; try (vm_compute; congruence).
  rewrite Hcell. reflexivity.
Defined.

(** C2, as the claim states it, fails: when the server answers a reserve
    request with a success status and the status Pending, that is the
    status of the snapshot handed to the store and written to the slot. *)
Lemma snapshot_status_can_be_pending :
  match ReservationPage.handleReserve
          (replying 200 (text_of (reservation_answer (str "Pending"))))
          VNull (filled (str "S1")) (filled (str "S1"))
          (ReservationContext.startup None) with
  | (_, _, w') =>
      ReservationContext.useReservation w'
      = VObj [(str "reservation_id", VStr (str "R-1"));
              (str "station", VStr (str "Central"));
              (str "date", VStr (str "2025-01-01"));
              (str "time_slot", VStr (str "Morning"));
              (str "price", VInt 200);
              (str "status", VStr (str "Pending"));
              (str "predicted_demand", VStr (str "Low"));
              (str "station_id", VStr (str "S1"))]
      /\ opt_field (ReservationContext.useReservation w') (str "status")
         <> VStr (str "Confirmed")
  end.
Proof. vm_compute. split; [reflexivity | discriminate]. Qed.

(** ** JSON text read back *)

Section JsonText.

Local Open Scope N_scope.

(** ** Decimal digits *)

Lemma digits_value_app (a b : jsstring) :
digits_value (a ++ b) = fold_left digits_step b (digits_value a).
Proof. unfold digits_value. now rewrite fold_left_app. Qed.

Lemma digits_value_snoc (a : jsstring) (c : code_unit) :
digits_value (a ++ [c]) = 10 * digits_value a + (c - 48).
Proof. now rewrite digits_value_app. Qed.

Lemma digits_fuel_canonical (fuel : nat) :
forall (n : N) (acc : jsstring),
  n < 2 ^ N.of_nat (S fuel) ->
  exists ds, digits_fuel (S fuel) n acc = ds ++ acc /\ canonical ds n.
Proof.
induction fuel as [|fuel IH]; intros n acc Hn.
- assert (n = 0 \/ n = 1) as [-> | ->] by (change (2 ^ N.of_nat 1) with 2 in Hn; lia).
  + exists [48]. split; [reflexivity|].
    split; [reflexivity|]. split; [reflexivity|]. split.
    * exists 48, []. repeat split; congruence.
    * congruence.
  + exists [49]. split; [reflexivity|].
    split; [reflexivity|]. split; [reflexivity|]. split.
    * exists 49, []. repeat split; lia.
    * intros _. simpl. lia.
- change (digits_fuel (S (S fuel)) n acc)
    with (if n / 10 =? 0 then (48 + n mod 10) :: acc
          else digits_fuel (S fuel) (n / 10) ((48 + n mod 10) :: acc)).
  pose proof (N.mod_lt n 10 ltac:(lia)) as Hmod.
  pose proof (N.div_mod n 10 ltac:(lia)) as Hdiv.
  set (q := n / 10) in *. set (r := n mod 10) in *.
  clearbody q r.
  destruct (q =? 0) eqn:Hq.
  + apply N.eqb_eq in Hq.
    exists [48 + r]. split; [reflexivity|].
    assert (Hsmall : n = r) by lia.
    split; [|split; [|split]].
    * unfold digits_value. cbn [fold_left]. lia.
    * cbn [forallb]. unfold is_digit.
      rewrite andb_true_r. apply andb_true_iff. split; apply N.leb_le; lia.
    * exists (48 + r), []. repeat split; try lia.
      unfold is_digit. apply andb_true_iff. split; apply N.leb_le; lia.
    * intros Hnz. simpl. lia.
  + apply N.eqb_neq in Hq.
    assert (Hlt : q < 2 ^ N.of_nat (S fuel)).
    { cut (n < 2 * 2 ^ N.of_nat (S fuel));
        [generalize (2 ^ N.of_nat (S fuel)); clear - Hdiv Hmod; intros; lia|].
      replace (N.of_nat (S (S fuel))) with (N.succ (N.of_nat (S fuel))) in Hn by lia.
      rewrite N.pow_succ_r' in Hn. exact Hn. }
    destruct (IH (q) ((48 + r) :: acc) Hlt) as (ds & Hds & Hv & Hall & Hhd & Hlen).
    exists (ds ++ [48 + r]). split.
    { rewrite Hds. now rewrite <- app_assoc. }
    assert (Hd : is_digit (48 + r) = true).
    { unfold is_digit. apply andb_true_iff.
      split; apply N.leb_le; clear - Hmod; lia. }
    split; [|split; [|split]].
    * rewrite digits_value_snoc, Hv. clear - Hdiv Hmod. lia.
    * rewrite forallb_app, Hall. cbn [forallb andb]. now rewrite Hd.
    * destruct Hhd as (d & rest & -> & Hdd & Hnz & _).
      exists d, (rest ++ [48 + r]).
      split; [reflexivity|]. split; [exact Hdd|]. split.
      -- intros _. now apply Hnz.
      -- intros ->. exfalso. clear - Hq Hdiv. lia.
    * intros _. specialize (Hlen Hq).
      rewrite length_app. simpl length.
      destruct Hhd as (d & rest & -> & _).
      simpl length in *.
      replace (N.of_nat (S (length rest) + 1) - 1)
        with (N.succ (N.of_nat (S (length rest)) - 1)) by lia.
      rewrite N.pow_succ_r'.
      revert Hlen. generalize (10 ^ (N.of_nat (S (length rest)) - 1)).
      clear - Hdiv Hmod. intros; lia.
Qed.

Lemma digits_of_N_canonical (n : N) : canonical (digits_of_N n) n.
Proof.
unfold digits_of_N.
destruct (digits_fuel_canonical (N.to_nat (N.log2 n)) n []) as (ds & Hds & Hc).
- rewrite Nat2N.inj_succ, N2Nat.id.
  destruct n as [|p]; [reflexivity|].
  apply N.log2_spec. reflexivity.
- rewrite Hds, app_nil_r. exact Hc.
Qed.

Lemma strip_zeros_spec (fuel : nat) :
forall (s : N) (e : Z),
  s <> 0 ->
  exists j : N,
    snd (strip_zeros fuel s e) = (e + Z.of_N j)%Z
    /\ s = fst (strip_zeros fuel s e) * 10 ^ j
    /\ fst (strip_zeros fuel s e) <> 0.
Proof.
induction fuel as [|fuel IH]; intros s e Hs.
- exists 0. simpl. repeat split; [lia | lia | exact Hs].
- cbn [strip_zeros].
  pose proof (N.mod_lt s 10 ltac:(lia)) as Hmod.
  pose proof (N.div_mod s 10 ltac:(lia)) as Hdiv.
  set (q := s / 10) in *. set (r := s mod 10) in *. clearbody q r.
  destruct (r =? 0) eqn:Hr.
  + apply N.eqb_eq in Hr.
    destruct (IH q (e + 1)%Z ltac:(lia)) as (j & Hj & Hq & Hnz).
    exists (N.succ j). split; [rewrite Hj; lia|]. split; [|exact Hnz].
    rewrite N.pow_succ_r'.
    revert Hq. generalize (fst (strip_zeros fuel q (e + 1))), (10 ^ j).
    intros a b Hq. subst q. lia.
  + exists 0. simpl. repeat split; [lia | lia | exact Hs].
Qed.

Lemma span_digits_app (ds rest : jsstring) :
forallb is_digit ds = true ->
match rest with [] => true | c :: _ => negb (is_digit c) end = true ->
span_digits (ds ++ rest) = (ds, rest).
Proof.
intros Hds Hrest. induction ds as [|d ds IH]; simpl.
- destruct rest as [|c rest]; [reflexivity|].
  simpl. apply negb_true_iff in Hrest. now rewrite Hrest.
- simpl in Hds. apply andb_true_iff in Hds as [Hd Hds].
  now rewrite Hd, (IH Hds).
Qed.

Lemma digits_value_zeros (ds : jsstring) (j : nat) :
digits_value (ds ++ repeat 48 j) = digits_value ds * 10 ^ N.of_nat j.
Proof.
induction j as [|j IH].
- simpl. rewrite app_nil_r. lia.
- replace (repeat 48 (S j)) with (repeat 48 j ++ [48]).
  + rewrite app_assoc, digits_value_snoc, IH.
    rewrite Nat2N.inj_succ, N.pow_succ_r'.
    generalize (10 ^ N.of_nat j). intros; lia.
  + symmetry. apply (repeat_cons j 48).
Qed.

Lemma forallb_repeat_zero (j : nat) : forallb is_digit (repeat 48 j) = true.
Proof. induction j; simpl; auto. Qed.

(** The text of a natural number below 10^21 is its decimal numeral. *)
Lemma number_to_string_natural (p : Z) :
(0 <= p < 10 ^ 21)%Z ->
exists ds : jsstring,
  number_to_string p 0 = ds
  /\ digits_value ds = Z.to_N p
  /\ forallb is_digit ds = true
  /\ exists d rest, ds = d :: rest /\ is_digit d = true
                    /\ (d = 48 -> rest = []).
Proof.
intros Hp. unfold number_to_string.
destruct (p =? 0)%Z eqn:Hz.
{ apply Z.eqb_eq in Hz. subst p. exists (str "0").
  repeat split. exists 48, []. repeat split. }
apply Z.eqb_neq in Hz.
assert (Hs : Z.abs_N p <> 0) by lia.
destruct (strip_zeros_spec (S (N.to_nat (N.log2 (Z.abs_N p)))) (Z.abs_N p) 0 Hs)
  as (j & He & Hval & Hnz).
destruct (strip_zeros _ (Z.abs_N p) 0) as [s e'].
cbn [fst snd] in *.
destruct (digits_of_N_canonical s) as (Hv & Hall & (d & rest & Hds & Hd & Hhd & _) & Hlen).
specialize (Hlen Hnz). specialize (Hhd Hnz).
replace (p <? 0)%Z with false by (symmetry; apply Z.ltb_ge; lia).
set (ds := digits_of_N s) in *.
assert (Hk : (Z.of_nat (length ds) <= e' + Z.of_nat (length ds))%Z) by lia.
assert (Hn : (e' + Z.of_nat (length ds) <= 21)%Z).
{ (* s * 10^j < 10^21 and 10^(k-1) <= s *)
  destruct (Z_le_gt_dec (e' + Z.of_nat (length ds)) 21) as [|Hgt]; [assumption|].
  exfalso.
  assert (Hbig : 10 ^ 21 <= s * 10 ^ j).
  { assert (Hle : 10 ^ (N.of_nat (length ds) - 1) * 10 ^ j <= s * 10 ^ j)
      by (apply N.mul_le_mono_r; exact Hlen).
    rewrite <- N.pow_add_r in Hle.
    eapply N.le_trans; [|exact Hle].
    apply N.pow_le_mono_r; lia. }
  rewrite <- Hval in Hbig.
  assert (Z.of_N (10 ^ 21) <= Z.of_N (Z.abs_N p))%Z by lia.
  rewrite N2Z.inj_abs_N in H. change (Z.of_N (10 ^ 21)) with (10 ^ 21)%Z in H.
  lia. }
apply Z.leb_le in Hk, Hn. rewrite Hk, Hn. cbn [andb app].
replace (e' + Z.of_nat (length ds) - Z.of_nat (length ds))%Z with (Z.of_N j) by lia.
exists (ds ++ repeat 48 (Z.to_nat (Z.of_N j))). split; [reflexivity|].
split; [|split].
- rewrite digits_value_zeros, Hv.
  replace (Z.to_nat (Z.of_N j)) with (N.to_nat j) by lia.
  rewrite N2Nat.id, <- Hval. lia.
- now rewrite forallb_app, Hall, forallb_repeat_zero.
- exists d, (rest ++ repeat 48 (Z.to_nat (Z.of_N j))).
  rewrite Hds. repeat split; [exact Hd|]. intros ->. now elim Hhd.
Qed.

Lemma ends_number_not_digit (rest : jsstring) :
ends_number rest = true ->
match rest with [] => true | c :: _ => negb (is_digit c) end = true.
Proof.
destruct rest as [|c rest]; [reflexivity|]. simpl.
rewrite !negb_orb. intros H.
now apply andb_true_iff in H as [H _]; apply andb_true_iff in H as [H _];
  apply andb_true_iff in H as [H _].
Qed.

Lemma parse_number_natural (p : Z) (rest : jsstring) :
(0 <= p < 10 ^ 21)%Z ->
ends_number rest = true ->
parse_number (number_to_string p 0 ++ rest) = Some (VNum p 0, rest).
Proof.
intros Hp Hrest.
destruct (number_to_string_natural p Hp)
  as (ds & -> & Hv & Hall & d & tl & -> & Hd & Hzero).
unfold parse_number.
assert (Hminus : (d =? 45) = false).
{ unfold is_digit in Hd. apply andb_true_iff in Hd as [Hd _].
  apply N.leb_le in Hd. apply N.eqb_neq. lia. }
cbn [app]. rewrite Hminus.
change (d :: tl ++ rest) with ((d :: tl) ++ rest).
rewrite (span_digits_app (d :: tl) rest Hall (ends_number_not_digit rest Hrest)).
replace ((d =? 48) && match tl with [] => false | _ :: _ => true end)
  with false.
2:{ destruct (N.eqb_spec d 48) as [->|]; [|reflexivity].
    now rewrite (Hzero eq_refl). }
assert (Hfrac : parse_fraction rest = Some ([], rest)).
{ destruct rest as [|c rest]; [reflexivity|]. simpl in Hrest |- *.
  rewrite !negb_orb in Hrest.
  apply andb_true_iff in Hrest as [Hrest _].
  apply andb_true_iff in Hrest as [Hrest _].
  apply andb_true_iff in Hrest as [_ Hrest].
  apply negb_true_iff in Hrest. now rewrite Hrest. }
assert (Hexp : parse_exponent rest = Some (0%Z, rest)).
{ destruct rest as [|c rest]; [reflexivity|]. simpl in Hrest |- *.
  rewrite !negb_orb in Hrest.
  apply andb_true_iff in Hrest as [Hrest H69].
  apply andb_true_iff in Hrest as [_ H101].
  apply negb_true_iff in H69, H101. now rewrite H69, H101. }
rewrite Hfrac, Hexp, app_nil_r, Hv. cbn [length].
f_equal. f_equal. f_equal. lia.
Qed.

Lemma skip_ws_digit (d : code_unit) (s : jsstring) :
is_digit d = true -> skip_ws (d :: s) = d :: s.
Proof.
intros Hd. simpl. replace (is_ws d) with false; [reflexivity|].
unfold is_digit in Hd. apply andb_true_iff in Hd as [Hd _].
apply N.leb_le in Hd. unfold is_ws.
repeat match goal with
       | |- context [?a =? ?b] => destruct (N.eqb_spec a b); [lia|]
       end.
reflexivity.
Qed.

Lemma parse_value_natural (fuel : nat) (p : Z) (rest : jsstring) :
(0 <= p < 10 ^ 21)%Z ->
ends_number rest = true ->
parse_value (S fuel) (number_to_string p 0 ++ rest) = Parsed (VNum p 0) rest.
Proof.
intros Hp Hrest.
pose proof (parse_number_natural p rest Hp Hrest) as Hnum.
destruct (number_to_string_natural p Hp)
  as (ds & Hds & _ & _ & d & tl & -> & Hd & _).
rewrite Hds in *. cbn [parse_value app] in *.
rewrite (skip_ws_digit d (tl ++ rest) Hd).
unfold is_digit in Hd. apply andb_true_iff in Hd as [Hlo Hhi].
apply N.leb_le in Hlo, Hhi.
repeat match goal with
       | |- context [if ?a =? ?b then _ else _] =>
           destruct (N.eqb_spec a b); [lia|]
       end.
now rewrite Hnum.
Qed.

(** ** Quoted strings *)

Lemma hex_value_digit (d : N) : d < 16 -> hex_value (hex_digit d) = Some d.
Proof.
intros Hd. unfold hex_digit, hex_value.
destruct (N.ltb_spec d 10).
- destruct (N.leb_spec 48 (48 + d)); [|lia].
  destruct (N.leb_spec (48 + d) 57); [|lia].
  cbn [andb]. f_equal. lia.
- destruct (N.leb_spec 48 (87 + d)); [|lia].
  destruct (N.leb_spec (87 + d) 57); [lia|].
  destruct (N.leb_spec 97 (87 + d)); [|lia].
  destruct (N.leb_spec (87 + d) 102); [|lia].
  cbn [andb]. f_equal. lia.
Qed.

Lemma hex4_unicode_escape (c : code_unit) :
c < 65536 ->
hex4 (hex_digit ((c / 4096) mod 16)) (hex_digit ((c / 256) mod 16))
     (hex_digit ((c / 16) mod 16)) (hex_digit (c mod 16)) = Some c.
Proof.
intros Hc.
replace (c / 4096) with (c / 16 / 16 / 16)
  by (rewrite !N.Div0.div_div; reflexivity).
replace (c / 256) with (c / 16 / 16)
  by (rewrite !N.Div0.div_div; reflexivity).
pose proof (N.div_mod c 16 ltac:(lia)) as E1.
pose proof (N.mod_lt c 16 ltac:(lia)) as L1.
set (a1 := c / 16) in *. set (w := c mod 16) in *.
pose proof (N.div_mod a1 16 ltac:(lia)) as E2.
pose proof (N.mod_lt a1 16 ltac:(lia)) as L2.
set (a2 := a1 / 16) in *. set (z := a1 mod 16) in *.
pose proof (N.div_mod a2 16 ltac:(lia)) as E3.
pose proof (N.mod_lt a2 16 ltac:(lia)) as L3.
set (a3 := a2 / 16) in *. set (y := a2 mod 16) in *.
clearbody a1 w a2 z a3 y.
assert (L4 : a3 < 16) by lia.
rewrite (N.mod_small a3 16 L4).
unfold hex4.
rewrite (hex_value_digit a3 L4), (hex_value_digit y L3),
  (hex_value_digit z L2), (hex_value_digit w L1).
f_equal. lia.
Qed.

Lemma parse_literal_unit (c : code_unit) (tail : jsstring) :
32 <= c -> c <> 34 -> c <> 92 ->
parse_string_body (c :: tail) = cons_unit c (parse_string_body tail).
Proof.
intros Hlo Hq Hb. cbn [parse_string_body].
destruct (N.eqb_spec c 34); [contradiction|].
destruct (N.eqb_spec c 92); [contradiction|].
destruct (N.ltb_spec c 32); [lia|]. reflexivity.
Qed.

Lemma parse_unicode_escape (c : code_unit) (tail : jsstring) :
c < 65536 ->
parse_string_body (unicode_escape c ++ tail)
= cons_unit c (parse_string_body tail).
Proof.
intros Hc. unfold unicode_escape. cbn [app parse_string_body].
change (92 =? 34) with false. change (92 =? 92) with true.
change (117 =? 117) with true. cbv iota.
now rewrite (hex4_unicode_escape c Hc).
Qed.

Lemma parse_quote_unit (c : code_unit) (tail : jsstring) :
parse_string_body (quote_unit c ++ tail)
= cons_unit c (parse_string_body tail).
Proof.
unfold quote_unit.
repeat match goal with
       | |- context [if ?a =? ?b then _ else _] =>
           destruct (N.eqb_spec a b); [subst; reflexivity|]
       end.
destruct ((c <? 32) || is_high_surrogate c || is_low_surrogate c) eqn:Hesc.
- apply parse_unicode_escape.
  apply orb_true_iff in Hesc as [Hesc|Hlow].
  + apply orb_true_iff in Hesc as [Hlt|Hhigh].
    * apply N.ltb_lt in Hlt. lia.
    * unfold is_high_surrogate in Hhigh.
      apply andb_true_iff in Hhigh as [_ Hhi]. apply N.leb_le in Hhi. lia.
  + unfold is_low_surrogate in Hlow.
    apply andb_true_iff in Hlow as [_ Hhi]. apply N.leb_le in Hhi. lia.
- apply orb_false_iff in Hesc as [Hesc _].
  apply orb_false_iff in Hesc as [Hlt _].
  apply N.ltb_ge in Hlt.
  apply parse_literal_unit; assumption.
Qed.

Lemma parse_quote_body_bounded (n : nat) :
forall (s rest : jsstring),
  (length s <= n)%nat ->
  parse_string_body (quote_body s ++ 34 :: rest) = Some (s, rest).
Proof.
induction n as [|n IH]; intros s rest Hlen.
- destruct s; [reflexivity|simpl in Hlen; lia].
- destruct s as [|c s]; [reflexivity|].
  cbn [quote_body].
  assert (Hone : parse_string_body ((quote_unit c ++ quote_body s) ++ 34 :: rest)
                 = Some (c :: s, rest)).
  { rewrite <- app_assoc, parse_quote_unit, IH; [reflexivity|].
    simpl in Hlen. lia. }
  destruct (is_high_surrogate c) eqn:Hhigh; [|exact Hone].
  destruct s as [|d s].
  { rewrite parse_quote_unit. reflexivity. }
  destruct (is_low_surrogate d) eqn:Hlow; [|exact Hone].
  cbn [app].
  unfold is_high_surrogate in Hhigh. unfold is_low_surrogate in Hlow.
  apply andb_true_iff in Hhigh as [Hc _]. apply N.leb_le in Hc.
  apply andb_true_iff in Hlow as [Hd _]. apply N.leb_le in Hd.
  rewrite parse_literal_unit by lia.
  rewrite parse_literal_unit by lia.
  rewrite IH; [reflexivity|]. simpl in Hlen. lia.
Qed.

Lemma parse_quote_body (s rest : jsstring) :
parse_string_body (quote_body s ++ 34 :: rest) = Some (s, rest).
Proof. apply (parse_quote_body_bounded (length s)). lia. Qed.

Lemma parse_value_quote (fuel : nat) (s rest : jsstring) :
parse_value (S fuel) (quote s ++ rest) = Parsed (VStr s) rest.
Proof.
unfold quote. cbn [parse_value app skip_ws].
change (is_ws 34) with false. cbv iota.
change (34 =? 123) with false. change (34 =? 91) with false.
change (34 =? 34) with true. cbv iota.
rewrite <- app_assoc. cbn [app]. now rewrite parse_quote_body.
Qed.

(** ** Objects *)

Lemma skip_ws_quote (k rest : jsstring) :
skip_ws (quote k ++ rest) = quote k ++ rest.
Proof. reflexivity. Qed.

Lemma parse_value_object (fuel : nat) (k rest : jsstring) :
parse_value (S fuel) (str "{" ++ quote k ++ rest)
= parse_members fuel [] (quote k ++ rest).
Proof. reflexivity. Qed.

Lemma parse_members_next (fuel : nat) (acc : list (jsstring * value))
    (k vtext rest : jsstring) (v : value) :
parse_value fuel (vtext ++ str "," ++ rest) = Parsed v (str "," ++ rest) ->
parse_members (S fuel) acc (quote k ++ str ":" ++ vtext ++ str "," ++ rest)
= parse_members fuel (define_property acc k v) rest.
Proof.
intros Hv. unfold quote at 1.
cbn [parse_members app skip_ws].
change (is_ws 34) with false. cbv iota.
change (negb (34 =? 34)) with false. cbv iota.
rewrite <- app_assoc. cbn [app]. rewrite parse_quote_body.
change (str ":" ++ vtext ++ str "," ++ rest)
  with (58 :: vtext ++ str "," ++ rest).
cbn [skip_ws]. change (is_ws 58) with false. cbv iota.
change (negb (58 =? 58)) with false. cbv iota.
rewrite Hv. reflexivity.
Qed.

Lemma parse_members_last (fuel : nat) (acc : list (jsstring * value))
    (k vtext rest : jsstring) (v : value) :
parse_value fuel (vtext ++ str "}" ++ rest) = Parsed v (str "}" ++ rest) ->
parse_members (S fuel) acc (quote k ++ str ":" ++ vtext ++ str "}" ++ rest)
= Parsed (VObj (define_property acc k v)) rest.
Proof.
intros Hv. unfold quote at 1.
cbn [parse_members app skip_ws].
change (is_ws 34) with false. cbv iota.
change (negb (34 =? 34)) with false. cbv iota.
rewrite <- app_assoc. cbn [app]. rewrite parse_quote_body.
change (str ":" ++ vtext ++ str "}" ++ rest)
  with (58 :: vtext ++ str "}" ++ rest).
cbn [skip_ws]. change (is_ws 58) with false. cbv iota.
change (negb (58 =? 58)) with false. cbv iota.
rewrite Hv. reflexivity.
Qed.

Lemma object_text_length (k rest : jsstring) :
(4 <= length (str "{" ++ quote k ++ str ":" ++ rest))%nat.
Proof.
change (str "{") with [123]. change (str ":") with [58]. unfold quote.
cbn [app length]. rewrite !length_app. cbn [length]. lia.
Qed.

Lemma parse_members_end (fuel : nat) (acc : list (jsstring * value))
    (k vtext : jsstring) (v : value) :
parse_value fuel (vtext ++ str "}") = Parsed v (str "}") ->
parse_members (S fuel) acc (quote k ++ str ":" ++ vtext ++ str "}")
= Parsed (VObj (define_property acc k v)) [].
Proof.
intros Hv.
rewrite <- (app_nil_r (str "}")) in Hv |- * at 1.
now apply parse_members_last.
Qed.

End JsonText.

(** ** The snapshot across a reload *)

Section SnapshotText.

Import ReservationContext.

Lemma serialize_snapshot_parses (snap : LatestReservation) (fuel : nat) :
0 <= price snap <= 2 ^ 53 ->
exists text : jsstring,
  JSON_stringify (to_value snap) = Some text
  /\ (4 <= length text)%nat
  /\ parse_value (10 + fuel) text = Parsed (to_value snap) [].
Proof.
intros Hprice.
assert (Hp : 0 <= price snap < 10 ^ 21) by lia.
destruct snap as [rid st dt slot p demand sid]. cbn [price] in *.
unfold JSON_stringify, to_value, slot_value, demand_value, VInt.
destruct demand as [d|], sid as [i|];
  cbn -[number_to_string quote parse_value Nat.add];
  eexists; (split; [reflexivity|]); rewrite <- ?app_assoc.
all: split; [apply object_text_length|].
all: cbn [Nat.add]; rewrite parse_value_object.
all: repeat (erewrite parse_members_next;
             [|first [apply parse_value_quote
                     |apply parse_value_natural; [exact Hp|reflexivity]]]).
all: erewrite parse_members_end; [reflexivity|apply parse_value_quote].
Qed.

(** Reading back the text of a snapshot gives the snapshot. *)
Lemma snapshot_text_round_trip (snap : LatestReservation) :
0 <= price snap <= 2 ^ 53 ->
exists text : jsstring,
  JSON_stringify (to_value snap) = Some text
  /\ JSON_parse text = Some (to_value snap).
Proof.
intros Hprice.
destruct (serialize_snapshot_parses snap 0 Hprice) as (text & Htext & Hlen & _).
exists text. split; [exact Htext|].
unfold JSON_parse.
replace (2 * length text + 2)%nat
  with (10 + (2 * length text + 2 - 10))%nat by lia.
destruct (serialize_snapshot_parses snap (2 * length text + 2 - 10) Hprice)
  as (text' & Htext' & _ & Hparse).
assert (text' = text) by congruence. subst text'.
rewrite Hparse. reflexivity.
Qed.

End SnapshotText.

Section Reload.

Import ReservationContext.

Variable B : browser.
Variable S : Type.

(** C4.  When the write of a snapshot to the slot goes through, the next
    process, which starts with a null cell and reads the slot when the
    provider mounts, ends up with exactly that snapshot: parsing the text
    that [setLatestReservation] stored gives the snapshot back.  A price
    is a whole number that a JavaScript number holds exactly. *)
Theorem snapshot_survives_reload (snap : LatestReservation)
        (s s' : S) (w : world) :
  0 <= price snap <= 2 ^ 53 ->
  (forall text,
      JSON_stringify (to_value snap) = Some text ->
      storage_fault B (SetItem text) = None) ->
  storage_fault B GetItem = None ->
  exists (text : jsstring) (w1 w2 : world),
    setLatestReservation B (to_value snap) s w = (Done tt, s, w1)
    /\ slot w1 = Some text
    /\ JSON_stringify (to_value snap) = Some text
    /\ JSON_parse text = Some (to_value snap)
    /\ hydrate B s' (startup (slot w1)) = (Done tt, s', w2)
    /\ useReservation w2 = to_value snap.
Proof.
  intros Hprice Hset Hget.
  destruct (snapshot_text_round_trip snap Hprice) as (text & Htext & Hparse).
  exists text.
  unfold setLatestReservation, setLatestReservationState, hydrate,
    try_catch, bind, localStorage_setItem, localStorage_getItem, parse_json.
  change (truthy (to_value snap)) with true. cbv iota.
  rewrite Htext, (Hset text Htext), Hget. cbn [slot startup].
  destruct text as [|c t]; [discriminate Hparse|].
  rewrite Hparse.
  eexists. eexists.
  split; [reflexivity|]. split; [reflexivity|]. split; [reflexivity|].
  split; [reflexivity|].
  cbn [slot]. rewrite Hparse. split; reflexivity.
Qed.

End Reload.

Lemma snapshot_survives_reload_witness :
  exists (text : jsstring) (w1 w2 : world),
    ReservationContext.setLatestReservation offline
      (ReservationContext.to_value sample_snapshot) tt
      (ReservationContext.startup None)
    = (Done tt, tt, w1)
    /\ slot w1 = Some text
    /\ JSON_stringify (ReservationContext.to_value sample_snapshot) = Some text
    /\ JSON_parse text = Some (ReservationContext.to_value sample_snapshot)
    /\ ReservationContext.hydrate offline tt
         (ReservationContext.startup (slot w1)) = (Done tt, tt, w2)
    /\ ReservationContext.useReservation w2
       = ReservationContext.to_value sample_snapshot.
Proof.
  apply (snapshot_survives_reload offline unit sample_snapshot tt tt
           (ReservationContext.startup None)).
  - cbn [ReservationContext.price sample_snapshot]. lia.
  - reflexivity.
  - reflexivity.
Defined.

(** ** The parser never runs out of fuel *)

Section Fuel.

Lemma skip_ws_length (s r : jsstring) :
  skip_ws s = r -> (length r <= length s)%nat.
Proof.
  intros <-. induction s as [|c s IH]; simpl; [lia|].
  destruct (is_ws c); simpl; lia.
Qed.

Lemma parse_string_body_bounded (n : nat) :
  forall (s t r : jsstring),
    (length s <= n)%nat ->
    parse_string_body s = Some (t, r) -> (length r < length s)%nat.
Proof.
  induction n as [|n IH]; intros s t r Hn H.
  - destruct s; [discriminate|simpl in Hn; lia].
  - destruct s as [|c s]; [discriminate|].
    cbn [parse_string_body] in H. simpl in Hn.
    destruct (c =? 34)%N; [injection H as _ <-; simpl; lia|].
    destruct (c =? 92)%N.
    + destruct s as [|x s]; [discriminate|].
      destruct (x =? 117)%N.
      * destruct s as [|h1 [|h2 [|h3 [|h4 s]]]]; try discriminate.
        destruct (hex4 h1 h2 h3 h4); [|discriminate].
        destruct (parse_string_body s) as [[t' r']|] eqn:E; [|discriminate].
        injection H as _ <-. apply IH in E; simpl in *; lia.
      * destruct (simple_escape x); [|discriminate].
        destruct (parse_string_body s) as [[t' r']|] eqn:E; [|discriminate].
        injection H as _ <-. apply IH in E; simpl in *; lia.
    + destruct (c <? 32)%N; [discriminate|].
      destruct (parse_string_body s) as [[t' r']|] eqn:E; [|discriminate].
      injection H as _ <-. apply IH in E; simpl in *; lia.
Qed.

Lemma parse_string_body_length (s t r : jsstring) :
  parse_string_body s = Some (t, r) -> (length r < length s)%nat.
Proof. apply (parse_string_body_bounded (length s)). lia. Qed.

Lemma span_digits_length (s ds r : jsstring) :
  span_digits s = (ds, r) -> length s = (length ds + length r)%nat.
Proof.
  revert ds r. induction s as [|c s IH]; intros ds r H; simpl in H.
  - injection H as <- <-. reflexivity.
  - destruct (is_digit c).
    + destruct (span_digits s) as [ds' r'] eqn:E.
      injection H as <- <-. simpl. rewrite (IH ds' r' eq_refl). lia.
    + injection H as <- <-. reflexivity.
Qed.

Lemma parse_fraction_length (s fs r : jsstring) :
  parse_fraction s = Some (fs, r) -> (length r <= length s)%nat.
Proof.
  unfold parse_fraction. destruct s as [|c s]; [intros [= _ <-]; lia|].
  destruct (c =? 46)%N.
  - destruct (span_digits s) as [[|d ds] r'] eqn:E; [discriminate|].
    intros [= _ <-]. apply span_digits_length in E. simpl in *. lia.
  - intros [= _ <-]. lia.
Qed.

Lemma parse_exponent_length (s r : jsstring) (x : Z) :
  parse_exponent s = Some (x, r) -> (length r <= length s)%nat.
Proof.
  unfold parse_exponent. destruct s as [|c s]; [intros [= _ <-]; lia|].
  destruct ((c =? 101) || (c =? 69))%N; [|intros [= _ <-]; lia].
  assert (Hsign : (length (snd (parse_sign s)) <= length s)%nat).
  { unfold parse_sign. destruct s as [|c' s']; [simpl; lia|].
    destruct (c' =? 45)%N; [simpl; lia|].
    destruct (c' =? 43)%N; simpl; lia. }
  destruct (parse_sign s) as [neg r1]. cbn [snd] in Hsign.
  destruct (span_digits r1) as [[|d ds] r2] eqn:E; [discriminate|].
  intros [= _ <-]. apply span_digits_length in E. simpl in *. lia.
Qed.

Lemma parse_number_length (s r : jsstring) (v : value) :
  parse_number s = Some (v, r) -> (length r < length s)%nat.
Proof.
  unfold parse_number.
  set (signed := match s with
                 | c :: r0 => if (c =? 45)%N then (true, r0) else (false, s)
                 | [] => (false, s)
                 end).
  assert (Hsign : (length (snd signed) <= length s)%nat).
  { subst signed. destruct s as [|c s']; [simpl; lia|].
    destruct (c =? 45)%N; simpl; lia. }
  destruct signed as [neg s1]. cbn [snd] in Hsign.
  destruct (span_digits s1) as [[|d ds] s2] eqn:E; [discriminate|].
  destruct ((d =? 48)%N && _); [discriminate|].
  destruct (parse_fraction s2) as [[fs s3]|] eqn:Ef; [|discriminate].
  destruct (parse_exponent s3) as [[x s4]|] eqn:Ee; [|discriminate].
  intros [= _ <-].
  apply span_digits_length in E. apply parse_fraction_length in Ef.
  apply parse_exponent_length in Ee. simpl in *. lia.
Qed.

Lemma strip_prefix_length (p s r : jsstring) :
  strip_prefix p s = Some r -> (length r <= length s)%nat.
Proof.
  revert s. induction p as [|x p IH]; intros s H; simpl in H.
  - injection H as <-. lia.
  - destruct s as [|y s]; [discriminate|].
    destruct (x =? y)%N; [|discriminate].
    apply IH in H. simpl. lia.
Qed.

End Fuel.

(** Takes a hypothesis about one step of a reader apart, case by case. *)
Ltac crack H :=
  repeat match type of H with
         | context [match ?x with _ => _ end] =>
             let E := fresh "E" in destruct x eqn:E; try discriminate H
         end.

(** Turns what is known about the readers into facts about lengths. *)
Ltac lengths :=
  repeat match goal with
         | E : skip_ws _ = _ |- _ => apply skip_ws_length in E
         | E : parse_string_body _ = Some _ |- _ =>
             apply parse_string_body_length in E
         | E : parse_number _ = Some _ |- _ => apply parse_number_length in E
         | E : strip_prefix _ _ = Some _ |- _ => apply strip_prefix_length in E
         end;
  cbn [length] in *.

Section FuelEnough.

Lemma parse_consumes (fuel : nat) :
  (forall s v r, parse_value fuel s = Parsed v r -> (length r < length s)%nat)
  /\ (forall acc s v r,
         parse_members fuel acc s = Parsed v r -> (length r < length s)%nat)
  /\ (forall acc s v r,
         parse_elements fuel acc s = Parsed v r -> (length r < length s)%nat).
Proof.
  induction fuel as [|fuel (IHv & IHm & IHe)].
  - repeat split; intros; discriminate.
  - repeat split.
    + intros s v r H. cbn [parse_value] in H. crack H;
        try (injection H as <- <-);
        try (apply IHm in H); try (apply IHe in H);
        lengths; lia.
    + intros acc s v r H. cbn [parse_members] in H. crack H;
        try (injection H as <- <-);
        try (apply IHm in H);
        repeat match goal with
               | E : parse_value fuel _ = Parsed _ _ |- _ => apply IHv in E
               end;
        lengths; lia.
    + intros acc s v r H. cbn [parse_elements] in H. crack H;
        try (injection H as <- <-);
        try (apply IHe in H);
        repeat match goal with
               | E : parse_value fuel _ = Parsed _ _ |- _ => apply IHv in E
               end;
        lengths; lia.
Qed.

Lemma parse_enough_fuel (fuel : nat) :
  (forall s, (2 * length s + 2 <= fuel)%nat -> parse_value fuel s <> OutOfFuel)
  /\ (forall acc s,
         (2 * length s + 1 <= fuel)%nat ->
         parse_members fuel acc s <> OutOfFuel)
  /\ (forall acc s,
         (2 * length s + 3 <= fuel)%nat ->
         parse_elements fuel acc s <> OutOfFuel).
Proof.
  induction fuel as [|fuel (IHv & IHm & IHe)].
  - repeat split; intros; lia.
  - pose proof (parse_consumes fuel) as (Cv & Cm & Ce).
    repeat split.
    + intros s Hs H. cbn [parse_value] in H. crack H.
      * apply IHm in H; [exact H|]. lengths. lia.
      * apply IHe in H; [exact H|]. lengths. lia.
    + intros acc s Hs H. cbn [parse_members] in H. crack H.
      * apply IHm in H; [exact H|].
        repeat match goal with
               | E : parse_value fuel _ = Parsed _ _ |- _ => apply Cv in E
               end.
        lengths. lia.
      * match goal with
        | E : parse_value fuel _ = OutOfFuel |- _ =>
            apply IHv in E; [exact E|]
        end.
        lengths. lia.
    + intros acc s Hs H. cbn [parse_elements] in H. crack H.
      * apply IHe in H; [exact H|].
        repeat match goal with
               | E : parse_value fuel _ = Parsed _ _ |- _ => apply Cv in E
               end.
        lengths. lia.
      * match goal with
        | E : parse_value fuel _ = OutOfFuel |- _ =>
            apply IHv in E; [exact E|]
        end.
        lia.
Qed.

(** [JSON_parse] fails only on text that is not JSON: with the fuel it
    supplies, the reader ends in a value or in a syntax error. *)
Lemma JSON_parse_fuel (text : jsstring) :
  parse_value (2 * length text + 2) text <> OutOfFuel.
Proof. apply parse_enough_fuel. lia. Qed.

End FuelEnough.

(** ** The handoff from the map *)

Section WorldOnly.

(** An observation of the component alone is untouched by what only
    changes the world. *)
Context {S X : Type} (f : S -> world -> X).
Hypothesis f_world : forall s w w', f s w' = f s w.


End WorldOnly.


Section Handoff.

Import ReservationPage.

Variable B : browser.
Variable user : value.
Variable loc : location.



















End Handoff.

(** ** The store across failures of the storage *)

Section StoreMore.

Import ReservationContext.

Variable B : browser.
Variable S : Type.

(** X1.  Clearing the store survives a reload: when the removal from
    [localStorage] goes through, the slot is empty, and the provider of
    the next process, whatever its browser, finds nothing to restore and
    keeps its cell null. *)
Theorem clear_survives_reload (B' : browser) (s s' : S) (w : world) :
  storage_fault B RemoveItem = None ->
  exists w1 : world,
    setLatestReservation B VNull s w = (Done tt, s, w1)
    /\ useReservation w1 = VNull
    /\ slot w1 = None
    /\ hydrate B' s' (startup (slot w1)) = (Done tt, s', startup None)
    /\ useReservation (startup None) = VNull.
Proof.
  intros Hrm.
  unfold setLatestReservation, setLatestReservationState, try_catch, bind,
    localStorage_removeItem.
  cbn [truthy]. rewrite Hrm. eexists.
  split; [reflexivity|]. split; [reflexivity|]. split; [reflexivity|].
  split; [|reflexivity].
  cbn [slot]. unfold hydrate, try_catch, bind, localStorage_getItem.
  destruct (storage_fault B' GetItem); reflexivity.
Qed.


End StoreMore.

Lemma clear_survives_reload_witness :
  exists w1 : world,
    ReservationContext.setLatestReservation offline VNull tt
      (ReservationContext.startup
         (JSON_stringify (ReservationContext.to_value sample_snapshot)))
    = (Done tt, tt, w1)
    /\ ReservationContext.useReservation w1 = VNull
    /\ slot w1 = None
    /\ ReservationContext.hydrate full_storage tt
         (ReservationContext.startup (slot w1))
       = (Done tt, tt, ReservationContext.startup None)
    /\ ReservationContext.useReservation (ReservationContext.startup None)
       = VNull.
Proof.
  apply (clear_survives_reload offline unit full_storage tt tt
           (ReservationContext.startup
              (JSON_stringify (ReservationContext.to_value sample_snapshot)))).
  reflexivity.
Defined.


(** ** Handlers that end, and what they keep *)

Section Keeps.

Context {S : Type} (P : S -> Prop).

Lemma keeps_ret {A : Type} (a : A) : keeps P (@ret S A a).
Proof. intros s w H. exact H. Qed.

Lemma keeps_throw {A : Type} (e : exn) : keeps P (@throw S A e).
Proof. intros s w H. exact H. Qed.

Lemma keeps_of_outcome {A : Type} (o : outcome A) : keeps P (@of_outcome S A o).
Proof. intros s w H. exact H. Qed.

Lemma keeps_bind {A C : Type} (m : M S A) (k : A -> M S C) :
  keeps P m -> (forall a, keeps P (k a)) -> keeps P (bind m k).
Proof.
  intros Hm Hk s w H. unfold bind. specialize (Hm s w H).
  destruct (m s w) as [[[a|e] s1] w1]; [|exact Hm].
  exact (Hk a s1 w1 Hm).
Qed.

Lemma keeps_try_catch {A : Type} (m : M S A) (h : exn -> M S A) :
  keeps P m -> (forall e, keeps P (h e)) -> keeps P (try_catch m h).
Proof.
  intros Hm Hh s w H. unfold try_catch. specialize (Hm s w H).
  destruct (m s w) as [[[a|e] s1] w1]; [exact Hm|].
  exact (Hh e s1 w1 Hm).
Qed.

Lemma keeps_try_finally {A : Type} (m : M S A) (fin : M S unit) :
  keeps P m -> keeps P fin -> keeps P (try_finally m fin).
Proof.
  intros Hm Hfin s w H. unfold try_finally. specialize (Hm s w H).
  destruct (m s w) as [[r s1] w1].
  specialize (Hfin s1 w1 Hm). destruct (fin s1 w1) as [[[u|e] s2] w2]; exact Hfin.
Qed.

(** A [finally] that establishes [P] on its own. *)
Lemma keeps_finally {A : Type} (m : M S A) (g : S -> S) :
  (forall s, P (g s)) -> keeps P (try_finally m (modify g)).
Proof.
  intros Hg s w _. unfold try_finally, modify.
  destruct (m s w) as [[r s1] w1]. apply Hg.
Qed.

Lemma keeps_when (b : bool) (m : M S unit) : keeps P m -> keeps P (when b m).
Proof. destruct b; [trivial|]. intros _. apply keeps_ret. Qed.

Lemma keeps_modify (g : S -> S) :
  (forall s, P s -> P (g s)) -> keeps P (modify g).
Proof. intros Hg s w H. exact (Hg s H). Qed.

Lemma keeps_log_event (ev : event) : keeps P (@log_event S ev).
Proof. intros s w H. exact H. Qed.

Lemma keeps_fetch (B : browser) (r : request) : keeps P (@fetch B S r).
Proof. intros s w H. unfold fetch. destruct (net B (trace w) r); exact H. Qed.

Lemma keeps_json (B : browser) (res : response) : keeps P (@json B S res).
Proof.
  unfold json, parse_json.
  destruct (JSON_parse _); [apply keeps_ret | apply keeps_throw].
Qed.

Lemma keeps_setLatestReservation (B : browser) (r : value) :
  keeps P (ReservationContext.setLatestReservation B (S := S) r).
Proof.
  intros s w H.
  destruct (setLatestReservation_cell B S r s w) as (w' & -> & _). exact H.
Qed.

End Keeps.

(** Splits a handler into its parts, down to the setters and the handlers
    it calls, for which a lemma is at hand. *)
Ltac keep_step :=
  lazymatch goal with
  | H : keeps ?P ?m |- keeps ?P ?m => exact H
  | |- keeps _ (ret _) => apply keeps_ret
  | |- keeps _ (throw _) => apply keeps_throw
  | |- keeps _ (of_outcome _) => apply keeps_of_outcome
  | |- keeps _ (json _ _) => apply keeps_json
  | |- keeps _ (fetch _ _) => apply keeps_fetch
  | |- keeps _ (log_event _) => apply keeps_log_event
  | |- keeps _ (ReservationContext.setLatestReservation _ _) =>
      apply keeps_setLatestReservation
  | |- keeps _ (modify _) => apply keeps_modify; now intros
  | |- keeps _ (bind _ _) => apply keeps_bind; [|intros]
  | |- keeps _ (try_catch _ _) => apply keeps_try_catch; [|intros]
  | |- keeps _ (try_finally _ (modify _)) =>
      first [ apply keeps_finally; now intros | apply keeps_try_finally ]
  | |- keeps _ (try_finally _ _) => apply keeps_try_finally
  | |- keeps _ (when _ _) => apply keeps_when
  | |- keeps _ (if ?b then _ else _) => destruct b
  | |- keeps _ (match ?x with _ => _ end) => destruct x
  end.

Section Returns.

Context {S : Type}.

Lemma returns_ret : returns (@ret S unit tt).
Proof. intros s w. now exists s, w. Qed.

Lemma returns_modify (g : S -> S) : returns (modify g).
Proof. intros s w. now exists (g s), w. Qed.

Lemma returns_log_event (ev : event) : returns (@log_event S ev).
Proof. intros s w. now exists s, (after w ev). Qed.

Lemma returns_bind (m k : M S unit) :
  returns m -> returns k -> returns (bind m (fun _ => k)).
Proof.
  intros Hm Hk s w. unfold bind.
  destruct (Hm s w) as (s1 & w1 & ->). apply Hk.
Qed.

Lemma returns_when (b : bool) (m : M S unit) : returns m -> returns (when b m).
Proof. destruct b; [trivial|]. intros _. apply returns_ret. Qed.

(** A [catch] whose handler returns swallows whatever the body throws. *)
Lemma returns_try_catch (m : M S unit) (h : exn -> M S unit) :
  (forall e, returns (h e)) -> returns (try_catch m h).
Proof.
  intros Hh s w. unfold try_catch.
  destruct (m s w) as [[[[]|e] s1] w1]; [now exists s1, w1|apply Hh].
Qed.

Lemma returns_try_finally (m fin : M S unit) :
  returns m -> returns fin -> returns (try_finally m fin).
Proof.
  intros Hm Hfin s w. unfold try_finally.
  destruct (Hm s w) as (s1 & w1 & ->).
  destruct (Hfin s1 w1) as (s2 & w2 & ->). now exists s2, w2.
Qed.

End Returns.

Ltac return_step :=
  first
    [ apply returns_ret
    | apply returns_modify
    | apply returns_log_event
    | apply returns_try_finally
    | apply returns_try_catch; intros
    | apply returns_bind
    | apply returns_when
    | match goal with
      | |- returns (if ?b then _ else _) => destruct b
      end ].

Section Busy.

Import ReservationPage.

Variable B : browser.
Variable user : value.

Lemma fetchUserReservations_returns : returns (fetchUserReservations B user).
Proof.
  unfold fetchUserReservations, console_error, setLoadingReservations.
  repeat return_step.
Qed.

Lemma loadStations_returns : returns (loadStations B).
Proof.
  unfold loadStations, setStationsError, setStationsLoading.
  repeat return_step.
Qed.

Lemma handleReserve_returns (c : page) : returns (handleReserve B user c).
Proof.
  unfold handleReserve, setSubmitError, setIsSubmitting.
  repeat return_step.
Qed.

Lemma keeps_idle {A : Type} (m : M page A) :
  keeps (fun p => stationsLoading p = false) m ->
  keeps (fun p => isSubmitting p = false) m ->
  keeps (fun p => loadingReservations p = false) m ->
  keeps idle m.
Proof.
  intros K1 K2 K3 p w (H1 & H2 & H3).
  specialize (K1 p w H1). specialize (K2 p w H2). specialize (K3 p w H3).
  destruct (m p w) as [[r p'] w']. now repeat split.
Qed.

Lemma fetchUserReservations_flags :
  keeps (fun p => stationsLoading p = false) (fetchUserReservations B user)
  /\ keeps (fun p => isSubmitting p = false) (fetchUserReservations B user)
  /\ keeps (fun p => loadingReservations p = false)
           (fetchUserReservations B user).
Proof.
  unfold fetchUserReservations, console_error, setUserReservations,
    setLoadingReservations.
  destruct (negb _); [split; [|split]; apply keeps_ret|].
  split; [|split]; repeat keep_step.
Qed.

Lemma fetchUserReservations_idle : keeps idle (fetchUserReservations B user).
Proof.
  destruct fetchUserReservations_flags as (K1 & K2 & K3).
  now apply keeps_idle.
Qed.

Lemma loadStations_idle : keeps idle (loadStations B).
Proof.
  apply keeps_idle;
    unfold loadStations, setStations, setStationsError, setStationsLoading;
    repeat keep_step.
Qed.

Lemma handleReserve_idle (c : page) : keeps idle (handleReserve B user c).
Proof.
  destruct fetchUserReservations_flags as (K1 & K2 & K3).
  apply keeps_idle;
    unfold handleReserve, setSubmitError, setIsSubmitting, setLastResponse,
      setReceiptOpen;
    repeat keep_step.
Qed.

Lemma handleCancelReservation_returns (id : value) :
  returns (ReservationManage.handleCancelReservation B user id).
Proof.
  unfold ReservationManage.handleCancelReservation, console_error.
  repeat return_step.
Qed.

Lemma handleCancelReservation_idle (id : value) :
  keeps idle (ReservationManage.handleCancelReservation B user id).
Proof.
  destruct fetchUserReservations_flags as (K1 & K2 & K3).
  apply keeps_idle;
    unfold ReservationManage.handleCancelReservation, console_error;
    repeat keep_step.
Qed.

End Busy.
(** ** The answers to a reservation *)

Section ReserveAnswers.

Import ReservationPage.

Variable B : browser.
Variable user : value.




(** X4.  A reservation that does not reach the server: when the request
    is rejected, the message shown is that of the error, or a fixed one
    when what was thrown is not an Error.  Nothing else changes, and the
    button is enabled again. *)
Theorem handleReserve_unreachable (c p : page) (w : world) (e : exn) :
  date c <> [] -> timeSlot c <> [] -> truthy (stationId c) = true ->
  net B (trace w) (reserve_request user c) = Rejected e ->
  exists p' : page,
    handleReserve B user c p w
    = (Done tt, p', after w (Fetch (reserve_request user c)))
    /\ submitError p' = Some (message_or e (str "Failed to reserve bike"))
    /\ isSubmitting p' = false
    /\ receiptOpen p' = receiptOpen p
    /\ lastResponse p' = lastResponse p
    /\ userReservations p' = userReservations p.
Proof.
  intros Hd Ht Hs Hnet. unfold handleReserve.
  destruct (date c); [contradiction|].
  destruct (timeSlot c); [contradiction|].
  rewrite Hs.
  unfold try_finally, try_catch, bind, fetch, json, parse_json.
  cbn -[fetchUserReservations latest_of reserve_request get_field].
  rewrite Hnet. cbn. eexists. repeat split.
Qed.



End ReserveAnswers.


Lemma handleReserve_unreachable_witness :
  exists p' : ReservationPage.page,
    ReservationPage.handleReserve offline VNull
      (filled (str "S1")) (filled (str "S1"))
      (ReservationContext.startup None)
    = (Done tt, p',
       after (ReservationContext.startup None)
             (Fetch (ReservationPage.reserve_request VNull (filled (str "S1")))))
    /\ ReservationPage.submitError p' = Some (str "Failed to fetch")
    /\ ReservationPage.isSubmitting p' = false
    /\ ReservationPage.receiptOpen p' = false
    /\ ReservationPage.lastResponse p' = VNull
    /\ ReservationPage.userReservations p' = VArr [].
Proof.
  apply (handleReserve_unreachable offline VNull
           (filled (str "S1")) (filled (str "S1"))
           (ReservationContext.startup None)
           (ErrorExn (str "Failed to fetch"))).
  - discriminate.
  - discriminate.
  - reflexivity.
  - reflexivity.
Defined.


Section NullAnswer.

Import ReservationPage.

Variable B : browser.
Variable user : value.

(** X7.  A success status with the body null.  With the form filled
    in, the handler has already stored the answer and opened the receipt
    when building the snapshot throws: the receipt is open on nothing,
    the error shown is the message of the engine's TypeError, and the
    store and the list are as before.  The button is enabled again. *)
Theorem handleReserve_null_answer (c p : page) (w : world) (res : response) :
  date c <> [] -> timeSlot c <> [] -> truthy (stationId c) = true ->
  net B (trace w) (reserve_request user c) = Responded res ->
  ok res = true ->
  JSON_parse (body res) = Some VNull ->
  exists p' : page,
    handleReserve B user c p w
    = (Done tt, p', after w (Fetch (reserve_request user c)))
    /\ receiptOpen p' = true
    /\ lastResponse p' = VNull
    /\ submitError p'
       = Some (message_or (type_error B (str "reservation_id"))
                          (str "Failed to reserve bike"))
    /\ isSubmitting p' = false
    /\ userReservations p' = userReservations p.
Proof.
  intros Hd Ht Hs Hnet Hok Hbody. unfold handleReserve.
  destruct (date c); [contradiction|].
  destruct (timeSlot c); [contradiction|].
  rewrite Hs.
  unfold try_finally, try_catch, bind, fetch, json, parse_json.
  cbn -[fetchUserReservations reserve_request].
  rewrite Hnet, Hbody. cbn -[fetchUserReservations reserve_request].
  rewrite Hok. cbn. eexists. repeat split.
Qed.

End NullAnswer.

Lemma handleReserve_null_answer_witness :
  exists p' : ReservationPage.page,
    ReservationPage.handleReserve (replying 200 (str "null")) a_user
      (filled (str "S1")) (filled (str "S1"))
      (ReservationContext.startup None)
    = (Done tt, p',
       after (ReservationContext.startup None)
             (Fetch (ReservationPage.reserve_request a_user
                       (filled (str "S1")))))
    /\ ReservationPage.receiptOpen p' = true
    /\ ReservationPage.lastResponse p' = VNull
    /\ ReservationPage.submitError p'
       = Some (str "Cannot read properties of null")
    /\ ReservationPage.isSubmitting p' = false
    /\ ReservationPage.userReservations p' = VArr [].
Proof.
  apply (handleReserve_null_answer (replying 200 (str "null")) a_user
           (filled (str "S1")) (filled (str "S1"))
           (ReservationContext.startup None)
           {| status := 200; body := str "null" |}).
  - discriminate.
  - discriminate.
  - reflexivity.
  - reflexivity.
  - reflexivity.
  - vm_compute. reflexivity.
Defined.
(** ** Cancelling and editing a reservation *)

Section OnPage.

Import ReservationPage ReservationManage.

Lemma preserves_on_page {A X : Type} (f : page -> world -> X) (m : M page A) :
  preserves f m ->
  preserves (fun (s : component) w => f (cells_of s) w) (on_page m).
Proof.
  intros Hm s w. unfold on_page. specialize (Hm (cells_of s) w).
  destruct (m (cells_of s) w) as [[r p] w']. exact Hm.
Qed.

Lemma returns_on_page (m : M page unit) : returns m -> returns (on_page m).
Proof.
  intros Hm s w. unfold on_page.
  destruct (Hm (cells_of s) w) as (p & w' & ->). eexists. eexists. reflexivity.
Qed.

End OnPage.

Section Manage.

Import ReservationPage ReservationManage.

Variable B : browser.
Variable user : value.

Lemma fetchUserReservations_keeps_store :
  preserves (fun (_ : page) w => (latestReservation w, slot w))
            (fetchUserReservations B user).
Proof. unfold fetchUserReservations. frame; now apply preserves_modify. Qed.


Lemma handleEditReservation_returns (d : dialog) :
  returns (handleEditReservation B user d).
Proof.
  unfold handleEditReservation, setSubmitError, setIsSubmitting.
  destruct (_ || _); [apply returns_ret|].
  repeat first [ apply returns_on_page | return_step ].
Qed.

(** X9.  The store is not told.  A cancellation and an update of a
    reservation leave the latest-reservation store alone, whatever the
    server answers: the cell and the slot are as before, so a snapshot of
    the reservation that was just cancelled or changed stays as it was
    stored. *)
Theorem cancel_and_edit_keep_the_store :
  (forall id : value,
      preserves (fun (_ : page) w => (latestReservation w, slot w))
                (handleCancelReservation B user id))
  /\ (forall d : dialog,
         preserves (fun (_ : component) w => (latestReservation w, slot w))
                   (handleEditReservation B user d)).
Proof.
  pose proof fetchUserReservations_keeps_store as Hlist.
  split.
  - intros id. unfold handleCancelReservation, console_error.
    destruct (negb _); [apply preserves_ret|].
    apply preserves_try_catch; [|intros; now apply preserves_log_event].
    apply preserves_bind; [apply preserves_of_outcome|intros email].
    apply preserves_bind; [now apply preserves_fetch|intros res].
    destruct (negb _); [apply preserves_throw|exact Hlist].
  - intros d. unfold handleEditReservation.
    pose proof (preserves_on_page
                  (fun (_ : page) w => (latestReservation w, slot w))
                  (fetchUserReservations B user) Hlist) as Hlist'.
    assert (Hset : forall m : M page unit,
               preserves (fun (_ : page) w => (latestReservation w, slot w)) m ->
               preserves (fun (_ : component) w => (latestReservation w, slot w))
                         (on_page m)).
    { intros m Hm.
      exact (preserves_on_page
               (fun (_ : page) w => (latestReservation w, slot w)) m Hm). }
    assert (Hmod : forall g : page -> page,
               preserves (fun (_ : component) w => (latestReservation w, slot w))
                         (on_page (modify g))).
    { intros g. apply Hset. now apply preserves_modify. }
    assert (Hdlg : forall g : dialog -> dialog,
               preserves (fun (_ : component) w => (latestReservation w, slot w))
                         (on_dialog g)).
    { intros g. now apply preserves_modify. }
    unfold setSubmitError, setIsSubmitting, setEditDialogOpen,
      setEditingReservation.
    destruct (_ || _); [apply preserves_ret|].
    destruct (negb _); [apply Hmod|].
    destruct (negb _); [apply Hmod|].
    destruct (negb _); [apply Hmod|].
    apply preserves_try_finally; [|apply Hmod].
    apply preserves_try_catch; [|intros; apply Hmod].
    apply preserves_bind; [apply Hmod|intros _].
    apply preserves_bind; [apply Hmod|intros _].
    apply preserves_bind; [apply preserves_of_outcome|intros id].
    apply preserves_bind; [now apply preserves_fetch|intros res].
    apply preserves_bind.
    + destruct (negb _); [|apply preserves_ret].
      apply preserves_bind.
      * apply preserves_try_catch; [apply preserves_json; now intros|].
        intros. apply preserves_ret.
      * intros data.
        apply preserves_bind; [apply preserves_of_outcome|].
        intros. apply preserves_throw.
    + intros _.
      apply preserves_bind; [apply Hdlg|intros _].
      apply preserves_bind; [apply Hdlg|intros _].
      exact Hlist'.
Qed.

(** X10.  An update is validated before anything is sent.  Without a
    user email, or with no reservation being edited, the handler returns
    and nothing changes, not even a message.  Otherwise, when the date,
    the time slot or the station of the dialog is unset, no request is
    sent and the only cell that changes is the error, which becomes the
    message of a selection that is missing. *)
Theorem handleEditReservation_validates_locally (d : dialog) (s : component)
        (w : world) :
  (truthy (opt_field user (str "email")) = false
   \/ truthy (editingReservation d) = false ->
   handleEditReservation B user d s w = (Done tt, s, w))
  /\ (truthy (opt_field user (str "email")) = true ->
      truthy (editingReservation d) = true ->
      missing TheDate d \/ missing TheTimeSlot d \/ missing TheStation d ->
      exists f : selection,
        missing f d
        /\ handleEditReservation B user d s w
           = (Done tt, with_error (Some (validation_message f)) s, w)).
Proof.
  split.
  - intros H. unfold handleEditReservation.
    destruct H as [-> | ->]; [reflexivity|].
    now rewrite orb_true_r.
  - intros Hid Hres H. unfold handleEditReservation.
    rewrite Hid, Hres. cbn [negb orb].
    destruct (truthy (editDate d)) eqn:Hd; cbn [negb].
    2:{ exists TheDate. split; [exact Hd|reflexivity]. }
    destruct (truthy (editTimeSlot d)) eqn:Ht; cbn [negb].
    2:{ exists TheTimeSlot. split; [exact Ht|reflexivity]. }
    destruct (truthy (editStationId d)) eqn:Hs; cbn [negb].
    2:{ exists TheStation. split; [exact Hs|reflexivity]. }
    exfalso. unfold missing in H. rewrite Hd, Ht, Hs in H.
    destruct H as [H|[H|H]]; discriminate.
Qed.






End Manage.


Lemma handleEditReservation_validates_locally_witness :
  ReservationManage.handleEditReservation offline VNull editing listing
    (ReservationContext.startup None)
  = (Done tt, listing, ReservationContext.startup None)
  /\ exists f : selection,
       missing f
         (ReservationManage.with_editStationId (VStr []) editing)
       /\ ReservationManage.handleEditReservation offline a_user
            (ReservationManage.with_editStationId (VStr []) editing) listing
            (ReservationContext.startup None)
          = (Done tt, with_error (Some (validation_message f)) listing,
             ReservationContext.startup None).
Proof.
  split.
  - apply (proj1 (handleEditReservation_validates_locally offline VNull
                    editing listing (ReservationContext.startup None))).
    left. reflexivity.
  - apply (proj2 (handleEditReservation_validates_locally offline a_user
                    (ReservationManage.with_editStationId (VStr []) editing)
                    listing (ReservationContext.startup None))).
    + reflexivity.
    + reflexivity.
    + right; right. reflexivity.
Defined.



(** ** The regular expression of the contact form *)

Section Matcher.

Import RegExp.

(** A match is never empty. *)
Lemma matches_nonempty (r : pattern) (s : jsstring) : matches r s -> s <> [].
Proof.
  induction 1 as [p c Hc|a b s t _ IHs _ _|a s _ IH|a s t _ IHs _ _].
  - discriminate.
  - destruct s; [now elim IHs|discriminate].
  - exact IH.
  - destruct s; [now elim IHs|discriminate].
Qed.

(** The matcher finds every match that the fuel allows for. *)
Lemma step_match_complete (r : pattern) (s1 : jsstring) :
  matches r s1 ->
  forall (fuel : nat) (s2 : jsstring) (k : jsstring -> bool),
    (length s1 <= fuel)%nat -> k s2 = true ->
    step_match (attempt fuel) r (s1 ++ s2) k = true.
Proof.
  induction 1 as [p c Hc|a b s t _ IHs _ IHt|a s _ IH|a s t Hs IHs _ IHt];
    intros fuel s2 k Hfuel Hk.
  - cbn. now rewrite Hc, Hk.
  - cbn [step_match]. rewrite <- app_assoc.
    rewrite length_app in Hfuel.
    apply IHs; [lia|]. apply IHt; [lia|exact Hk].
  - cbn [step_match]. apply IH; [exact Hfuel|].
    rewrite Hk. apply orb_true_r.
  - cbn [step_match]. rewrite <- app_assoc.
    rewrite length_app in Hfuel.
    pose proof (matches_nonempty _ _ Hs) as Hne.
    assert (0 < length s)%nat by (destruct s; [now elim Hne|cbn; lia]).
    apply IHs; [lia|].
    destruct fuel as [|fuel]; [lia|].
    cbn [attempt]. rewrite IHt; [reflexivity|lia|exact Hk].
Qed.

(** What the matcher finds is a match followed by what the continuation
    accepts. *)
Lemma step_match_sound (fuel : nat) :
  forall (r : pattern) (s : jsstring) (k : jsstring -> bool),
    step_match (attempt fuel) r s k = true ->
    exists s1 s2 : jsstring, s = s1 ++ s2 /\ matches r s1 /\ k s2 = true.
Proof.
  induction fuel as [|fuel IHfuel];
    induction r as [p|a IHa b IHb|a IHa]; intros s k H; cbn [step_match] in H.
  - destruct s as [|c t]; [discriminate|].
    apply andb_true_iff in H as [Hc Hk].
    exists [c], t. repeat split; [now constructor|exact Hk].
  - apply IHa in H as (s1 & s2 & -> & Hs1 & H).
    apply IHb in H as (t1 & t2 & -> & Ht1 & H).
    exists (s1 ++ t1), t2. rewrite app_assoc.
    repeat split; [now constructor|exact H].
  - apply IHa in H as (s1 & s2 & -> & Hs1 & H). cbn [attempt orb] in H.
    exists s1, s2. repeat split; [now apply matches_once|exact H].
  - destruct s as [|c t]; [discriminate|].
    apply andb_true_iff in H as [Hc Hk].
    exists [c], t. repeat split; [now constructor|exact Hk].
  - apply IHa in H as (s1 & s2 & -> & Hs1 & H).
    apply IHb in H as (t1 & t2 & -> & Ht1 & H).
    exists (s1 ++ t1), t2. rewrite app_assoc.
    repeat split; [now constructor|exact H].
  - apply IHa in H as (s1 & s2 & -> & Hs1 & H).
    apply orb_true_iff in H as [H|H].
    + cbn [attempt] in H. apply IHfuel in H as (t1 & t2 & -> & Ht1 & H).
      exists (s1 ++ t1), t2. rewrite app_assoc.
      repeat split; [now apply matches_more|exact H].
    + exists s1, s2. repeat split; [now apply matches_once|exact H].
Qed.

(** [test] finds a match exactly when some part of the string is one. *)
Lemma match_at_spec (r : pattern) (s : jsstring) :
  match_at r s = true <-> exists s1 s2, s = s1 ++ s2 /\ matches r s1.
Proof.
  unfold match_at. cbn [attempt]. split.
  - intros H. apply step_match_sound in H as (s1 & s2 & -> & H & _).
    now exists s1, s2.
  - intros (s1 & s2 & -> & H).
    apply step_match_complete; [exact H| |reflexivity].
    rewrite length_app. lia.
Qed.

Lemma test_spec (r : pattern) (s : jsstring) :
  test r s = true
  <-> exists pre m post, s = pre ++ m ++ post /\ matches r m.
Proof.
  induction s as [|c t IH]; cbn [test]; rewrite orb_true_iff, match_at_spec.
  - split.
    + intros [(s1 & s2 & H & Hm)|H]; [|discriminate].
      now exists [], s1, s2.
    + intros (pre & m & post & H & Hm). left.
      destruct pre; [|discriminate]. now exists m, post.
  - rewrite IH. split.
    + intros [(s1 & s2 & H & Hm)|(pre & m & post & -> & Hm)].
      * now exists [], s1, s2.
      * now exists (c :: pre), m, post.
    + intros (pre & m & post & H & Hm).
      destruct pre as [|c' pre].
      * left. now exists m, post.
      * right. injection H as -> ->. now exists pre, m, post.
Qed.

(** One or more code units of a class. *)
Lemma matches_plus_unit (p : code_unit -> bool) (s : jsstring) :
  matches (Plus (Unit p)) s <-> s <> [] /\ forallb p s = true.
Proof.
  split.
  - intros H. remember (Plus (Unit p)) as r eqn:Hr.
    induction H as [q c Hc|a b s t _ _ _ _|a s Hs _|a s t Hs _ Ht IHt];
      try discriminate; injection Hr as ->.
    + inversion Hs; subst. split; [discriminate|]. cbn. now rewrite H0.
    + inversion Hs; subst. destruct (IHt eq_refl) as [_ Hall].
      split; [discriminate|]. cbn. now rewrite H0, Hall.
  - intros [Hne Hall]. induction s as [|c t IH]; [now elim Hne|].
    cbn in Hall. apply andb_true_iff in Hall as [Hc Ht].
    destruct t as [|c' t'].
    + apply matches_once. now constructor.
    + apply (@matches_more (Unit p) [c] (c' :: t')); [now constructor|].
      apply IH; [discriminate|exact Ht].
Qed.

Lemma matches_lit (c : code_unit) (s : jsstring) :
  matches (lit c) s <-> s = [c].
Proof.
  unfold lit. split.
  - intros H. inversion H; subst. apply N.eqb_eq in H1. now subst.
  - intros ->. constructor. apply N.eqb_refl.
Qed.

Lemma matches_then_inv (a b : pattern) (s : jsstring) :
  matches (Then a b) s <-> exists s1 s2, s = s1 ++ s2 /\ matches a s1 /\ matches b s2.
Proof.
  split.
  - intros H. inversion H; subst. now exists s0, t.
  - intros (s1 & s2 & -> & H1 & H2). now constructor.
Qed.

End Matcher.

(** ** The contact form *)

Section Trim.

Lemma trimStart_nil (s : jsstring) :
  trimStart s = [] <-> forallb RegExp.is_space s = true.
Proof.
  induction s as [|c t IH]; cbn; [tauto|].
  destruct (RegExp.is_space c); cbn; [exact IH|].
  split; discriminate.
Qed.

Lemma trimStart_snoc (s : jsstring) (c : code_unit) :
  RegExp.is_space c = false -> trimStart (s ++ [c]) <> [].
Proof.
  intros Hc H. apply trimStart_nil in H.
  rewrite forallb_app in H. cbn in H. rewrite Hc in H.
  now rewrite andb_false_r in H.
Qed.

(** A string trims to nothing exactly when it is all white space. *)
Lemma trim_nil (s : jsstring) :
  trim s = [] <-> forallb RegExp.is_space s = true.
Proof.
  unfold trim, trimEnd. rewrite <- trimStart_nil. split.
  - intros H.
    destruct (trimStart s) as [|c t] eqn:Hs; [reflexivity|exfalso].
    assert (Hc : RegExp.is_space c = false).
    { destruct s as [|c' t']; [discriminate|]. revert Hs.
      induction (c' :: t') as [|a l IHl]; [discriminate|]. cbn.
      destruct (RegExp.is_space a) eqn:Ha; [exact IHl|].
      intros [= -> _]. exact Ha. }
    apply (f_equal (@rev N)) in H. rewrite rev_involutive in H. cbn in H.
    now apply (trimStart_snoc (rev t) c Hc).
  - intros ->. reflexivity.
Qed.

End Trim.

Section Address.

Import RegExp ContactPage.

(** The strings in which the pattern of the form finds a match. *)
Lemma email_pattern_test (s : jsstring) :
  test email_pattern s = true <-> has_address s.
Proof.
  unfold has_address, email_pattern.
  rewrite test_spec. split.
  - intros (pre & m & post & -> & Hm).
    apply matches_then_inv in Hm as (a & m1 & -> & Ha & Hm).
    apply matches_then_inv in Hm as (at_ & m2 & -> & Hat & Hm).
    apply matches_then_inv in Hm as (b & m3 & -> & Hb & Hm).
    apply matches_then_inv in Hm as (dot & c & -> & Hdot & Hc).
    apply matches_lit in Hat as ->. apply matches_lit in Hdot as ->.
    apply matches_plus_unit in Ha as [Hane Ha].
    apply matches_plus_unit in Hb as [Hbne Hb].
    apply matches_plus_unit in Hc as [Hcne Hc].
    destruct (exists_last Hane) as (a' & x & ->).
    destruct c as [|z c']; [now elim Hcne|].
    rewrite forallb_app in Ha. cbn in Ha, Hc.
    apply andb_true_iff in Ha as [_ Hx]. rewrite andb_true_r in Hx.
    apply andb_true_iff in Hc as [Hz _].
    exists (pre ++ a'), x, b, z, (c' ++ post).
    unfold not_space in Hx, Hz.
    repeat split.
    + rewrite <- ?app_assoc. cbn [app]. rewrite <- ?app_assoc. reflexivity.
    + now destruct (is_space x).
    + exact Hbne.
    + exact Hb.
    + now destruct (is_space z).
  - intros (pre & x & mid & z & post & -> & Hx & Hne & Hmid & Hz).
    exists pre, (([x] ++ [64%N]) ++ (mid ++ [46%N]) ++ [z]), post. split.
    + rewrite <- ?app_assoc. cbn [app]. rewrite <- ?app_assoc. reflexivity.
    + rewrite <- ?app_assoc.
      apply matches_then.
      { apply matches_plus_unit. split; [discriminate|].
        cbn. unfold not_space. now rewrite Hx. }
      apply (@matches_then (lit 64) _ [64%N]); [now apply matches_lit|].
      apply matches_then.
      { apply matches_plus_unit. now split. }
      apply (@matches_then (lit 46) _ [46%N]); [now apply matches_lit|].
      apply matches_plus_unit. split; [discriminate|].
      cbn. unfold not_space. now rewrite Hz.
Qed.

(** X14.  What [isValidEmail] accepts: the strings that contain, at any
    place, a code unit that is not white space, an at sign, one or more
    code units without white space, a full stop and a code unit that is
    not white space.  What comes before and after is not looked at, so
    a sentence with an address in it is accepted; a value that is not a
    string is judged by its conversion to one. *)
Theorem isValidEmail_shape (email : value) :
  isValidEmail email = true <-> has_address (to_string email).
Proof.
  unfold isValidEmail. apply email_pattern_test.
Qed.

End Address.

Section Contact.

Import ContactPage.

Variable B : browser.

Lemma has_address_not_blank (s : jsstring) :
  has_address s -> forallb RegExp.is_space s = false.
Proof.
  intros (pre & x & mid & z & post & -> & Hx & _).
  rewrite forallb_app. cbn. rewrite Hx. apply andb_false_r.
Qed.

Lemma not_blank_trim (s : jsstring) :
  forallb RegExp.is_space s = false <-> truthy (VStr (trim s)) = true.
Proof.
  pose proof (trim_nil s) as H. cbn.
  destruct (trim s); destruct (forallb RegExp.is_space s);
    intuition congruence.
Qed.

Lemma validate_accepts (c : form) :
  validate B c = Done None <-> acceptable c.
Proof.
  unfold validate, acceptable, trim_of.
  destruct (name c) as [| |b|m x|n|items|fields];
    try (split; [discriminate|intros ((n' & H & _) & _); discriminate]).
  destruct (truthy (VStr (trim n))) eqn:Hn; cbn [negb].
  2:{ split; [discriminate|].
      intros ((n' & [= <-] & Hblank) & _).
      apply not_blank_trim in Hblank. congruence. }
  destruct (email c) as [| |b|m x|e|items|fields];
    try (split; [discriminate|intros (_ & (e' & H & _) & _); discriminate]).
  destruct (truthy (VStr (trim e))) eqn:He; cbn [negb].
  2:{ split; [discriminate|].
      intros (_ & (e' & [= <-] & Haddr) & _).
      apply has_address_not_blank, not_blank_trim in Haddr. congruence. }
  destruct (isValidEmail (VStr e)) eqn:Hvalid; cbn [negb].
  2:{ split; [discriminate|].
      intros (_ & (e' & [= <-] & Haddr) & _).
      apply (email_pattern_test e) in Haddr.
      change (isValidEmail (VStr e) = true) in Haddr. congruence. }
  destruct (subject c) as [|u us] eqn:Hsubject; cbn [truthy negb].
  { split; [discriminate|]. intros (_ & _ & H & _). now elim H. }
  destruct (trim (message c)) as [|v vs] eqn:Hmessage; cbn [truthy negb orb].
  { split; [discriminate|]. intros (_ & _ & _ & H). cbn in H. lia. }
  destruct (Nat.ltb_spec (length (v :: vs)) 10) as [Hlt|Hge].
  { split; [discriminate|]. intros (_ & _ & _ & H). lia. }
  split; [intros _|reflexivity].
  split; [|split; [|split]].
  - exists n. split; [reflexivity|]. now apply not_blank_trim.
  - exists e. split; [reflexivity|].
    now apply (email_pattern_test e).
  - discriminate.
  - exact Hge.
Qed.

(** X15.  What the form accepts: [validate] returns null exactly when
    the name is a string that is not blank, the email is a string with
    an address in it, a subject is chosen and the message, without the
    white space at its ends, has ten code units or more.  A blank email
    never gets as far as the test of its shape, and a message of white
    space counts as empty. *)
Theorem validate_accepts_iff (c : form) :
  validate B c = Done None <-> acceptable c.
Proof. exact (validate_accepts c). Qed.

(** Every message of [validate] is a non-empty string. *)
Lemma validate_message (c : form) (msg : jsstring) :
  validate B c = Done (Some msg) -> exists u text, msg = u :: text.
Proof.
  unfold validate.
  destruct (trim_of B (name c)); [|discriminate].
  destruct (negb _); [intros [= <-]; now eexists; eexists|].
  destruct (trim_of B (email c)); [|discriminate].
  repeat (destruct (negb _); [intros [= <-]; now eexists; eexists|]).
  destruct (_ || _); [intros [= <-]; now eexists; eexists|discriminate].
Qed.

(** X16.  A form that is not acceptable is not sent.  When the name and
    the email are strings and the form is not acceptable, submitting it
    sends no request and changes no cell: the page asks for one toast,
    titled Validation Error, with a message that is not empty. *)
Theorem handleSubmit_validates_locally (c p : form) (w : world)
        (n e : jsstring) :
  name c = VStr n -> email c = VStr e ->
  ~ acceptable c ->
  exists msg : jsstring,
    msg <> []
    /\ validate B c = Done (Some msg)
    /\ handleSubmit B c p w
       = (Done tt, with_toast (str "Validation Error") (VStr msg) p, w).
Proof.
  intros Hname Hemail Hno.
  assert (Hsome : exists msg, validate B c = Done (Some msg)).
  { rewrite <- validate_accepts in Hno.
    destruct (validate B c) as [[msg|]|x] eqn:Hv.
    - now exists msg.
    - now elim Hno.
    - exfalso. unfold validate, trim_of in Hv. rewrite Hname, Hemail in Hv.
      destruct (negb _); [discriminate|].
      repeat (destruct (negb _); [discriminate|]).
      destruct (_ || _); discriminate. }
  destruct Hsome as (msg & Hv).
  destruct (validate_message c msg Hv) as (u & text & ->).
  exists (u :: text). split; [discriminate|]. split; [exact Hv|].
  unfold handleSubmit, bind, of_outcome. rewrite Hv. reflexivity.
Qed.

(** X17.  A query the server accepts empties the form: with an
    acceptable form and a success status, one request was sent, the name,
    the email and the message are empty again, the subject is the first
    option, the button is enabled and the page asks for the toast that
    reports success. *)
Theorem handleSubmit_success_clears (c p : form) (w : world) (res : response) :
  acceptable c ->
  net B (trace w) (contact_request c) = Responded res ->
  ok res = true ->
  handleSubmit B c p w
  = (Done tt,
     {| name := VStr []; email := VStr [];
        subject := str "General Query"; message := [];
        loading := false;
        toasts := toasts p ++ [{| title := str "Success";
                                  description := VStr success_text |}] |},
     after w (Fetch (contact_request c))).
Proof.
  intros Hacc Hnet Hok. apply validate_accepts in Hacc.
  unfold handleSubmit, bind at 1, of_outcome. rewrite Hacc.
  unfold try_finally, try_catch, bind, fetch, setLoading, modify.
  rewrite Hnet, Hok. reflexivity.
Qed.


End Contact.

Lemma isValidEmail_shape_witness :
  ContactPage.isValidEmail (VStr (str "write to a@b.c please")) = true.
Proof.
  apply (proj2 (isValidEmail_shape (VStr (str "write to a@b.c please")))).
  exists (str "write to "), 97%N, (str "b"), 99%N, (str " please").
  split; [reflexivity|]. split; [reflexivity|]. split; [discriminate|].
  split; reflexivity.
Defined.

Lemma a_query_acceptable : acceptable a_query.
Proof.
  split; [|split; [|split]].
  - exists (str "Asha"). split; reflexivity.
  - exists (str "asha@example.org"). split; [reflexivity|].
    exists (str "ash"), 97%N, (str "example"), 111%N, (str "rg").
    split; [reflexivity|]. split; [reflexivity|]. split; [discriminate|].
    split; reflexivity.
  - discriminate.
  - vm_compute. lia.
Defined.

Lemma validate_accepts_iff_witness :
  ContactPage.validate offline a_query = Done None.
Proof.
  apply (proj2 (validate_accepts_iff offline a_query)).
  exact a_query_acceptable.
Defined.

Lemma handleSubmit_validates_locally_witness :
  exists msg : jsstring,
    msg <> []
    /\ ContactPage.validate offline ContactPage.blank = Done (Some msg)
    /\ ContactPage.handleSubmit offline ContactPage.blank
         ContactPage.blank (ReservationContext.startup None)
       = (Done tt,
          with_toast (str "Validation Error") (VStr msg) ContactPage.blank,
          ReservationContext.startup None).
Proof.
  apply (handleSubmit_validates_locally offline ContactPage.blank
           ContactPage.blank (ReservationContext.startup None) [] []).
  - reflexivity.
  - reflexivity.
  - intros ((n & Hn & Hblank) & _). injection Hn as <-. discriminate Hblank.
Defined.

Lemma handleSubmit_success_clears_witness :
  ContactPage.handleSubmit (replying 200 (str "{}")) a_query a_query
    (ReservationContext.startup None)
  = (Done tt,
     {| ContactPage.name := VStr []; ContactPage.email := VStr [];
        ContactPage.subject := str "General Query";
        ContactPage.message := [];
        ContactPage.loading := false;
        ContactPage.toasts :=
          ContactPage.toasts a_query
          ++ [{| ContactPage.title := str "Success";
                 ContactPage.description :=
                   VStr ContactPage.success_text |}] |},
     after (ReservationContext.startup None)
           (Fetch (ContactPage.contact_request a_query))).
Proof.
  apply (handleSubmit_success_clears (replying 200 (str "{}")) a_query a_query
           (ReservationContext.startup None)
           {| status := 200; body := str "{}" |}).
  - exact a_query_acceptable.
  - reflexivity.
  - reflexivity.
Defined.

(** ** The bodies of the requests *)

Section Bodies.

Lemma JSON_parse_enough (text : jsstring) (v : value) :
  (4 <= length text)%nat ->
  (forall fuel : nat, parse_value (10 + fuel) text = Parsed v []) ->
  JSON_parse text = Some v.
Proof.
  intros Hlen Hparse. unfold JSON_parse.
  replace (2 * length text + 2)%nat
    with (10 + (2 * length text + 2 - 10))%nat by lia.
  now rewrite Hparse.
Qed.

Ltac members :=
  repeat (erewrite parse_members_next; [|apply parse_value_quote]);
  erewrite parse_members_end; [reflexivity|apply parse_value_quote].

Variable user : value.

(** X19.  What the server is sent.  When the station and the demand
    level of the form are strings, the body of the reserve request is
    JSON text that reads back as an object with the date, the time slot,
    the station id and the demand level of the form, in that order,
    followed by the email of the user; when the user has no email, the
    body has no [user_email] key at all. *)
Theorem reserve_body_reads_back (c : ReservationPage.page) (i d : jsstring) :
  ReservationPage.stationId c = VStr i ->
  ReservationPage.predictedDemand c = VStr d ->
  (forall e : jsstring,
      opt_field user (str "email") = VStr e ->
      JSON_parse (ReservationPage.reserve_body user c)
      = Some (VObj [(str "date", VStr (ReservationPage.date c));
                    (str "time_slot", VStr (ReservationPage.timeSlot c));
                    (str "station_id", VStr i);
                    (str "predicted_demand", VStr d);
                    (str "user_email", VStr e)]))
  /\ (opt_field user (str "email") = VUndefined ->
      JSON_parse (ReservationPage.reserve_body user c)
      = Some (VObj [(str "date", VStr (ReservationPage.date c));
                    (str "time_slot", VStr (ReservationPage.timeSlot c));
                    (str "station_id", VStr i);
                    (str "predicted_demand", VStr d)])).
Proof.
  intros Hi Hd. unfold ReservationPage.reserve_body. rewrite Hi, Hd.
  split.
  - intros e ->. unfold JSON_stringify.
    cbn -[quote parse_value Nat.add JSON_parse]. rewrite <- ?app_assoc.
    apply JSON_parse_enough; [apply object_text_length|].
    intros fuel. cbn [Nat.add]. rewrite parse_value_object. members.
  - intros ->. unfold JSON_stringify.
    cbn -[quote parse_value Nat.add JSON_parse]. rewrite <- ?app_assoc.
    apply JSON_parse_enough; [apply object_text_length|].
    intros fuel. cbn [Nat.add]. rewrite parse_value_object. members.
Qed.

End Bodies.

Lemma reserve_body_reads_back_witness :
  JSON_parse (ReservationPage.reserve_body a_user (filled (str "S1")))
  = Some (VObj [(str "date", VStr (str "2025-01-01"));
                (str "time_slot", VStr (str "Morning"));
                (str "station_id", VStr (str "S1"));
                (str "predicted_demand", VStr (str "Low"));
                (str "user_email", VStr (str "a@b.c"))])
  /\ JSON_parse (ReservationPage.reserve_body VNull (filled (str "S1")))
     = Some (VObj [(str "date", VStr (str "2025-01-01"));
                   (str "time_slot", VStr (str "Morning"));
                   (str "station_id", VStr (str "S1"));
                   (str "predicted_demand", VStr (str "Low"))]).
Proof.
  split.
  - apply (proj1 (reserve_body_reads_back a_user (filled (str "S1"))
                    (str "S1") (str "Low") eq_refl eq_refl) (str "a@b.c")).
    reflexivity.
  - apply (proj2 (reserve_body_reads_back VNull (filled (str "S1"))
                    (str "S1") (str "Low") eq_refl eq_refl)).
    reflexivity.
Defined.
(** ** The price and the marker of a station *)

Section Tiers.

Import ReservationPage.


(** X20.  The map and the page read a demand level the same way.
    Whatever value a station carries as its level, the marker on the map
    is the one of the level the page prices it at: the value itself when
    it is High, Medium or Low, and Low for everything else.  The three
    markers differ, so the colour tells the price tier. *)
Theorem marker_agrees_with_price (demand : value) :
  MapMarkers.getIconForDemand demand = icon_of (tier demand)
  /\ (forall timeSlot : value,
         calculatePrice demand timeSlot
         = base_price (tier demand)
           + (if is_str timeSlot (str "Night") then 100 else 0))
  /\ icon_of High <> icon_of Medium
  /\ icon_of High <> icon_of Low
  /\ icon_of Medium <> icon_of Low
  /\ (forall d : DemandLevel, tier (demand_value d) = d).
Proof.
  unfold MapMarkers.getIconForDemand, calculatePrice, tier.
  split; [|split; [|split; [|split; [|split]]]].
  - destruct (is_str demand (str "High")); [reflexivity|].
    destruct (is_str demand (str "Medium")); reflexivity.
  - intros timeSlot.
    destruct (is_str demand (str "High")); [reflexivity|].
    destruct (is_str demand (str "Medium")); reflexivity.
  - intros H; vm_compute in H; discriminate.
  - intros H; vm_compute in H; discriminate.
  - intros H; vm_compute in H; discriminate.
  - intros []; reflexivity.
Qed.

Variable B : browser.
Variable user : value.
Variable loc : location.




End Tiers.


(** ** No handler leaves the page busy *)

Section Idle.

Import ReservationPage ReservationManage.

Variable B : browser.
Variable user : value.

Lemma keeps_on_page {A : Type} (P : page -> Prop) (m : M page A) :
  keeps P m -> keeps (fun s : component => P (cells_of s)) (on_page m).
Proof.
  intros Hm s w H. unfold on_page. specialize (Hm (cells_of s) w H).
  destruct (m (cells_of s) w) as [[r p] w']. exact Hm.
Qed.

(** The update keeps a flag that its own steps keep, given that the
    fetch of the list keeps it and that the last step, which turns the
    submit flag off, does. *)
Lemma handleEditReservation_keeps (P : page -> Prop) (d : dialog) :
  (forall x, forall p, P p -> P (with_submitError x p)) ->
  (forall p, P p -> P (with_isSubmitting true p)) \/
  (forall p, P (with_isSubmitting false p)) ->
  (forall p, P p -> P (with_isSubmitting false p)) ->
  keeps P (fetchUserReservations B user) ->
  keeps (fun s : component => P (cells_of s)) (handleEditReservation B user d).
Proof.
  intros Herr Hbusy Hoff Hlist.
  assert (Hmod : forall g : page -> page,
             (forall p, P p -> P (g p)) ->
             keeps (fun s : component => P (cells_of s)) (on_page (modify g))).
  { intros g Hg. apply (keeps_on_page P). now apply keeps_modify. }
  assert (Hdlg : forall g : dialog -> dialog,
             keeps (fun s : component => P (cells_of s)) (on_dialog g)).
  { intros g. apply keeps_modify. now intros. }
  unfold handleEditReservation, setSubmitError, setIsSubmitting,
    setEditDialogOpen, setEditingReservation.
  destruct (_ || _); [apply keeps_ret|].
  destruct (negb _); [apply Hmod, Herr|].
  destruct (negb _); [apply Hmod, Herr|].
  destruct (negb _); [apply Hmod, Herr|].
  destruct Hbusy as [Hon|Hfin].
  - apply keeps_try_finally; [|now apply Hmod].
    apply keeps_try_catch; [|intros; apply Hmod, Herr].
    apply keeps_bind; [now apply Hmod|intros _].
    apply keeps_bind; [apply Hmod, Herr|intros _].
    apply keeps_bind; [apply keeps_of_outcome|intros id].
    apply keeps_bind; [apply keeps_fetch|intros res].
    apply keeps_bind.
    + destruct (negb _); [|apply keeps_ret].
      apply keeps_bind.
      * apply keeps_try_catch; [apply keeps_json|intros; apply keeps_ret].
      * intros data.
        apply keeps_bind; [apply keeps_of_outcome|intros; apply keeps_throw].
    + intros _.
      apply keeps_bind; [apply Hdlg|intros _].
      apply keeps_bind; [apply Hdlg|intros _].
      now apply (keeps_on_page P).
  - intros s w _. unfold try_finally, on_page, modify.
    match goal with
    | |- context [try_catch ?m ?h s w] => destruct (try_catch m h s w) as [[r s1] w1]
    end.
    apply Hfin.
Qed.

(** X23.  No handler of the page rejects, and none leaves the page busy:
    whatever the server and the storage do, an edit of the form, the load
    of the catalog, the fetch of the list, a reservation, a cancellation
    and an update each return, and when the three flags that disable the
    controls were off before, they are off afterwards. *)
Theorem handlers_end_idle (p : page) (w : world) :
  idle p ->
  (forall (a : action) (c : page),
      exists (p' : page) (w' : world),
        handler B user a c p w = (Done tt, p', w') /\ idle p')
  /\ (forall id : value,
         exists (p' : page) (w' : world),
           handleCancelReservation B user id p w = (Done tt, p', w')
           /\ idle p')
  /\ (forall d d' : dialog,
         exists (s' : component) (w' : world),
           handleEditReservation B user d
             {| cells_of := p; dialog_of := d' |} w
           = (Done tt, s', w')
           /\ idle (cells_of s')).
Proof.
  intros Hidle.
  assert (Hboth : forall m : M page unit,
             returns m -> keeps idle m ->
             exists p' w', m p w = (Done tt, p', w') /\ idle p').
  { intros m Hr Hk. specialize (Hk p w Hidle).
    destruct (Hr p w) as (p' & w' & Hrun). rewrite Hrun in Hk.
    now exists p', w'. }
  split; [|split].
  - intros a c. apply Hboth; destruct a; cbn [handler].
    + apply returns_ret.
    + apply returns_modify.
    + apply returns_modify.
    + apply returns_modify.
    + apply loadStations_returns.
    + apply fetchUserReservations_returns.
    + apply handleReserve_returns.
    + apply keeps_ret.
    + apply keeps_modify. now intros.
    + apply keeps_modify. now intros.
    + apply keeps_modify. now intros.
    + apply loadStations_idle.
    + apply fetchUserReservations_idle.
    + apply handleReserve_idle.
  - intros id. apply Hboth.
    + apply handleCancelReservation_returns.
    + apply handleCancelReservation_idle.
  - intros d d'.
    destruct (fetchUserReservations_flags B user) as (K1 & K2 & K3).
    destruct Hidle as (H1 & H2 & H3).
    pose proof (handleEditReservation_keeps
                  (fun p => stationsLoading p = false) d
                  (fun x p H => H) (or_introl (fun p H => H)) (fun p H => H) K1
                  {| cells_of := p; dialog_of := d' |} w H1) as Q1.
    pose proof (handleEditReservation_keeps
                  (fun p => isSubmitting p = false) d
                  (fun x p H => H) (or_intror (fun p => eq_refl))
                  (fun p H => eq_refl) K2
                  {| cells_of := p; dialog_of := d' |} w H2) as Q2.
    pose proof (handleEditReservation_keeps
                  (fun p => loadingReservations p = false) d
                  (fun x p H => H) (or_introl (fun p H => H)) (fun p H => H) K3
                  {| cells_of := p; dialog_of := d' |} w H3) as Q3.
    destruct (handleEditReservation_returns B user d
                {| cells_of := p; dialog_of := d' |} w) as (s' & w' & Hrun).
    rewrite Hrun in Q1, Q2, Q3.
    exists s', w'. split; [exact Hrun|]. now repeat split.
Qed.

End Idle.

Lemma handlers_end_idle_witness :
  (forall (a : ReservationPage.action) (c : ReservationPage.page),
      exists (p' : ReservationPage.page) (w' : world),
        ReservationPage.handler offline a_user a c
          (ReservationPage.initial (str "2025-01-01"))
          (ReservationContext.startup None)
        = (Done tt, p', w') /\ idle p')
  /\ (forall id : value,
         exists (p' : ReservationPage.page) (w' : world),
           ReservationManage.handleCancelReservation offline a_user id
             (ReservationPage.initial (str "2025-01-01"))
             (ReservationContext.startup None)
           = (Done tt, p', w')
           /\ idle p')
  /\ (forall d d' : ReservationManage.dialog,
         exists (s' : ReservationManage.component) (w' : world),
           ReservationManage.handleEditReservation offline a_user d
             {| ReservationManage.cells_of :=
                  ReservationPage.initial (str "2025-01-01");
                ReservationManage.dialog_of := d' |}
             (ReservationContext.startup None)
           = (Done tt, s', w')
           /\ idle (ReservationManage.cells_of s')).
Proof.
  apply (handlers_end_idle offline a_user
           (ReservationPage.initial (str "2025-01-01"))
           (ReservationContext.startup None)).
  split; [reflexivity|]. split; reflexivity.
Defined.
